(** * PDAL LAS support utilities: a shallow embedding of io/private/las/Utils.hpp

    The development follows the header declaration by declaration:
    the [Compression] option type with its stream operators, the
    [ExtraDim] record and its comparison, the packed [ExtraBytesSpec]
    record, the [ExtraBytesIf] constructors, the [LoaderDriver] over the
    closed family of point loaders, and the [VlrCatalog].

    C++ [double] is the kernel's binary64 [float]; fixed-width integers
    are [Z] with their range written out where it matters; [std::string]
    is [string]. *)

From Stdlib Require Import ZArith List String Ascii Bool Lia.
From Stdlib Require Import Floats.
Import ListNotations.

Local Open Scope string_scope.
Local Open Scope Z_scope.

#[local] Set Warnings "-inexact-float".

(* ================================================================= *)
(** ** Character streams *)

(** The part of [std::istream] / [std::ostream] that the [Compression]
    operators touch: the characters still to be read together with the
    fail bit, and the characters written so far. *)
Module Stream.

Record istream : Type := mkIstream
  { in_buf : string;      (* characters not yet consumed *)
    in_fail : bool }.     (* failbit *)

Definition ostream : Type := string.

Definition from_string (s : string) : istream :=
  {| in_buf := s; in_fail := false |}.

(** [std::isspace] in the classic locale: space, \t, \n, \v, \f, \r. *)
Definition isspace (c : ascii) : bool :=
  let n := nat_of_ascii c in
  (Nat.eqb n 32 || (Nat.leb 9 n && Nat.leb n 13))%bool.

Fixpoint skipws (s : string) : string :=
  match s with
  | EmptyString => EmptyString
  | String c r => if isspace c then skipws r else s
  end.

(** Characters up to (not including) the next white space, and the rest. *)
Fixpoint take_word (s : string) : string * string :=
  match s with
  | EmptyString => (EmptyString, EmptyString)
  | String c r =>
      if isspace c then (EmptyString, s)
      else let (w, rest) := take_word r in (String c w, rest)
  end.

(** [in >> s] for a [std::string] [s] that is empty before the call (as
    the local variable of the source is): leading white space is skipped,
    the word read; failbit is raised when no character was extracted. A
    stream that has already failed extracts nothing. *)
Definition extract_word (i : istream) : string * istream :=
  if in_fail i then (EmptyString, i)
  else
    let (w, rest) := take_word (skipws (in_buf i)) in
    (w, {| in_buf := rest;
           in_fail := match w with EmptyString => true | _ => false end |}).

(** [out << "literal"] with the default field width. *)
Definition insert_string (o : ostream) (s : string) : ostream := o ++ s.

End Stream.

(* ================================================================= *)
(** ** pdal::Utils::toupper *)

(** [Utils::toupper] comes from pdal/util/Utils.hpp, outside this header:
    it maps [std::toupper] over the string; in the classic locale that
    moves 'a'..'z' to 'A'..'Z' and leaves every other character alone. *)
Module Utils.

Definition toupper_char (c : ascii) : ascii :=
  let n := nat_of_ascii c in
  if (Nat.leb 97 n && Nat.leb n 122)%bool then ascii_of_nat (n - 32) else c.

Fixpoint toupper (s : string) : string :=
  match s with
  | EmptyString => EmptyString
  | String c r => String (toupper_char c) (toupper r)
  end.

End Utils.

(* ================================================================= *)
(** ** enum class Compression and its stream operators *)

Module Compression.

Inductive t : Type := LasZip | LazPerf | None.

(** [operator>>(std::istream&, Compression&)]: the new value of [c] and
    the stream after the extraction. *)
Definition read (i : Stream.istream) : t * Stream.istream :=
  let (s, i') := Stream.extract_word i in
  let s := Utils.toupper s in
  let c :=
    if ((s =? "LASZIP")%string || (s =? "TRUE")%string)%bool then LasZip
    else if (s =? "LAZPERF")%string then LazPerf
    else None in
  (c, i').

(** [operator<<(std::ostream&, const Compression&)]. *)
Definition write (out : Stream.ostream) (c : t) : Stream.ostream :=
  match c with
  | LasZip => Stream.insert_string out "LasZip"
  | LazPerf => Stream.insert_string out "LazPerf"
  | None => Stream.insert_string out "None"
  end.

(** A token is what one [>>] extraction yields: non-empty, no white space. *)
Fixpoint no_space (s : string) : bool :=
  match s with
  | EmptyString => true
  | String c r => (negb (Stream.isspace c) && no_space r)%bool
  end.

Definition is_token (s : string) : Prop :=
  s <> EmptyString /\ no_space s = true.

(** What may follow a token in the stream: nothing, or white space. *)
Definition ends_word (rest : string) : Prop :=
  match rest with
  | EmptyString => True
  | String c _ => Stream.isspace c = true
  end.

End Compression.

(* ================================================================= *)
(** ** Dimension types, transforms and DimType *)

(** Modelled from the spec: [Dimension::Type], [Dimension::size] and
    [Dimension::Id] are declared in pdal/Dimension.hpp, which this header
    only includes. The spec describes the type as "an enumerated primitive
    kind (signed/unsigned integer widths 8-64, float32/64, none) with a
    fixed byte size". Of [Dimension::Id] the header uses [Unknown] only. *)
Module Dimension.

Inductive Type_ : Type :=
| None
| Unsigned8 | Signed8
| Unsigned16 | Signed16
| Unsigned32 | Signed32
| Unsigned64 | Signed64
| Float | Double.

Definition size (t : Type_) : Z :=
  match t with
  | None => 0
  | Unsigned8 | Signed8 => 1
  | Unsigned16 | Signed16 => 2
  | Unsigned32 | Signed32 | Float => 4
  | Unsigned64 | Signed64 | Double => 8
  end.

Definition Type_eq_dec (a b : Type_) : {a = b} + {a <> b}.
Proof. decide equality. Defined.

Definition Type_eqb (a b : Type_) : bool :=
  if Type_eq_dec a b then true else false.

Inductive Id : Type := Unknown | Known (n : nat).

End Dimension.

(** Modelled from the spec: pdal/Scaling.hpp and pdal/DimType.hpp are only
    included here. "Scaling: a per-axis linear transform (scale, offset)";
    a [DimType] carries an id, a storage type and one such transform, which
    is how the [ExtraDim] constructors below build it. *)
Record XForm : Type := mkXForm
  { xf_scale : float;
    xf_offset : float }.

(** Modelled from the spec: the transform itself is in pdal/Scaling.hpp.
    "X/Y/Z use a shared Scaling transform: real = raw*scale + offset", and
    "the inverse" on the way back, both in binary64. *)
Definition fromScaled (xf : XForm) (raw : float) : float :=
  (raw * xf_scale xf + xf_offset xf)%float.

Definition toScaled (xf : XForm) (x : float) : float :=
  ((x - xf_offset xf) / xf_scale xf)%float.

Record Scaling : Type := mkScaling
  { m_xXform : XForm;
    m_yXform : XForm;
    m_zXform : XForm }.

Record DimType : Type := mkDimType
  { m_id : Dimension.Id;
    m_type : Dimension.Type_;
    m_xform : XForm }.

(** [DimType(id, type, scale = 1.0, offset = 0.0)]. *)
Definition DimType_ctor (id : Dimension.Id) (type : Dimension.Type_)
    (scale offset : float) : DimType :=
  {| m_id := id; m_type := type; m_xform := mkXForm scale offset |}.

(** Conversion to [uint8_t]. *)
Definition to_uint8 (z : Z) : Z := z mod 256.

(* ================================================================= *)
(** ** struct ExtraDim *)

Module ExtraDim.

Record t : Type := mk
  { m_name : string;
    m_dimType : DimType;
    m_size : Z;           (* uint8_t *)
    m_byteOffset : Z }.   (* int32_t *)

(** [ExtraDim(name, type, byteOffset, scale = 1.0, offset = 0.0)]. *)
Definition of_type (name : string) (type : Dimension.Type_) (byteOffset : Z)
    (scale offset : float) : t :=
  {| m_name := name;
     m_dimType := DimType_ctor Dimension.Unknown type scale offset;
     m_size := to_uint8 (Dimension.size type);
     m_byteOffset := byteOffset |}.

(** [ExtraDim(name, size, byteOffset)]: raw bytes of the given size. *)
Definition of_size (name : string) (size : Z) (byteOffset : Z) : t :=
  {| m_name := name;
     m_dimType := DimType_ctor Dimension.Unknown Dimension.None 1%float 0%float;
     m_size := size;
     m_byteOffset := byteOffset |}.

(** [operator==(const ExtraDim&, const ExtraDim&)]. *)
Definition eqb (ed1 ed2 : t) : bool :=
  ((m_name ed1 =? m_name ed2)%string
   && Dimension.Type_eqb (m_type (m_dimType ed1)) (m_type (m_dimType ed2))
   && (m_size ed1 =? m_size ed2)%Z)%bool.

End ExtraDim.

Definition ExtraDims : Type := list ExtraDim.t.

(* ================================================================= *)
(** ** struct ExtraBytesSpec under #pragma pack(push, 1) *)

(** Member placement the way the compiler does it: a member goes to the
    next offset that is a multiple of its alignment, where [#pragma pack(n)]
    caps every member's alignment at [n]; the size of the record is the end
    of the last member rounded up to the record's alignment. *)
Module Layout.

Inductive ctype : Type := c_char | c_uint8 | c_uint64 | c_double.

Definition sizeof (t : ctype) : Z :=
  match t with
  | c_char | c_uint8 => 1
  | c_uint64 | c_double => 8
  end.

(** Natural alignment of the scalar types equals their size. *)
Definition alignof (t : ctype) : Z := sizeof t.

Record member : Type := mkMember
  { mem_name : string;
    mem_type : ctype;
    mem_count : Z }.      (* array length *)

Definition member_size (m : member) : Z := sizeof (mem_type m) * mem_count m.

Definition member_align (pack : Z) (m : member) : Z :=
  Z.min pack (alignof (mem_type m)).

Definition align_up (off a : Z) : Z := ((off + a - 1) / a) * a.

(** Offsets of the members, in declaration order, starting at [off];
    the second component is the end of the last member. *)
Fixpoint place (pack off : Z) (ms : list member) : list (string * Z * Z) * Z :=
  match ms with
  | [] => ([], off)
  | m :: rest =>
      let o := align_up off (member_align pack m) in
      let (placed, stop) := place pack (o + member_size m) rest in
      ((mem_name m, o, member_size m) :: placed, stop)
  end.

Definition struct_align (pack : Z) (ms : list member) : Z :=
  fold_left (fun a m => Z.max a (member_align pack m)) ms 1.

Definition struct_size (pack : Z) (ms : list member) : Z :=
  align_up (snd (place pack 0 ms)) (struct_align pack ms).

Definition struct_members (pack : Z) (ms : list member) : list (string * Z * Z) :=
  fst (place pack 0 ms).

End Layout.

Definition ExtraBytesSpec : list Layout.member :=
  [ Layout.mkMember "m_reserved" Layout.c_char 2;
    Layout.mkMember "m_dataType" Layout.c_uint8 1;
    Layout.mkMember "m_options" Layout.c_uint8 1;
    Layout.mkMember "m_name" Layout.c_char 32;
    Layout.mkMember "m_reserved2" Layout.c_char 4;
    Layout.mkMember "m_noData" Layout.c_uint64 3;
    Layout.mkMember "m_min" Layout.c_double 3;
    Layout.mkMember "m_max" Layout.c_double 3;
    Layout.mkMember "m_scale" Layout.c_double 3;
    Layout.mkMember "m_offset" Layout.c_double 3;
    Layout.mkMember "m_description" Layout.c_char 32 ].

(** [const int ExtraBytesSpecSize = sizeof(ExtraBytesSpec);] with the
    packing of 1 that is in force around the declaration. *)
Definition ExtraBytesSpecSize : Z := Layout.struct_size 1 ExtraBytesSpec.

(* ================================================================= *)
(** ** class ExtraBytesIf: the constructors and the type byte *)

Module ExtraBytesIf.

(** [double a[3]]. *)
Record double3 : Type := mkDouble3 { d0 : float; d1 : float; d2 : float }.

Definition get (a : double3) (i : Z) : float :=
  if i =? 0 then d0 a else if i =? 1 then d1 a else d2 a.

(** [a[i] = v] for an index inside the array. *)
Definition set (a : double3) (i : Z) (v : float) : double3 :=
  if i =? 0 then mkDouble3 v (d1 a) (d2 a)
  else if i =? 1 then mkDouble3 (d0 a) v (d2 a)
  else if i =? 2 then mkDouble3 (d0 a) (d1 a) v
  else a.

Record t : Type := mk
  { m_type : Dimension.Type_;
    m_fieldCnt : Z;            (* unsigned; "Must be 0 - 3" *)
    m_scale : double3;
    m_offset : double3;
    m_name : string;
    m_description : string;
    m_size : Z }.              (* size_t *)

(** [for (size_t i = 0; i < 3; ++i) { m_scale[i] = s; m_offset[i] = o; }]
    started at [i] with [n] iterations left. *)
Fixpoint fill (n : nat) (i : Z) (s o : float) (sc off : double3)
    : double3 * double3 :=
  match n with
  | O => (sc, off)
  | S n' => fill n' (i + 1) s o (set sc i s) (set off i o)
  end.

Section Constructors.
(** What the two arrays hold before a constructor body runs: they have
    no member initialiser, so any values. *)
Variables scale0 offset0 : double3.

(** [ExtraBytesIf()]. *)
Definition default : t :=
  let (sc, off) := fill 3 0 1%float 0%float scale0 offset0 in
  {| m_type := Dimension.None;
     m_fieldCnt := 0;
     m_scale := sc;
     m_offset := off;
     m_name := EmptyString;
     m_description := EmptyString;
     m_size := 0 |}.

(** [ExtraBytesIf(name, type, description)]. *)
Definition make (name : string) (type : Dimension.Type_)
    (description : string) : t :=
  let (sc, off) := fill 3 0 0%float 0%float scale0 offset0 in
  {| m_type := type;
     m_fieldCnt := if Dimension.Type_eqb type Dimension.None then 0 else 1;
     m_scale := sc;
     m_offset := off;
     m_name := name;
     m_description := description;
     m_size := 0 |}.
End Constructors.

(** The objects the header itself can build. *)
Inductive constructed : t -> Prop :=
| by_default : forall s0 o0, constructed (default s0 o0)
| by_make : forall s0 o0 name type description,
    constructed (make s0 o0 name type description).

(** The invariant on the number of vector components. *)
Definition fieldCnt_ok (eb : t) : Prop :=
  (m_type eb = Dimension.None -> m_fieldCnt eb = 0)
  /\ (m_type eb <> Dimension.None -> 1 <= m_fieldCnt eb).

Definition all3 (a : double3) (v : float) : Prop :=
  get a 0 = v /\ get a 1 = v /\ get a 2 = v.

(** Modelled from the spec: [setType], [lasType] and [readFrom] are
    declared in the header and defined in Utils.cpp. The base type of a
    scalar type code: "type codes 1-10 = unsigned/signed 8/16/32/64-bit
    scalars and float32/64 in a defined order". *)
Definition base_type (code : Z) : Dimension.Type_ :=
  if code =? 1 then Dimension.Unsigned8
  else if code =? 2 then Dimension.Signed8
  else if code =? 3 then Dimension.Unsigned16
  else if code =? 4 then Dimension.Signed16
  else if code =? 5 then Dimension.Unsigned32
  else if code =? 6 then Dimension.Signed32
  else if code =? 7 then Dimension.Unsigned64
  else if code =? 8 then Dimension.Signed64
  else if code =? 9 then Dimension.Float
  else if code =? 10 then Dimension.Double
  else Dimension.None.

(** Modelled from the spec: the fixed mapping table from the LAS type
    byte to the type and the field count. Codes 1-10 are the scalars,
    "11-30 = 2-or-3-component vectors of the same base types", and code 0
    is the "opaque raw byte span", which has no type; its field count is
    the 0 that [lasType] accepts ("fieldCount outside 0..3" fails) and
    that no code of 1-30 gives. For any other code "no mapping exists". *)
Definition decode (lastype : Z) : option (Dimension.Type_ * Z) :=
  if lastype =? 0 then Some (Dimension.None, 0)
  else if (1 <=? lastype) && (lastype <=? 10)
       then Some (base_type lastype, 1)
  else if (11 <=? lastype) && (lastype <=? 20)
       then Some (base_type (lastype - 10), 2)
  else if (21 <=? lastype) && (lastype <=? 30)
       then Some (base_type (lastype - 20), 3)
  else Datatypes.None.

(** Modelled from the spec: [setType(lastype)], the inverse mapping; it
    assigns the type and the field count and "fails (signals an encoding
    error)" when no mapping exists, which is [None] here: the spec does
    not say what the descriptor holds after a failure. *)
Definition setType (lastype : Z) (eb : t) : option t :=
  match decode lastype with
  | Some (type, cnt) =>
      Some {| m_type := type;
              m_fieldCnt := cnt;
              m_scale := m_scale eb;
              m_offset := m_offset eb;
              m_name := m_name eb;
              m_description := m_description eb;
              m_size := m_size eb |}
  | Datatypes.None => Datatypes.None
  end.

(** The position of a type in the order of the scalar codes. *)
Definition type_code (type : Dimension.Type_) : Z :=
  match type with
  | Dimension.None => 0
  | Dimension.Unsigned8 => 1
  | Dimension.Signed8 => 2
  | Dimension.Unsigned16 => 3
  | Dimension.Signed16 => 4
  | Dimension.Unsigned32 => 5
  | Dimension.Signed32 => 6
  | Dimension.Unsigned64 => 7
  | Dimension.Signed64 => 8
  | Dimension.Float => 9
  | Dimension.Double => 10
  end.

(** Modelled from the spec: [lasType()], the forward mapping from the
    type and the field count to the type byte; it "fails when fieldCount
    is outside 0..3 or when no mapping exists for a given combination".
    It reads the descriptor only. *)
Definition lasType (eb : t) : option Z :=
  let cnt := m_fieldCnt eb in
  if (cnt <? 0) || (3 <? cnt) then Datatypes.None
  else if Dimension.Type_eqb (m_type eb) Dimension.None
       then (if cnt =? 0 then Some 0 else Datatypes.None)
  else if cnt =? 0 then Datatypes.None
  else Some (10 * (cnt - 1) + type_code (m_type eb)).

(** The data-type byte of a record: the member [m_dataType] of
    [ExtraBytesSpec], after the two reserved bytes. *)
Definition type_byte (buf : list Byte.byte) : Z :=
  Z.of_N (Byte.to_N (nth 2 buf Byte.x00)).

(** Modelled from the spec: [readFrom(buf)] "decodes the type byte into a
    DimensionType + fieldCount via a fixed mapping table". Of the other
    members the spec says only that they are read back from the record,
    the size of an opaque span being "taken from context": [others]
    stands for that part, and may be any function of the record and the
    descriptor. A buffer shorter than the 192 bytes of a record is read
    outside its bounds: no descriptor results. *)
Definition readFrom (others : list Byte.byte -> t -> t)
    (buf : list Byte.byte) (eb : t) : option t :=
  if Z.of_nat (List.length buf) <? ExtraBytesSpecSize then Datatypes.None
  else
    match setType (type_byte buf) eb with
    | Some eb1 =>
        let o := others buf eb1 in
        Some {| m_type := m_type eb1;
                m_fieldCnt := m_fieldCnt eb1;
                m_scale := m_scale o;
                m_offset := m_offset o;
                m_name := m_name o;
                m_description := m_description o;
                m_size := m_size o |}
    | Datatypes.None => Datatypes.None
    end.

(** Every descriptor a program can hold: one a constructor built, after
    any number of calls of [setType] and [readFrom] that returned, with
    any arguments. The other members, [appendTo] and [lasType], read the
    descriptor and leave it as it is, and [toExtraDims] is static. *)
Inductive reachable : t -> Prop :=
| reach_constructed : forall eb, constructed eb -> reachable eb
| reach_setType : forall eb lastype eb',
    reachable eb -> setType lastype eb = Some eb' -> reachable eb'
| reach_readFrom : forall eb others buf eb',
    reachable eb -> readFrom others buf eb = Some eb' -> reachable eb'.

End ExtraBytesIf.

(* ================================================================= *)
(** ** Results of calls that may throw *)

(** A call either returns or throws ([las::error], or whatever a caller's
    callback throws); the object it works on keeps the changes made before
    the throw. [M S A] is a computation on a state [S]. *)
Inductive result (A : Type) : Type :=
| Ok (a : A)
| Throw (what : string).
Arguments Ok {A} a.
Arguments Throw {A} what.

Definition M (S A : Type) : Type := S -> S * result A.

Definition ret {S A} (a : A) : M S A := fun s => (s, Ok a).

Definition bind {S A B} (m : M S A) (k : A -> M S B) : M S B :=
  fun s =>
    match m s with
    | (s', Ok a) => k a s'
    | (s', Throw e) => (s', Throw e)
    end.

Definition get_state {S} : M S S := fun s => (s, Ok s).
Definition put_state {S} (s : S) : M S unit := fun _ => (s, Ok tt).
Definition lift {S A} (r : result A) : M S A := fun s => (s, r).

Notation "x <- m ;; k" := (bind m (fun x => k))
  (at level 61, m at next level, right associativity).
Notation "m ;;; k" := (bind m (fun _ => k))
  (at level 61, right associativity).

(* ================================================================= *)
(** ** Point loaders and the LoaderDriver *)

Definition buffer : Type := list Byte.byte.

Module Loader.

(** The classes derived from [PointLoader], each with the data member
    its constructor stores. *)
Inductive PointLoader : Type :=
| V10BaseLoader (m_scaling : Scaling)
| V14BaseLoader (m_scaling : Scaling)
| GpstimeLoader (m_offset : Z)
| ColorLoader (m_offset : Z)
| NirLoader (m_offset : Z)
| ExtraDimLoader (m_extraDims : ExtraDims).

Definition is_base (l : PointLoader) : bool :=
  match l with
  | V10BaseLoader _ | V14BaseLoader _ => true
  | _ => false
  end.

(** One row of the table from PDRF number to record layout. *)
Inductive Family : Type := V10 | V14.

Record PdrfLayout : Type := mkPdrfLayout
  { family : Family;
    gpstime_at : option Z;     (* offset of the GPS time, when present *)
    color_at : option Z;       (* offset of the colour triple *)
    nir_at : option Z }.       (* offset of the near-infrared value *)

Section Driver.

(** [pdal::PointRef] (pdal/PointRef.hpp) is opaque here. *)
Variable PointRef : Type.

(** The virtual [load] and [pack] of the loader classes: their bodies
    are in Utils.cpp and stay parameters. Each works on the point, resp.
    the buffer, in place and may throw. *)
Variable loader_load : PointLoader -> buffer -> Z -> M PointRef unit.
Variable loader_pack : PointLoader -> PointRef -> Z -> M buffer unit.

(** The fixed table "PDRF number to layout"; [None] for a PDRF without
    a base loader. *)
Variable pdrf_table : Z -> option PdrfLayout.

Record LoaderDriver : Type := mkDriver
  { m_loaders : list PointLoader }.

(** [LoaderDriver() = default]. *)
Definition empty : LoaderDriver := {| m_loaders := [] |}.

Definition optional (mk : Z -> PointLoader) (at_ : option Z) : list PointLoader :=
  match at_ with
  | Some off => [mk off]
  | Datatypes.None => []
  end.

(** Modelled from the spec: [LoaderDriver::init] is defined in
    Utils.cpp. "Always starts with the base loader matching the PDRF
    family ..., then conditionally appends GpstimeLoader / ColorLoader /
    NirLoader depending on which optional fields that PDRF's layout
    includes ..., then appends one ExtraDimLoader if extraDims is
    non-empty." The driver is "rebuilt whenever the PDRF or
    extra-dimension set changes": the chain selected here replaces the
    one [d] had. *)
Definition init (d : LoaderDriver) (pdrf : Z) (scaling : Scaling)
    (dims : ExtraDims) : LoaderDriver :=
  let fixed :=
    match pdrf_table pdrf with
    | Some row =>
        (match family row with
         | V10 => V10BaseLoader scaling
         | V14 => V14BaseLoader scaling
         end)
        :: optional GpstimeLoader (gpstime_at row)
        ++ optional ColorLoader (color_at row)
        ++ optional NirLoader (nir_at row)
    | Datatypes.None => []
    end in
  let extra :=
    match dims with
    | [] => []
    | _ :: _ => [ExtraDimLoader dims]
    end in
  {| m_loaders := (fixed ++ extra)%list |}.

(** [LoaderDriver(pdrf, scaling, dims)]. *)
Definition make (pdrf : Z) (scaling : Scaling) (dims : ExtraDims)
    : LoaderDriver :=
  init empty pdrf scaling dims.

Definition has_base (d : LoaderDriver) : bool :=
  match m_loaders d with
  | l :: _ => is_base l
  | [] => false
  end.

Fixpoint run {S} (step : PointLoader -> M S unit) (ls : list PointLoader)
    : M S unit :=
  match ls with
  | [] => ret tt
  | l :: rest => step l ;;; run step rest
  end.

(** Modelled from the spec: [LoaderDriver::load] and
    [LoaderDriver::pack] are defined in Utils.cpp. "load/pack run the
    chain in order against the same raw buffer and point handle; fails
    closed - returns false rather than signaling a hard error - if no
    base loader is configured for the requested PDRF." *)
Definition load (d : LoaderDriver) (buf : buffer) (bufsize : Z)
    : M PointRef bool :=
  if has_base d
  then run (fun l => loader_load l buf bufsize) (m_loaders d) ;;; ret true
  else ret false.

Definition pack (d : LoaderDriver) (point : PointRef) (bufsize : Z)
    : M buffer bool :=
  if has_base d
  then run (fun l => loader_pack l point bufsize) (m_loaders d) ;;; ret true
  else ret false.

End Driver.

Arguments load {PointRef} loader_load d buf bufsize _.
Arguments pack {PointRef} loader_pack d point bufsize _.

End Loader.

(* ================================================================= *)
(** ** class VlrCatalog *)

Module VlrCatalog.

(** [uint64_t] and [int32_t] values of an integer expression. *)
Definition to_uint64 (z : Z) : Z := z mod 2 ^ 64.
Definition to_int32 (z : Z) : Z := (z + 2 ^ 31) mod 2 ^ 32 - 2 ^ 31.

(** [using ReadFunc =
      std::function<std::vector<char>(uint64_t offset, int32_t size)>]. *)
Definition ReadFunc : Type := Z -> Z -> result (list Byte.byte).

(** A call [f(offset, size)] with integer arguments: each is converted
    to the parameter's type. *)
Definition call (f : ReadFunc) (offset size : Z) : result (list Byte.byte) :=
  f (to_uint64 offset) (to_int32 size).

Record Entry : Type := mkEntry
  { userId : string;
    recordId : Z;        (* uint16_t *)
    offset : Z;          (* uint64_t *)
    length : Z }.        (* uint64_t *)

(** The data members; [m_mutex] has no content of its own in a
    sequential run. *)
Record t : Type := mk
  { m_fetch : ReadFunc;
    m_entries : list Entry }.    (* std::deque<Entry> *)

(** [VlrCatalog(ReadFunc f)]. *)
Definition create (f : ReadFunc) : t := {| m_fetch := f; m_entries := [] |}.

(** Little-endian unsigned value of a byte string. *)
Fixpoint le_uint (bs : list Byte.byte) : Z :=
  match bs with
  | [] => 0
  | b :: rest => Z.of_N (Byte.to_N b) + 256 * le_uint rest
  end.

Definition field (bs : list Byte.byte) (at_ width : nat) : list Byte.byte :=
  firstn width (skipn at_ bs).

(** Modelled from the spec: the header sizes, from "[2B reserved][16B user
    id][2B record id][2B length][32B description]", the length widened to
    8 bytes in an EVLR. *)
Definition VlrHeaderSize : Z := 54.
Definition EvlrHeaderSize : Z := 60.

Definition matches (uid : string) (rid : Z) (e : Entry) : bool :=
  ((userId e =? uid)%string && (recordId e =? rid))%bool.

Section Walk.

(** How the 16-byte user id field becomes a [std::string] is decided
    by the VLR header reader, outside this header. *)
Variable user_id_of : list Byte.byte -> string.

(** Modelled from the spec: [insert], [walkVlrs], [walkEvlrs] and [load]
    are declared in the header and defined in Utils.cpp. "Each discovered
    header becomes one catalog Entry; insertion order is preserved (a
    double-ended sequence, not a keyed index)": [insert] appends at the
    back. *)
Definition insert (e : Entry) : M t unit :=
  c <- get_state ;;
  put_state {| m_fetch := m_fetch c; m_entries := m_entries c ++ [e] |}.

(** Modelled from the spec: the step shared by the two walks. One header
    of width [hdr] whose length field is [lenw] bytes wide is read through
    the callback; the entry records where the payload is ("followed
    immediately by length bytes of payload - catalog records the payload's
    offset/length but does not fetch the payload eagerly"); the result is
    the offset of the next header. *)
Definition walk_one (hdr : Z) (lenw : nat) (at_ : Z) : M t Z :=
  c <- get_state ;;
  buf <- lift (call (m_fetch c) at_ hdr) ;;
  let len := le_uint (field buf 20 lenw) in
  let e := {| userId := user_id_of (field buf 2 16);
              recordId := le_uint (field buf 18 2);
              offset := to_uint64 (at_ + hdr);
              length := len |} in
  insert e ;;;
  ret (to_uint64 (at_ + hdr + len)).

(** Modelled from the spec: [count] headers in a row. *)
Fixpoint walk (hdr : Z) (lenw : nat) (count : nat) (at_ : Z) : M t unit :=
  match count with
  | O => ret tt
  | S n => next <- walk_one hdr lenw at_ ;; walk hdr lenw n next
  end.

(** Modelled from the spec: "walks vlrCount standard VLR headers starting
    at vlrOffset (each header fixed-size: 2 reserved bytes, 16-byte user
    id, 2-byte record id, 2-byte payload length, 32-byte description ...)". *)
Definition walkVlrs (vlrOffset vlrCount : Z) : M t unit :=
  walk VlrHeaderSize 2 (Z.to_nat vlrCount) vlrOffset.

(** Modelled from the spec: "then walks evlrCount extended-VLR headers at
    evlrOffset (wider 8-byte length field ..., otherwise structurally
    identical)". *)
Definition walkEvlrs (vlrOffset vlrCount : Z) : M t unit :=
  walk EvlrHeaderSize 8 (Z.to_nat vlrCount) vlrOffset.

(** [m_entries.clear()]. *)
Definition clear : M t unit :=
  c <- get_state ;;
  put_state {| m_fetch := m_fetch c; m_entries := [] |}.

(** Modelled from the spec: "[load] may be invoked again to rebuild
    (replaces prior entries wholesale; not additive ...)": the entries are
    dropped, then the VLR headers walked, then the EVLR headers. *)
Definition load (vlrOffset vlrCount evlrOffset evlrCount : Z) : M t unit :=
  clear ;;;
  walkVlrs vlrOffset vlrCount ;;;
  walkEvlrs evlrOffset evlrCount.

End Walk.

(** Modelled from the spec: the "linear search for the first ... entry
    matching both fields exactly" of [fetch], front to back. *)
Fixpoint lookup (uid : string) (rid : Z) (es : list Entry) : option Entry :=
  match es with
  | [] => Datatypes.None
  | e :: rest => if matches uid rid e then Some e else lookup uid rid rest
  end.

(** Modelled from the spec: [fetch] is declared in the header and defined
    in Utils.cpp. "Linear search for the first ... entry matching both
    fields exactly ..., then invokes the caller's range-read function with
    that entry's stored offset/length and returns the result; returns an
    empty byte sequence when no entry matches". *)
Definition fetch (c : t) (uid : string) (rid : Z) : result (list Byte.byte) :=
  match lookup uid rid (m_entries c) with
  | Some e => call (m_fetch c) (offset e) (length e)
  | Datatypes.None => Ok []
  end.

(** [e] is the first entry of [es], in insertion order, that matches. *)
Definition first_match (uid : string) (rid : Z) (es : list Entry) (e : Entry)
    : Prop :=
  exists before after,
    es = (before ++ e :: after)%list
    /\ userId e = uid /\ recordId e = rid
    /\ forall e', In e' before -> ~ (userId e' = uid /\ recordId e' = rid).

Definition no_match (uid : string) (rid : Z) (es : list Entry) : Prop :=
  forall e, In e es -> ~ (userId e = uid /\ recordId e = rid).

End VlrCatalog.

(* ================================================================= *)
(** ** Sample data: a PDRF table and a small file *)

Module Sample.

(** A fixed-width text field: the characters, NUL-padded to [width]. *)
Definition padded (width : nat) (s : string) : list Byte.byte :=
  firstn width (list_byte_of_string s ++ repeat Byte.x00 width).

(** The characters of a field up to its first NUL. *)
Fixpoint c_string (bs : list Byte.byte) : string :=
  match bs with
  | [] => EmptyString
  | b :: rest =>
      if Byte.eqb b Byte.x00 then EmptyString
      else String (ascii_of_byte b) (c_string rest)
  end.

(** One VLR with a 3-byte payload at offset 54, then one EVLR with a
    2-byte payload at offset 117. *)
Definition file : list Byte.byte :=
  ([Byte.x00; Byte.x00] ++ padded 16 "LASF_Spec"
     ++ [Byte.x04; Byte.x00] ++ [Byte.x03; Byte.x00] ++ padded 32 "extra bytes"
     ++ list_byte_of_string "abc")
  ++ ([Byte.x00; Byte.x00] ++ padded 16 "copc"
        ++ [Byte.xe8; Byte.x03]
        ++ [Byte.x02; Byte.x00; Byte.x00; Byte.x00;
            Byte.x00; Byte.x00; Byte.x00; Byte.x00]
        ++ padded 32 "hierarchy"
        ++ list_byte_of_string "hi").

(** Reading a range of [file]; a range that starts outside it throws. *)
Definition read_range : VlrCatalog.ReadFunc :=
  fun off size =>
    if (off <? Z.of_nat (List.length file)) && (0 <=? size)
    then Ok (firstn (Z.to_nat size) (skipn (Z.to_nat off) file))
    else Throw "read past the end".

Definition loaded : VlrCatalog.t :=
  fst (VlrCatalog.load c_string 0 1 57 1 (VlrCatalog.create read_range)).

Definition reloaded : VlrCatalog.t :=
  fst (VlrCatalog.load c_string 0 0 57 1 loaded).

End Sample.

(** A table with the one row the spec spells out, PDRF 3: the 1.0 base
    record with GPS time and colour, no near-infrared; the two offsets
    follow the 20-byte base record. *)
Definition pdrf3_only (pdrf : Z) : option Loader.PdrfLayout :=
  if pdrf =? 3
  then Some (Loader.mkPdrfLayout Loader.V10 (Some 20) (Some 28) Datatypes.None)
  else Datatypes.None.

Definition unit_xform : XForm := mkXForm 1 0.
Definition unit_scaling : Scaling := mkScaling unit_xform unit_xform unit_xform.

(* ================================================================= *)
(** ** Several Compression values on one stream *)

Module CompressionIO.

(** A run of white space, as [>>] skips it before a word. *)
Fixpoint all_space (s : string) : bool :=
  match s with
  | EmptyString => true
  | String c r => (Stream.isspace c && all_space r)%bool
  end.

(** [for (c : cs) out << ' ' << c;] *)
Fixpoint write_all (out : Stream.ostream) (cs : list Compression.t)
    : Stream.ostream :=
  match cs with
  | [] => out
  | c :: rest =>
      write_all (Compression.write (Stream.insert_string out " ") c) rest
  end.

(** [n] extractions [in >> c] in a row, the values in the order read. *)
Fixpoint read_all (n : nat) (i : Stream.istream)
    : list Compression.t * Stream.istream :=
  match n with
  | O => ([], i)
  | S n' =>
      let (c, i') := Compression.read i in
      let (cs, i'') := read_all n' i' in
      (c :: cs, i'')
  end.

End CompressionIO.

(* ================================================================= *)
(** ** JSON values, as far as the TileDB writer reads them *)

(** [NL::json] (nlohmann/json.hpp): the value type and the few operations
    the writer calls on it. The three number kinds of the library are one
    [Int] (integers) and one [Real]. *)
Module Json.

#[local] Set Warnings "-register-all".

Inductive t : Type :=
| Null
| Bool (b : bool)
| Int (z : Z)
| Real (f : float)
| Str (s : string)
| Array (items : list t)
| Object (members : list (string * t)).

Fixpoint find (key : string) (members : list (string * t)) : option t :=
  match members with
  | [] => Datatypes.None
  | (k, v) :: rest => if (k =? key)%string then Some v else find key rest
  end.

(** [j.empty()]: null is empty, arrays and objects are when they have no
    element, any other value is not. *)
Definition empty (j : t) : bool :=
  match j with
  | Null | Array [] | Object [] => true
  | _ => false
  end.

Definition is_array (j : t) : bool :=
  match j with Array _ => true | _ => false end.

(** [j.count(key)]: 0 for anything that is not an object. *)
Definition count (j : t) (key : string) : Z :=
  match j with
  | Object members =>
      match find key members with Some _ => 1 | Datatypes.None => 0 end
  | _ => 0
  end.

(** [j[key]] read on a value that is not const: the member, or null when
    the object has none. *)
Definition member (j : t) (key : string) : t :=
  match j with
  | Object members =>
      match find key members with Some v => v | Datatypes.None => Null end
  | _ => Null
  end.

(** [j[key] = v] on a null or an object. *)
Fixpoint set_member (members : list (string * t)) (key : string) (v : t)
    : list (string * t) :=
  match members with
  | [] => [(key, v)]
  | (k, old) :: rest =>
      if (k =? key)%string then (k, v) :: rest
      else (k, old) :: set_member rest key v
  end.

End Json.

(* ================================================================= *)
(** ** plugins/tiledb/io/TileDBWriter.cpp: filters, schema and point cache *)

Module TileDB.

(** The exceptions that leave the writer's functions. *)
Inductive exn : Type :=
| PdalError (what : string)       (* pdal_error *)
| TileDBError (what : string)     (* tiledb::TileDBError *)
| JsonError (what : string).      (* nlohmann type_error *)

(** What a call of the set-up code does: it returns, it throws, or it
    reads a member that a const object does not have, which the JSON
    library leaves undefined. *)
Inductive res (A : Type) : Type :=
| Ret (a : A)
| Throw (e : exn)
| Undefined.
Arguments Ret {A} a.
Arguments Throw {A} e.
Arguments Undefined {A}.

Definition res_bind {A B} (r : res A) (k : A -> res B) : res B :=
  match r with
  | Ret a => k a
  | Throw e => Throw e
  | Undefined => Undefined
  end.

(** [tiledb_filter_type_t], the values the writer creates. *)
Inductive FilterType : Type :=
| FILTER_NONE | FILTER_GZIP | FILTER_ZSTD | FILTER_LZ4 | FILTER_RLE
| FILTER_BZIP2 | FILTER_DOUBLE_DELTA | FILTER_BIT_WIDTH_REDUCTION
| FILTER_BITSHUFFLE | FILTER_BYTESHUFFLE | FILTER_POSITIVE_DELTA.

Inductive FilterOption : Type :=
| COMPRESSION_LEVEL | BIT_WIDTH_MAX_WINDOW | POSITIVE_DELTA_MAX_WINDOW.

Record Filter : Type := mkFilter
  { f_type : FilterType;
    f_options : list (FilterOption * Z) }.

(** The element type [tiledb::Attribute::create<T>] is called with. *)
Inductive CType : Type :=
| c_double | c_float | c_char | c_short | c_int | c_long
| c_uchar | c_ushort | c_uint | c_ulong.

Record Attribute : Type := mkAttribute
  { att_name : string;
    att_type : CType;
    att_filters : option (list Filter) }.

(** [tiledb::Dimension::create<double>(ctx, name, {{lo, hi}}[, extent])]. *)
Record Dim : Type := mkDim
  { dim_name : string;
    dim_lo : float;
    dim_hi : float;
    dim_extent : option Z }.

Record Schema : Type := mkSchema
  { s_allows_dups : bool;
    s_coords_filters : list Filter;
    s_domain : list Dim;
    s_capacity : Z;
    s_hilbert : bool;             (* cell order set to TILEDB_HILBERT *)
    s_attributes : list Attribute }.

(** What a call does: it returns, it throws ([pdal_error] through
    [throwError], or from [writeAttributeValue] and [flushCache]), or it
    copies outside a buffer. *)
Inductive outcome (A : Type) : Type :=
| Done (a : A)
| Raise (what : string)
| OutOfBounds.
Arguments Done {A} a.
Arguments Raise {A} what.
Arguments OutOfBounds {A}.

(** [size_t] value of an integer expression. *)
Definition to_size_t (z : Z) : Z := z mod 2 ^ 64.

(** [TileDBWriter::DimBuffer], as the writer uses it: built from a name, an
    id and a type, with a byte vector, empty until it is resized. *)
Record DimBuffer : Type := mkDimBuffer
  { m_name : string;
    m_id : Dimension.Id;
    m_type : Dimension.Type_;
    m_buffer : list Byte.byte }.   (* std::vector<uint8_t> *)

Definition DimBuffer_ctor (name : string) (id : Dimension.Id)
    (type : Dimension.Type_) : DimBuffer :=
  mkDimBuffer name id type [].

(** [memcpy(dst.data() + off, src, n)] on byte vectors: the [n] bytes at
    [off] are replaced by the first [n] bytes of [src]; [None] when the
    copy would leave either vector. *)
Definition memcpy (dst : list Byte.byte) (off : Z) (src : list Byte.byte)
    (n : Z) : option (list Byte.byte) :=
  if ((0 <=? off) && (0 <=? n) && (off + n <=? Z.of_nat (List.length dst))
      && (n <=? Z.of_nat (List.length src)))%bool
  then Some (firstn (Z.to_nat off) dst
               ++ firstn (Z.to_nat n) src
               ++ skipn (Z.to_nat (off + n)) dst)%list
  else Datatypes.None.

(** [tiledb::Query::Status]. *)
Inductive Status : Type :=
| FAILED | COMPLETE | INPROGRESS | INCOMPLETE | UNINITIALIZED.

Definition is_failed (s : Status) : bool :=
  match s with FAILED => true | _ => false end.

(** One [query.set_buffer(name, reinterpret_cast<T*>(buf), size)]. *)
Record Buffer : Type := mkBuffer
  { b_name : string;
    b_type : Dimension.Type_;
    b_data : list Byte.byte;
    b_nelements : Z }.

(** What a query holds when it is submitted (TileDB 2 and later: one
    buffer per coordinate). *)
Record Query : Type := mkQuery
  { q_xs : list float;
    q_ys : list float;
    q_zs : list float;
    q_tms : option (list float);     (* "GpsTime", when time is a dimension *)
    q_attrs : list Buffer }.

(** What the writer does to the array and to standard output. *)
Inductive Event : Type :=
| StatsEnable
| ArrayCreate (name : string) (s : Schema)
| ArrayOpen (name : string) (timestamp : option Z)
| Submit (q : Query)
| StatsDump
| PutMetadata
| Close.

(** [struct TileDBWriter::Args]; the [float] members hold binary32
    numbers. *)
Record Args : Type := mkArgs
  { m_arrayName : string;
    m_cfgFileName : string;
    m_tile_capacity : Z;      (* size_t *)
    m_x_tile_size : Z;
    m_y_tile_size : Z;
    m_z_tile_size : Z;
    m_time_tile_size : Z;
    m_x_domain_st : float;
    m_x_domain_end : float;
    m_y_domain_st : float;
    m_y_domain_end : float;
    m_z_domain_st : float;
    m_z_domain_end : float;
    m_time_domain_st : float;
    m_time_domain_end : float;
    m_cache_size : Z;         (* size_t, option chunk_size *)
    m_stats : bool;
    m_compressor : string;
    m_compressionLevel : Z;   (* int *)
    m_filters : Json.t;
    m_defaults : Json.t;
    m_append : bool;
    m_timeStamp : Z }.

Fixpoint submissions (evs : list Event) : nat :=
  match evs with
  | [] => O
  | Submit _ :: rest => S (submissions rest)
  | _ :: rest => submissions rest
  end.

(** The members of the writer that the cache works on, and the events so
    far. *)
Record t : Type := mk
  { m_current_idx : Z;      (* size_t *)
    m_use_time : bool;
    m_attrs : list DimBuffer;
    m_xs : list float;
    m_ys : list float;
    m_zs : list float;
    m_tms : list float;
    events : list Event }.

Section Cache.

(** The point a [PointRef] stands for, and [point.getFieldAs<double>] of
    X, Y, Z and GpsTime. *)
Variable Point : Type.
Variables getX getY getZ getGpsTime : Point -> float.

(** The bytes of the union [Everything e] once the member for the type
    has been assigned [point.getFieldAs<T>(id)]. *)
Variable everything : Dimension.Type_ -> Dimension.Id -> Point -> list Byte.byte.

(** [query.submit()]: the status TileDB answers with, for the submission
    with the given number. *)
Variable submit : nat -> Query -> Status.

Variable args : Args.

(** [writeAttributeValue(dim, point, idx)]. *)
Definition writeAttributeValue (dim : DimBuffer) (point : Point) (idx : Z)
    : outcome DimBuffer :=
  match m_type dim with
  | Dimension.None =>
      Raise ("Unsupported attribute type for " ++ m_name dim)
  | type =>
      let e := everything type (m_id dim) point in
      let size := Dimension.size type in
      match memcpy (m_buffer dim) (to_size_t (idx * size)) e size with
      | Some buf => Done (mkDimBuffer (m_name dim) (m_id dim) (m_type dim) buf)
      | Datatypes.None => OutOfBounds
      end
  end.

(** [for (auto& a : m_attrs) writeAttributeValue(a, point, m_current_idx);]
    the buffers written before a throw stay written. *)
Fixpoint write_attrs (attrs : list DimBuffer) (point : Point) (idx : Z)
    : list DimBuffer * outcome unit :=
  match attrs with
  | [] => ([], Done tt)
  | a :: rest =>
      match writeAttributeValue a point idx with
      | Done a' =>
          let (rest', r) := write_attrs rest point idx in (a' :: rest', r)
      | Raise what => (a :: rest, Raise what)
      | OutOfBounds => (a :: rest, OutOfBounds)
      end
  end.

(** The loop of [flushCache] over [m_attrs] that hands each buffer to the
    query. *)
Fixpoint set_buffers (attrs : list DimBuffer) (size : Z)
    : outcome (list Buffer) :=
  match attrs with
  | [] => Done []
  | a :: rest =>
      match m_type a with
      | Dimension.None =>
          Raise ("Unsupported attribute type for " ++ m_name a)
      | type =>
          match set_buffers rest size with
          | Done bs => Done (mkBuffer (m_name a) type (m_buffer a) size :: bs)
          | Raise what => Raise what
          | OutOfBounds => OutOfBounds
          end
      end
  end.

(** [TileDBWriter::flushCache(size)]. *)
Definition flushCache (size : Z) (w : t) : t * outcome bool :=
  match set_buffers (m_attrs w) size with
  | Done bufs =>
      let q := {| q_xs := m_xs w; q_ys := m_ys w; q_zs := m_zs w;
                  q_tms := if m_use_time w then Some (m_tms w)
                           else Datatypes.None;
                  q_attrs := bufs |} in
      let status := submit (submissions (events w)) q in
      ({| m_current_idx := 0;
          m_use_time := m_use_time w;
          m_attrs := m_attrs w;
          m_xs := []; m_ys := []; m_zs := []; m_tms := [];
          events := events w ++ Submit q
                      :: (if m_stats args then [StatsDump] else []) |},
       Done (negb (is_failed status)))
  | Raise what => (w, Raise what)
  | OutOfBounds => (w, OutOfBounds)
  end.

Definition flush_failed : string := "Unable to flush points to TileDB array".

(** [TileDBWriter::processOne(point)]. *)
Definition processOne (point : Point) (w : t) : t * outcome bool :=
  let x := getX point in
  let y := getY point in
  let z := getZ point in
  let tm := if m_use_time w then getGpsTime point else 0%float in
  let (attrs, r) := write_attrs (m_attrs w) point (m_current_idx w) in
  match r with
  | Done _ =>
      let idx := to_size_t (m_current_idx w + 1) in
      let w1 := {| m_current_idx := idx;
                   m_use_time := m_use_time w;
                   m_attrs := attrs;
                   m_xs := m_xs w ++ [x];
                   m_ys := m_ys w ++ [y];
                   m_zs := m_zs w ++ [z];
                   m_tms := if m_use_time w then m_tms w ++ [tm] else m_tms w;
                   events := events w |} in
      if idx =? m_cache_size args
      then
        match flushCache idx w1 with
        | (w2, Done true) => (w2, Done true)
        | (w2, Done false) => (w2, Raise flush_failed)
        | (w2, Raise what) => (w2, Raise what)
        | (w2, OutOfBounds) => (w2, OutOfBounds)
        end
      else (w1, Done true)
  | Raise what =>
      ({| m_current_idx := m_current_idx w; m_use_time := m_use_time w;
          m_attrs := attrs;
          m_xs := m_xs w; m_ys := m_ys w; m_zs := m_zs w; m_tms := m_tms w;
          events := events w |}, Raise what)
  | OutOfBounds =>
      ({| m_current_idx := m_current_idx w; m_use_time := m_use_time w;
          m_attrs := attrs;
          m_xs := m_xs w; m_ys := m_ys w; m_zs := m_zs w; m_tms := m_tms w;
          events := events w |}, OutOfBounds)
  end.

(** [TileDBWriter::write(view)]: the points of the view in order. *)
Fixpoint write (view : list Point) (w : t) : t * outcome unit :=
  match view with
  | [] => (w, Done tt)
  | point :: rest =>
      match processOne point w with
      | (w', Done _) => write rest w'
      | (w', Raise what) => (w', Raise what)
      | (w', OutOfBounds) => (w', OutOfBounds)
      end
  end.

Definition add_events (w : t) (evs : list Event) : t :=
  {| m_current_idx := m_current_idx w; m_use_time := m_use_time w;
     m_attrs := m_attrs w;
     m_xs := m_xs w; m_ys := m_ys w; m_zs := m_zs w; m_tms := m_tms w;
     events := events w ++ evs |}.

(** [TileDBWriter::done(table)], TileDB 1.7 and later: after a good flush
    the metadata are put into the array unless it is appended to, and the
    array is closed. *)
Definition done (w : t) : t * outcome unit :=
  match flushCache (m_current_idx w) w with
  | (w', Done true) =>
      (add_events w' ((if m_append args then [] else [PutMetadata]) ++ [Close]),
       Done tt)
  | (w', Done false) => (w', Raise flush_failed)
  | (w', Raise what) => (w', Raise what)
  | (w', OutOfBounds) => (w', OutOfBounds)
  end.

(** The bytes [writeAttributeValue] stores for a point. *)
Definition value (type : Dimension.Type_) (id : Dimension.Id) (point : Point)
    : list Byte.byte :=
  firstn (Z.to_nat (Dimension.size type)) (everything type id point).

(** Every buffer has room for [m_cache_size] values of its type. *)
Definition sized (a : DimBuffer) : Prop :=
  Z.of_nat (List.length (m_buffer a)) = m_cache_size args * Dimension.size (m_type a).

(** The state between two calls: the index is below the cache size and
    counts the cached coordinates. *)
Definition cache_ok (w : t) : Prop :=
  0 <= m_current_idx w < m_cache_size args
  /\ Z.of_nat (List.length (m_xs w)) = m_current_idx w
  /\ Z.of_nat (List.length (m_ys w)) = m_current_idx w
  /\ Z.of_nat (List.length (m_zs w)) = m_current_idx w
  /\ Z.of_nat (List.length (m_tms w)) = (if m_use_time w then m_current_idx w else 0)
  /\ Forall sized (m_attrs w).

(** The query holds the points of [chunk], coordinates and attribute
    values side by side, one element per point. *)
Definition holds (use_time : bool) (attrs : list DimBuffer)
    (chunk : list Point) (q : Query) : Prop :=
  q_xs q = map getX chunk
  /\ q_ys q = map getY chunk
  /\ q_zs q = map getZ chunk
  /\ q_tms q = (if use_time then Some (map getGpsTime chunk) else Datatypes.None)
  /\ Forall2
       (fun a b =>
          b_name b = m_name a /\ b_type b = m_type a
          /\ b_nelements b = Z.of_nat (List.length chunk)
          /\ firstn (List.length chunk * Z.to_nat (Dimension.size (m_type a)))
               (b_data b)
             = List.concat (map (value (m_type a) (m_id a)) chunk))
       attrs (q_attrs q).

(** The queries submitted, in order. *)
Fixpoint submitted (evs : list Event) : list Query :=
  match evs with
  | [] => []
  | Submit q :: rest => q :: submitted rest
  | _ :: rest => submitted rest
  end.

Definition typed (a : DimBuffer) : Prop := m_type a <> Dimension.None.

Definition same_dim (a0 a : DimBuffer) : Prop :=
  m_name a = m_name a0 /\ m_id a = m_id a0 /\ m_type a = m_type a0.

(** What one store makes of the buffer [a0]: the same dimension, with
    the bytes of the point's value in the place of the value at index
    [idx] and every other byte as it was. *)
Definition stored (point : Point) (idx : Z) (a0 a : DimBuffer) : Prop :=
  same_dim a0 a
  /\ m_buffer a
     = (firstn (Z.to_nat (idx * Dimension.size (m_type a0))) (m_buffer a0)
        ++ value (m_type a0) (m_id a0) point
        ++ skipn (Z.to_nat ((idx + 1) * Dimension.size (m_type a0)))
             (m_buffer a0))%list.

(** The front of the buffer holds the values of the points of [cur], one
    after the other. *)
Definition filled (cur : list Point) (a : DimBuffer) : Prop :=
  firstn (List.length cur * Z.to_nat (Dimension.size (m_type a))) (m_buffer a)
  = List.concat (map (value (m_type a) (m_id a)) cur).

(** Where the writer [w] stands after points have gone through it from
    the state [w0]: the full chunks it has submitted, one query each, and
    the points [cur] it still caches. *)
Definition cached (w0 w : t) (chunks : list (list Point)) (cur : list Point)
    : Prop :=
  m_current_idx w = Z.of_nat (List.length cur)
  /\ Z.of_nat (List.length cur) < m_cache_size args
  /\ m_use_time w = m_use_time w0
  /\ m_xs w = map getX cur
  /\ m_ys w = map getY cur
  /\ m_zs w = map getZ cur
  /\ m_tms w = (if m_use_time w0 then map getGpsTime cur else [])
  /\ Forall2 same_dim (m_attrs w0) (m_attrs w)
  /\ Forall sized (m_attrs w)
  /\ Forall (filled cur) (m_attrs w)
  /\ Forall (fun c => Z.of_nat (List.length c) = m_cache_size args) chunks
  /\ exists qs,
       submitted (events w) = (submitted (events w0) ++ qs)%list
       /\ Forall2 (holds (m_use_time w0) (m_attrs w0)) chunks qs.

(** A writer that caches nothing, as [ready] leaves it. *)
Definition empty_cache (w : t) : Prop :=
  m_current_idx w = 0
  /\ m_xs w = [] /\ m_ys w = [] /\ m_zs w = [] /\ m_tms w = []
  /\ Forall sized (m_attrs w) /\ Forall typed (m_attrs w).

End Cache.

End TileDB.

(* ================================================================= *)
(** ** Sample data: three points through a cache of two *)

Module TileDBSample.

Record point : Type := mkPoint
  { px : float; py : float; pz : float; ptime : float;
    intensity : Byte.byte;
    classification : Byte.byte }.

(** The union after the store of the attribute: the value's bytes, low
    byte first, then bytes that do not matter. *)
Definition everything (type : Dimension.Type_) (id : Dimension.Id) (p : point)
    : list Byte.byte :=
  firstn 8
    (match id with
     | Dimension.Known 1 => [intensity p; Byte.x00]
     | _ => [classification p]
     end ++ repeat Byte.xff 8).

Definition submit (n : nat) (q : TileDB.Query) : TileDB.Status := TileDB.COMPLETE.

Definition submit_failing (n : nat) (q : TileDB.Query) : TileDB.Status :=
  TileDB.FAILED.

(** The options at their defaults, but for the cache size. *)
Definition args_with (cache_size : Z) : TileDB.Args :=
  {| TileDB.m_arrayName := "sample";
     TileDB.m_cfgFileName := EmptyString;
     TileDB.m_tile_capacity := 100000;
     TileDB.m_x_tile_size := 0;
     TileDB.m_y_tile_size := 0;
     TileDB.m_z_tile_size := 0;
     TileDB.m_time_tile_size := 0;
     TileDB.m_x_domain_st := 0; TileDB.m_x_domain_end := 0;
     TileDB.m_y_domain_st := 0; TileDB.m_y_domain_end := 0;
     TileDB.m_z_domain_st := 0; TileDB.m_z_domain_end := 0;
     TileDB.m_time_domain_st := 0; TileDB.m_time_domain_end := 0;
     TileDB.m_cache_size := cache_size;
     TileDB.m_stats := false;
     TileDB.m_compressor := EmptyString;
     TileDB.m_compressionLevel := -1;
     TileDB.m_filters := Json.Object [];
     TileDB.m_defaults := Json.Object [];
     TileDB.m_append := false;
     TileDB.m_timeStamp := 0 |}.

Definition args : TileDB.Args := args_with 2.

Definition args_zero : TileDB.Args := args_with 0.

Definition attrs : list TileDB.DimBuffer :=
  [ TileDB.mkDimBuffer "Intensity" (Dimension.Known 1) Dimension.Unsigned16
      (repeat Byte.x00 4);
    TileDB.mkDimBuffer "Classification" (Dimension.Known 2) Dimension.Unsigned8
      (repeat Byte.x00 2) ].

Definition w0 : TileDB.t :=
  {| TileDB.m_current_idx := 0;
     TileDB.m_use_time := true;
     TileDB.m_attrs := attrs;
     TileDB.m_xs := []; TileDB.m_ys := []; TileDB.m_zs := []; TileDB.m_tms := [];
     TileDB.events := [] |}.

Definition w_zero : TileDB.t :=
  {| TileDB.m_current_idx := 0;
     TileDB.m_use_time := false;
     TileDB.m_attrs :=
       [ TileDB.mkDimBuffer "Classification" (Dimension.Known 2)
           Dimension.Unsigned8 [] ];
     TileDB.m_xs := []; TileDB.m_ys := []; TileDB.m_zs := []; TileDB.m_tms := [];
     TileDB.events := [] |}.

Definition p1 : point := mkPoint 1 2 3 10 Byte.x11 Byte.x02.
Definition p2 : point := mkPoint 4 5 6 11 Byte.x22 Byte.x05.
Definition p3 : point := mkPoint 7 8 9 12 Byte.x33 Byte.x06.

Definition view : list point := [p1; p2; p3].

(** The writer with [p1] cached. *)
Definition w1 : TileDB.t :=
  fst (TileDB.processOne point px py pz ptime everything submit args p1 w0).

Definition write_sample (s : nat -> TileDB.Query -> TileDB.Status)
    (v : list point) (w : TileDB.t) : TileDB.t * TileDB.outcome unit :=
  TileDB.write point px py pz ptime everything s args v w.

End TileDBSample.

(* ================================================================= *)
(** ** plugins/tiledb/io/TileDBWriter.cpp: attributes, filters, set-up *)

Module TileDBSetup.

Import TileDB.

Notation "x <-- r ;; k" := (res_bind r (fun x => k))
  (at level 61, r at next level, right associativity).

(** [opts[key]] on a const value: the member when there is one; undefined
    when the object has none; a type error on anything but an object. *)
Definition const_at (j : Json.t) (key : string) : res Json.t :=
  match j with
  | Json.Object members =>
      match Json.find key members with
      | Some v => Ret v
      | Datatypes.None => Undefined
      end
  | _ => Throw (JsonError "cannot use operator[] with a string argument")
  end.

(** The conversion of a JSON value to [std::string]. *)
Definition get_string (j : Json.t) : res string :=
  match j with
  | Json.Str s => Ret s
  | _ => Throw (JsonError "type must be string")
  end.

(** [createAttribute(ctx, name, t)]. *)
Definition createAttribute (name : string) (t : Dimension.Type_)
    : res Attribute :=
  let create c := Ret (mkAttribute name c Datatypes.None) in
  match t with
  | Dimension.Double => create c_double
  | Dimension.Float => create c_float
  | Dimension.Signed8 => create c_char
  | Dimension.Signed16 => create c_short
  | Dimension.Signed32 => create c_int
  | Dimension.Signed64 => create c_long
  | Dimension.Unsigned8 => create c_uchar
  | Dimension.Unsigned16 => create c_ushort
  | Dimension.Unsigned32 => create c_uint
  | Dimension.Unsigned64 => create c_ulong
  | Dimension.None =>
      Throw (PdalError ("Unsupported attribute type for " ++ name))
  end.

(** The chain of comparisons on the compression name. *)
Definition filter_type_of (name : string) : option FilterType :=
  if (name =? "")%string then Some FILTER_NONE
  else if (name =? "gzip")%string then Some FILTER_GZIP
  else if (name =? "zstd")%string then Some FILTER_ZSTD
  else if (name =? "lz4")%string then Some FILTER_LZ4
  else if (name =? "rle")%string then Some FILTER_RLE
  else if (name =? "bzip2")%string then Some FILTER_BZIP2
  else if (name =? "double-delta")%string then Some FILTER_DOUBLE_DELTA
  else if (name =? "bit-width-reduction")%string
       then Some FILTER_BIT_WIDTH_REDUCTION
  else if (name =? "bit-shuffle")%string then Some FILTER_BITSHUFFLE
  else if (name =? "byte-shuffle")%string then Some FILTER_BYTESHUFFLE
  else if (name =? "positive-delta")%string then Some FILTER_POSITIVE_DELTA
  else Datatypes.None.

(** The spellings the chain knows, and the one that gives each type. *)
Definition compression_names : list string :=
  [ ""; "gzip"; "zstd"; "lz4"; "rle"; "bzip2"; "double-delta";
    "bit-width-reduction"; "bit-shuffle"; "byte-shuffle"; "positive-delta" ].

Definition name_of_type (type : FilterType) : string :=
  match type with
  | FILTER_NONE => ""
  | FILTER_GZIP => "gzip"
  | FILTER_ZSTD => "zstd"
  | FILTER_LZ4 => "lz4"
  | FILTER_RLE => "rle"
  | FILTER_BZIP2 => "bzip2"
  | FILTER_DOUBLE_DELTA => "double-delta"
  | FILTER_BIT_WIDTH_REDUCTION => "bit-width-reduction"
  | FILTER_BITSHUFFLE => "bit-shuffle"
  | FILTER_BYTESHUFFLE => "byte-shuffle"
  | FILTER_POSITIVE_DELTA => "positive-delta"
  end.

Definition unparsed (name : string) : exn :=
  TileDBError ("Unable to parse compression type: " ++ name).

Section Filters.

(** [filter->set_option(option, value)] and [j.get<int>()] belong to
    TileDB and to the JSON library. *)
Variable set_option : Filter -> FilterOption -> Z -> res Filter.
Variable get_int : Json.t -> res Z.

(** [if (opts.count(key) > 0) filter->set_option(o, opts[key].get<int>());] *)
Definition with_option (opts : Json.t) (key : string) (o : FilterOption)
    (f : Filter) : res Filter :=
  if Json.count opts key >? 0
  then v <-- const_at opts key ;; n <-- get_int v ;; set_option f o n
  else Ret f.

(** [createFilter(ctx, opts)]. *)
Definition createFilter (opts : Json.t) : res Filter :=
  if negb (Json.empty opts)
  then
    v <-- const_at opts "compression" ;;
    name <-- get_string v ;;
    f <-- match filter_type_of name with
          | Some type => Ret (mkFilter type [])
          | Datatypes.None => Throw (unparsed name)
          end ;;
    f <-- with_option opts "compression_level" COMPRESSION_LEVEL f ;;
    f <-- with_option opts "bit_width_max_window" BIT_WIDTH_MAX_WINDOW f ;;
    with_option opts "positive_delta_max_window" POSITIVE_DELTA_MAX_WINDOW f
  else Ret (mkFilter FILTER_NONE []).

(** The loop of [createFilterList] over the elements of an array. *)
Fixpoint filters_of (items : list Json.t) : res (list Filter) :=
  match items with
  | [] => Ret []
  | v :: rest =>
      f <-- createFilter v ;;
      fs <-- filters_of rest ;;
      Ret (f :: fs)
  end.

(** [createFilterList(ctx, opts)]. *)
Definition createFilterList (opts : Json.t) : res (list Filter) :=
  match opts with
  | Json.Array items => filters_of items
  | _ => f <-- createFilter opts ;; Ret [f]
  end.

(** The options object built from the [compression] and
    [compression_level] arguments. *)
Definition compressor_opts (args : Args) : Json.t :=
  Json.Object
    (Json.set_member
       (Json.set_member [] "compression" (Json.Str (m_compressor args)))
       "compression_level" (Json.Int (m_compressionLevel args))).

(** A [catch (const tiledb::TileDBError& err)] that goes on with
    [throwError(std::string("TileDB Error: ") + err.what())]. *)
Definition rethrow {A} (r : res A) : res A :=
  match r with
  | Throw (TileDBError what) => Throw (PdalError ("TileDB Error: " ++ what))
  | _ => r
  end.

(** [tiledb::Context], from the configuration file when one is named. *)
Variable make_context : string -> res unit.

(** A [tiledb::ArraySchema(ctx, TILEDB_SPARSE)] as TileDB creates it. *)
Variable new_schema : Schema.

Definition set_coords (s : Schema) (fl : list Filter) : Schema :=
  {| s_allows_dups := true;
     s_coords_filters := fl;
     s_domain := s_domain s;
     s_capacity := s_capacity s;
     s_hilbert := s_hilbert s;
     s_attributes := s_attributes s |}.

(** [TileDBWriter::initialize()]: the schema [m_schema] points to
    afterwards, none when the array is appended to. *)
Definition initialize (args : Args) : res (option Schema) :=
  rethrow
    (_ <-- make_context (m_cfgFileName args) ;;
     if negb (m_append args)
     then
       let opts :=
         if Json.count (m_filters args) "coords" >? 0
         then Json.member (m_filters args) "coords"
         else if negb (m_compressor args =? "")%string
              then compressor_opts args
              else Json.member (m_defaults args) "coords" in
       fl <-- createFilterList opts ;;
       Ret (Some (set_coords new_schema fl))
     else Ret Datatypes.None).

(** [TileDBWriter::isValidDomain(args)]. The members are binary32; the
    difference of two binary32 numbers is positive in binary32 exactly
    when it is in binary64. *)
Definition isValidDomain (args : Args) : bool :=
  ((0 <? m_x_domain_end args - m_x_domain_st args)%float
   && (0 <? m_y_domain_end args - m_y_domain_st args)%float
   && (0 <? m_z_domain_end args - m_z_domain_st args)%float)%bool.

(** [std::numeric_limits<double>::lowest()] and [max()]. *)
Definition dimMax : float := 0x1.fffffffffffffp1023%float.
Definition dimMin : float := (- dimMax)%float.

(** The bounds of the four dimensions: X, Y, Z and GpsTime. *)
Record Bounds : Type := mkBounds
  { bx : float * float; by_ : float * float;
    bz : float * float; bt : float * float }.

Definition args_bounds (args : Args) : Bounds :=
  {| bx := (m_x_domain_st args, m_x_domain_end args);
     by_ := (m_y_domain_st args, m_y_domain_end args);
     bz := (m_z_domain_st args, m_z_domain_end args);
     bt := (m_time_domain_st args, m_time_domain_end args) |}.

(** From the node "filters.stats:bbox:native:bbox" of the metadata:
    [m.findChild(name).value<double>()], one less and one more. *)
Definition stats_bounds (m : string -> float) : Bounds :=
  {| bx := ((m "minx" - 1)%float, (m "maxx" + 1)%float);
     by_ := ((m "miny" - 1)%float, (m "maxy" + 1)%float);
     bz := ((m "minz" - 1)%float, (m "maxz" + 1)%float);
     bt := ((m "mintm" - 1)%float, (m "maxtm" + 1)%float) |}.

Definition limit_bounds : Bounds :=
  {| bx := (dimMin, dimMax); by_ := (dimMin, dimMax);
     bz := (dimMin, dimMax); bt := (dimMin, dimMax) |}.

(** The dimensions as each branch of [ready] adds them: GpsTime first
    when time is a dimension and comes first, then X, Y, Z, then GpsTime
    when it is a dimension and comes last; with the tile sizes as extents,
    or without extents. *)
Definition domain_dims (args : Args) (use_time time_first extents : bool)
    (b : Bounds) : list Dim :=
  let ext size := if extents then Some size else Datatypes.None in
  let tm := mkDim "GpsTime" (fst (bt b)) (snd (bt b))
              (ext (m_time_tile_size args)) in
  ((if (use_time && time_first)%bool then [tm] else [])
   ++ [ mkDim "X" (fst (bx b)) (snd (bx b)) (ext (m_x_tile_size args));
        mkDim "Y" (fst (by_ b)) (snd (by_ b)) (ext (m_y_tile_size args));
        mkDim "Z" (fst (bz b)) (snd (bz b)) (ext (m_z_tile_size args)) ]
   ++ (if (use_time && negb time_first)%bool then [tm] else []))%list.

Definition hilbert_needs_domain : string :=
  "Using TileDB Hilbert ordering, must specify a domain extent or execute a prior stats filter stage.".

(** The part of [ready] that builds the domain when the array is not
    appended to (TileDB 2.2 and later): the dimensions, and whether the
    cell order is set to Hilbert. [stats] is the metadata node when it is
    valid. *)
Definition ready_domain (args : Args) (use_time time_first : bool)
    (stats : option (string -> float)) : res (list Dim * bool) :=
  if ((m_x_tile_size args >? 0) && (m_y_tile_size args >? 0)
      && (m_z_tile_size args >? 0)
      && (negb use_time || (m_time_tile_size args >? 0)))%bool
  then
    if isValidDomain args
    then Ret (domain_dims args use_time time_first true (args_bounds args), false)
    else
      match stats with
      | Some m =>
          Ret (domain_dims args use_time time_first true (stats_bounds m), false)
      | Datatypes.None =>
          Ret (domain_dims args use_time time_first true limit_bounds, false)
      end
  else
    if isValidDomain args
    then Ret (domain_dims args use_time time_first false (args_bounds args), true)
    else
      match stats with
      | Some m =>
          Ret (domain_dims args use_time time_first false (stats_bounds m), true)
      | Datatypes.None => Throw (PdalError hilbert_needs_domain)
      end.

(** A dimension of the point layout: [d], [layout->dimName(d)] and
    [layout->dimType(d)]. *)
Definition LayoutDim : Type := (Dimension.Id * string * Dimension.Type_)%type.

(** The test of the loop of [ready]: the dimension becomes an attribute. *)
Definition is_attribute (use_time : bool) (dimName : string) : bool :=
  (negb (dimName =? "X")%string && negb (dimName =? "Y")%string
   && negb (dimName =? "Z")%string
   && ((use_time && negb (dimName =? "GpsTime")%string) || negb use_time))%bool.

(** The dimensions of the layout that pass the test, in layout order. *)
Definition selected (use_time : bool) (all : list LayoutDim) : list LayoutDim :=
  filter (fun d => is_attribute use_time (snd (fst d))) all.

Definition missing_attribute (dimName : string) : string :=
  "Attribute " ++ dimName ++ " does not exist in original array.".

(** [m_attrs.emplace_back(dimName, d, type)] and the [resize] of its
    buffer, which fills it with zeros. *)
Definition new_buffer (args : Args) (d : LayoutDim) : DimBuffer :=
  let '(id, dimName, type) := d in
  mkDimBuffer dimName id type
    (repeat Byte.x00
       (Z.to_nat (to_size_t (m_cache_size args * Dimension.size type)))).

(** The options for the filters of one attribute. *)
Definition attribute_opts (args : Args) (dimName : string) : Json.t :=
  if Json.count (m_filters args) dimName >? 0
  then Json.member (m_filters args) dimName
  else if negb (m_compressor args =? "")%string
       then compressor_opts args
       else if Json.count (m_defaults args) dimName >? 0
            then Json.member (m_defaults args) dimName
            else Json.Null.

(** The loop of [ready] over the dimensions of the layout. [existing]
    are the attribute names of the array that is appended to. *)
Fixpoint ready_dims (args : Args) (use_time : bool) (existing : list string)
    (all : list LayoutDim) (attrs : list DimBuffer) (atts : list Attribute)
    : res (list DimBuffer * list Attribute) :=
  match all with
  | [] => Ret (attrs, atts)
  | d :: rest =>
      let '(id, dimName, type) := d in
      if is_attribute use_time dimName
      then
        atts' <--
          (if negb (m_append args)
           then
             att <-- createAttribute dimName type ;;
             let opts := attribute_opts args dimName in
             att <-- (if negb (Json.empty opts)
                      then fl <-- createFilterList opts ;;
                           Ret (mkAttribute (att_name att) (att_type att)
                                  (Some fl))
                      else Ret att) ;;
             Ret (atts ++ [att])%list
           else
             if existsb (String.eqb dimName) existing
             then Ret atts
             else Throw (PdalError (missing_attribute dimName))) ;;
        ready_dims args use_time existing rest
          (attrs ++ [new_buffer args d])%list atts'
      else ready_dims args use_time existing rest attrs atts
  end.

(** The array that is appended to: the names of its attributes, and
    whether its domain has a dimension "GpsTime". *)
Record Existing : Type := mkExisting
  { ex_attributes : list string;
    ex_has_time : bool }.

Definition open_event (args : Args) : Event :=
  ArrayOpen (m_arrayName args)
    (if m_timeStamp args =? 0 then Datatypes.None else Some (m_timeStamp args)).

(** [TileDBWriter::ready(table)], TileDB 2.2 and later: the writer and the
    schema afterwards. *)
Definition ready (args : Args) (all : list LayoutDim)
    (stats : option (string -> float)) (existing : Existing)
    (time_first : bool) (schema : Schema) (w : t) : res (t * Schema) :=
  let ev0 := if m_stats args then [StatsEnable] else [] in
  pre <--
    (if negb (m_append args)
     then
       dom <-- ready_domain args (m_use_time w) time_first stats ;;
       Ret (m_use_time w,
            {| s_allows_dups := s_allows_dups schema;
               s_coords_filters := s_coords_filters schema;
               s_domain := fst dom;
               s_capacity := m_tile_capacity args;
               s_hilbert := (s_hilbert schema || snd dom)%bool;
               s_attributes := s_attributes schema |},
            ev0)
     else
       Ret ((m_use_time w || ex_has_time existing)%bool, schema,
            (ev0 ++ [open_event args])%list)) ;;
  let '(use_time, schema1, evs1) := pre in
  dims <-- ready_dims args use_time (ex_attributes existing) all
             (m_attrs w) (s_attributes schema1) ;;
  let schema2 :=
    {| s_allows_dups := s_allows_dups schema1;
       s_coords_filters := s_coords_filters schema1;
       s_domain := s_domain schema1;
       s_capacity := s_capacity schema1;
       s_hilbert := s_hilbert schema1;
       s_attributes := snd dims |} in
  let evs2 :=
    if negb (m_append args)
    then [ArrayCreate (m_arrayName args) schema2; open_event args]
    else [] in
  Ret ({| m_current_idx := 0;
          m_use_time := use_time;
          m_attrs := fst dims;
          m_xs := m_xs w; m_ys := m_ys w; m_zs := m_zs w; m_tms := m_tms w;
          events := (events w ++ evs1 ++ evs2)%list |},
       schema2).

(** What [ready] makes of a dimension it turns into an attribute of a
    new array: the element type that [createAttribute] chooses, and the
    filter list of its options when these are not empty. *)
Definition attribute_of (args : Args) (d : LayoutDim) (att : Attribute) : Prop :=
  let dimName := snd (fst d) in
  createAttribute dimName (snd d)
  = Ret (mkAttribute dimName (att_type att) Datatypes.None)
  /\ att_name att = dimName
  /\ (if Json.empty (attribute_opts args dimName)
      then att_filters att = Datatypes.None
      else exists fl,
             createFilterList (attribute_opts args dimName) = Ret fl
             /\ att_filters att = Some fl).

(** The same, with the options traced to the argument they come from:
    the dimension's entry in [filters]; without one, the [compression]
    argument and its level when a compression is named; without either,
    the dimension's entry in the defaults; and nothing when that is
    missing too. Options that are empty set no filter list. *)
Definition attribute_made (args : Args) (d : LayoutDim) (att : Attribute)
    : Prop :=
  let dimName := snd (fst d) in
  let in_filters := Json.count (m_filters args) dimName > 0 in
  let in_defaults := Json.count (m_defaults args) dimName > 0 in
  let named := m_compressor args <> "" in
  att_name att = dimName
  /\ createAttribute dimName (snd d)
     = Ret (mkAttribute dimName (att_type att) Datatypes.None)
  /\ exists opts : Json.t,
       (in_filters -> opts = Json.member (m_filters args) dimName)
       /\ (~ in_filters -> named ->
           opts = Json.Object
                    [("compression", Json.Str (m_compressor args));
                     ("compression_level",
                      Json.Int (m_compressionLevel args))])
       /\ (~ in_filters -> m_compressor args = "" -> in_defaults ->
           opts = Json.member (m_defaults args) dimName)
       /\ (~ in_filters -> m_compressor args = "" -> ~ in_defaults ->
           opts = Json.Null)
       /\ (Json.empty opts = true -> att_filters att = Datatypes.None)
       /\ (Json.empty opts = false ->
           exists fl,
             createFilterList opts = Ret fl /\ att_filters att = Some fl).

End Filters.

(** The value of [m_defaults] that the constructor [TileDBWriter()]
    parses from its text. *)
Definition attributeDefaults : Json.t :=
  let spec (name : string) (level : Z) :=
    Json.Object [("compression", Json.Str name);
                 ("compression_level", Json.Int level)] in
  Json.Object
    [ ("coords", Json.Array [spec "zstd" 7]);
      ("Intensity", spec "bzip2" 5);
      ("ReturnNumber", spec "zstd" 7);
      ("NumberOfReturns", spec "zstd" 7);
      ("ScanDirectionFlag", spec "bzip2" 5);
      ("EdgeOfFlightLine", spec "bzip2" 5);
      ("Classification", spec "gzip" 9);
      ("ScanAngleRank", spec "bzip2" 5);
      ("UserData", spec "gzip" 9);
      ("PointSourceId", Json.Object [("compression", Json.Str "bzip2")]);
      ("Red", spec "zstd" 7);
      ("Green", spec "zstd" 7);
      ("Blue", spec "zstd" 7);
      ("GpsTime", Json.Array [spec "zstd" 7]) ].

(** The options read only from the defaults: no [filters], no
    [compression]. *)
Definition defaults_only (args : Args) : Prop :=
  Json.count (m_filters args) "coords" = 0
  /\ (forall dimName, Json.count (m_filters args) dimName = 0)
  /\ m_compressor args = ""
  /\ m_defaults args = attributeDefaults.

End TileDBSetup.

(* ================================================================= *)
(** ** Sample data: a layout and a TileDB that accepts every option *)

Module SetupSample.

Definition set_option (f : TileDB.Filter) (o : TileDB.FilterOption) (v : Z)
    : TileDB.res TileDB.Filter :=
  TileDB.Ret (TileDB.mkFilter (TileDB.f_type f)
                (TileDB.f_options f ++ [(o, v)])).

Definition get_int (j : Json.t) : TileDB.res Z :=
  match j with
  | Json.Int z => TileDB.Ret z
  | _ => TileDB.Throw (TileDB.JsonError "type must be number")
  end.

Definition make_context (cfg : string) : TileDB.res unit := TileDB.Ret tt.

Definition new_schema : TileDB.Schema :=
  TileDB.mkSchema false [] [] 10000 false [].

Definition layout : list TileDBSetup.LayoutDim :=
  [ (Dimension.Known 1, "X", Dimension.Double);
    (Dimension.Known 2, "Y", Dimension.Double);
    (Dimension.Known 3, "Z", Dimension.Double);
    (Dimension.Known 4, "Intensity", Dimension.Unsigned16);
    (Dimension.Known 5, "Classification", Dimension.Unsigned8);
    (Dimension.Known 6, "GpsTime", Dimension.Double) ].

(** The options at their defaults, with a cache of two points. *)
Definition args : TileDB.Args :=
  {| TileDB.m_arrayName := "sample";
     TileDB.m_cfgFileName := EmptyString;
     TileDB.m_tile_capacity := 100000;
     TileDB.m_x_tile_size := 0;
     TileDB.m_y_tile_size := 0;
     TileDB.m_z_tile_size := 0;
     TileDB.m_time_tile_size := 0;
     TileDB.m_x_domain_st := 0; TileDB.m_x_domain_end := 100;
     TileDB.m_y_domain_st := 0; TileDB.m_y_domain_end := 100;
     TileDB.m_z_domain_st := 0; TileDB.m_z_domain_end := 100;
     TileDB.m_time_domain_st := 0; TileDB.m_time_domain_end := 0;
     TileDB.m_cache_size := 2;
     TileDB.m_stats := false;
     TileDB.m_compressor := EmptyString;
     TileDB.m_compressionLevel := -1;
     TileDB.m_filters := Json.Object [];
     TileDB.m_defaults := TileDBSetup.attributeDefaults;
     TileDB.m_append := false;
     TileDB.m_timeStamp := 0 |}.

(** The same, appending to an array. *)
Definition args_append : TileDB.Args :=
  {| TileDB.m_arrayName := TileDB.m_arrayName args;
     TileDB.m_cfgFileName := TileDB.m_cfgFileName args;
     TileDB.m_tile_capacity := TileDB.m_tile_capacity args;
     TileDB.m_x_tile_size := 0; TileDB.m_y_tile_size := 0;
     TileDB.m_z_tile_size := 0; TileDB.m_time_tile_size := 0;
     TileDB.m_x_domain_st := 0; TileDB.m_x_domain_end := 0;
     TileDB.m_y_domain_st := 0; TileDB.m_y_domain_end := 0;
     TileDB.m_z_domain_st := 0; TileDB.m_z_domain_end := 0;
     TileDB.m_time_domain_st := 0; TileDB.m_time_domain_end := 0;
     TileDB.m_cache_size := 2;
     TileDB.m_stats := false;
     TileDB.m_compressor := "brotli";
     TileDB.m_compressionLevel := -1;
     TileDB.m_filters := Json.Object [];
     TileDB.m_defaults := TileDBSetup.attributeDefaults;
     TileDB.m_append := true;
     TileDB.m_timeStamp := 0 |}.

(** The same as [args], with a compression TileDB does not have. *)
Definition args_brotli : TileDB.Args :=
  {| TileDB.m_arrayName := TileDB.m_arrayName args;
     TileDB.m_cfgFileName := TileDB.m_cfgFileName args;
     TileDB.m_tile_capacity := TileDB.m_tile_capacity args;
     TileDB.m_x_tile_size := 0; TileDB.m_y_tile_size := 0;
     TileDB.m_z_tile_size := 0; TileDB.m_time_tile_size := 0;
     TileDB.m_x_domain_st := 0; TileDB.m_x_domain_end := 0;
     TileDB.m_y_domain_st := 0; TileDB.m_y_domain_end := 0;
     TileDB.m_z_domain_st := 0; TileDB.m_z_domain_end := 0;
     TileDB.m_time_domain_st := 0; TileDB.m_time_domain_end := 0;
     TileDB.m_cache_size := 2;
     TileDB.m_stats := false;
     TileDB.m_compressor := "brotli";
     TileDB.m_compressionLevel := -1;
     TileDB.m_filters := Json.Object [];
     TileDB.m_defaults := TileDBSetup.attributeDefaults;
     TileDB.m_append := false;
     TileDB.m_timeStamp := 0 |}.

(** A writer as the constructor leaves it. *)
Definition w_new : TileDB.t :=
  {| TileDB.m_current_idx := 0;
     TileDB.m_use_time := false;
     TileDB.m_attrs := [];
     TileDB.m_xs := []; TileDB.m_ys := []; TileDB.m_zs := []; TileDB.m_tms := [];
     TileDB.events := [] |}.

(** An array written earlier with time as a dimension. *)
Definition array_with_time : TileDBSetup.Existing :=
  TileDBSetup.mkExisting ["Intensity"; "Classification"] true.

(** An array without the classification. *)
Definition array_short : TileDBSetup.Existing :=
  TileDBSetup.mkExisting ["Intensity"] true.

Definition no_array : TileDBSetup.Existing := TileDBSetup.mkExisting [] false.

Definition ready_sample (a : TileDB.Args) (e : TileDBSetup.Existing)
    : TileDB.res (TileDB.t * TileDB.Schema) :=
  TileDBSetup.ready set_option get_int a layout Datatypes.None e false
    new_schema w_new.

End SetupSample.


(* ================================================================= *)
(** * Properties *)

(* ----------------------------------------------------------------- *)
(** ** Compression: writing and reading back *)

Section CompressionFacts.
Import Stream Compression.

Lemma take_word_token (tok rest : string) :
  no_space tok = true -> ends_word rest ->
  take_word (tok ++ rest)%string = (tok, rest).
Proof.
  intros Htok Hrest. induction tok as [|c tok IH]; simpl.
  - destruct rest as [|r rest]; simpl in *; [reflexivity|].
    now rewrite Hrest.
  - simpl in Htok. apply andb_prop in Htok as [Hc Htok].
    apply negb_true_iff in Hc. rewrite Hc, (IH Htok). reflexivity.
Qed.

Lemma skipws_token (tok rest : string) :
  is_token tok -> skipws (tok ++ rest)%string = (tok ++ rest)%string.
Proof.
  intros [Hne Hns]. destruct tok as [|c tok]; [congruence|].
  simpl in *. apply andb_prop in Hns as [Hc _].
  apply negb_true_iff in Hc. now rewrite Hc.
Qed.

Lemma extract_word_token (tok rest : string) :
  is_token tok -> ends_word rest ->
  extract_word (from_string (tok ++ rest)) = (tok, from_string rest).
Proof.
  intros Htok Hrest. unfold extract_word, from_string; simpl.
  rewrite (skipws_token tok rest Htok).
  rewrite (take_word_token tok rest (proj2 Htok) Hrest).
  destruct tok; [now destruct Htok|reflexivity].
Qed.

(** The three spellings the reader recognises, whatever the case. *)
Lemma read_token (tok rest : string) :
  is_token tok -> ends_word rest ->
  read (from_string (tok ++ rest)) =
    (if ((Utils.toupper tok =? "LASZIP")%string
         || (Utils.toupper tok =? "TRUE")%string)%bool then LasZip
     else if (Utils.toupper tok =? "LAZPERF")%string then LazPerf
     else None,
     from_string rest).
Proof.
  intros Htok Hrest. unfold read.
  now rewrite (extract_word_token tok rest Htok Hrest).
Qed.

End CompressionFacts.

(** C10. Writing a [Compression] value with [operator<<] and reading the
    text back with [operator>>] gives the value again, and the stream is
    left good; and the reader is total on tokens: a token that is none of
    "LASZIP", "TRUE", "LAZPERF" up to case reads as [None], with the token
    consumed and the fail bit clear. *)
Theorem compression_write_read :
  (forall c : Compression.t,
      Compression.read (Stream.from_string (Compression.write EmptyString c))
      = (c, Stream.from_string EmptyString))
  /\ (forall tok rest : string,
         Compression.is_token tok -> Compression.ends_word rest ->
         Utils.toupper tok <> "LASZIP" ->
         Utils.toupper tok <> "TRUE" ->
         Utils.toupper tok <> "LAZPERF" ->
         Compression.read (Stream.from_string (tok ++ rest))
         = (Compression.None, Stream.from_string rest)).
Proof.
  split.
  - intros []; reflexivity.
  - intros tok rest Htok Hrest H1 H2 H3.
    rewrite (read_token tok rest Htok Hrest).
    apply String.eqb_neq in H1, H2, H3.
    now rewrite H1, H2, H3.
Qed.

Lemma compression_write_read_witness :
  Compression.is_token "gzip" /\ Compression.ends_word " 7"
  /\ Compression.read (Stream.from_string "gzip 7")
     = (Compression.None, Stream.from_string " 7").
Proof.
  assert (Htok : Compression.is_token "gzip")
    by (split; [discriminate | reflexivity]).
  assert (Hrest : Compression.ends_word " 7") by reflexivity.
  split; [exact Htok | split; [exact Hrest |]].
  apply (proj2 compression_write_read "gzip" " 7" Htok Hrest);
    simpl; discriminate.
Defined.

(* ----------------------------------------------------------------- *)
(** ** The scaling transform in binary64 *)

(** With scale 0.01 and offset 0 the raw value 123456 becomes the double
    1234.56; the inverse transform of that double is not the integer
    123456 but the double just below it, so what is stored on the way back
    is decided by the conversion to [int32_t] that follows it. *)
Example scaling_123456 :
  let xf := mkXForm 0.01 0 in
  fromScaled xf 123456 = 1234.56%float
  /\ toScaled xf 1234.56 = 123455.99999999999%float
  /\ PrimFloat.ltb (toScaled xf 1234.56) 123456 = true.
Proof. vm_compute. repeat split. Qed.

(* ----------------------------------------------------------------- *)
(** ** ExtraDim: the comparison *)

Lemma Type_eqb_eq (a b : Dimension.Type_) :
  Dimension.Type_eqb a b = true <-> a = b.
Proof.
  unfold Dimension.Type_eqb.
  destruct (Dimension.Type_eq_dec a b); split; congruence.
Qed.

(** C6. [ed1 == ed2] holds exactly when the names, the underlying
    dimension types and the sizes agree; the byte offset, the dimension id
    and the scale/offset transform play no part in the result. *)
Theorem extradim_eq_spec :
  forall ed1 ed2 : ExtraDim.t,
    (ExtraDim.eqb ed1 ed2 = true <->
       ExtraDim.m_name ed1 = ExtraDim.m_name ed2
       /\ m_type (ExtraDim.m_dimType ed1) = m_type (ExtraDim.m_dimType ed2)
       /\ ExtraDim.m_size ed1 = ExtraDim.m_size ed2)
    /\ (forall (off1 off2 : Z) (id1 id2 : Dimension.Id) (xf1 xf2 : XForm),
           ExtraDim.eqb
             (ExtraDim.mk (ExtraDim.m_name ed1)
                (mkDimType id1 (m_type (ExtraDim.m_dimType ed1)) xf1)
                (ExtraDim.m_size ed1) off1)
             (ExtraDim.mk (ExtraDim.m_name ed2)
                (mkDimType id2 (m_type (ExtraDim.m_dimType ed2)) xf2)
                (ExtraDim.m_size ed2) off2)
           = ExtraDim.eqb ed1 ed2).
Proof.
  intros ed1 ed2. split.
  - unfold ExtraDim.eqb.
    rewrite !andb_true_iff, String.eqb_eq, Type_eqb_eq, Z.eqb_eq.
    tauto.
  - intros. reflexivity.
Qed.

(* ----------------------------------------------------------------- *)
(** ** ExtraBytesSpec: the packed record *)

(** C7. Under the packing of 1 the record takes 192 bytes, its members in
    declaration order at offsets 0, 2, 3, 4, 36, 40, 64, 88, 112, 136 and
    160 with sizes 2, 1, 1, 32, 4, 24 (3 x 8, five times) and 32. *)
Theorem extra_bytes_spec_layout :
  ExtraBytesSpecSize = 192
  /\ Layout.struct_members 1 ExtraBytesSpec =
       [ ("m_reserved", 0, 2); ("m_dataType", 2, 1); ("m_options", 3, 1);
         ("m_name", 4, 32); ("m_reserved2", 36, 4);
         ("m_noData", 40, 24); ("m_min", 64, 24); ("m_max", 88, 24);
         ("m_scale", 112, 24); ("m_offset", 136, 24);
         ("m_description", 160, 32) ]
  /\ map (fun m => (Layout.sizeof (Layout.mem_type m), Layout.mem_count m))
         ExtraBytesSpec =
       [ (1, 2); (1, 1); (1, 1); (1, 32); (1, 4);
         (8, 3); (8, 3); (8, 3); (8, 3); (8, 3); (1, 32) ].
Proof.
  repeat split; vm_compute; reflexivity.
Qed.

(* ----------------------------------------------------------------- *)
(** ** ExtraBytesIf: what the constructors establish *)

Section ExtraBytesIfFacts.
Import ExtraBytesIf.

Lemma fill3 (s o : float) (sc off : double3) :
  fill 3 0 s o sc off = (mkDouble3 s s s, mkDouble3 o o o).
Proof. destruct sc, off; reflexivity. Qed.

Lemma all3_const (v : float) : all3 (mkDouble3 v v v) v.
Proof. repeat split. Qed.

Lemma default_fields (s0 o0 : double3) :
  default s0 o0 =
    mk Dimension.None 0 (mkDouble3 1 1 1) (mkDouble3 0 0 0)
       EmptyString EmptyString 0.
Proof. unfold default. now rewrite fill3. Qed.

Lemma make_fields (s0 o0 : double3) name type description :
  make s0 o0 name type description =
    mk type (if Dimension.Type_eqb type Dimension.None then 0 else 1)
       (mkDouble3 0 0 0) (mkDouble3 0 0 0) name description 0.
Proof. unfold make. now rewrite fill3. Qed.

Lemma float_one_not_zero : 1%float <> 0%float.
Proof.
  intro H. apply (f_equal (fun x => PrimFloat.eqb x 0)) in H.
  vm_compute in H. discriminate.
Qed.

(** The table gives a typed descriptor one to three fields, and the
    untyped one none. *)
Lemma base_type_typed (code : Z) :
  1 <= code <= 10 -> ExtraBytesIf.base_type code <> Dimension.None.
Proof.
  intros H.
  assert (E : code = 1 \/ code = 2 \/ code = 3 \/ code = 4 \/ code = 5
              \/ code = 6 \/ code = 7 \/ code = 8 \/ code = 9 \/ code = 10)
    by lia.
  repeat (destruct E as [-> | E]; [discriminate |]). subst; discriminate.
Qed.

Lemma decode_field_count (lastype : Z) (type : Dimension.Type_) (cnt : Z) :
  ExtraBytesIf.decode lastype = Some (type, cnt) ->
  (type = Dimension.None /\ cnt = 0 /\ lastype = 0)
  \/ (type <> Dimension.None /\ 1 <= cnt <= 3
      /\ lastype = 10 * (cnt - 1) + ExtraBytesIf.type_code type
      /\ 1 <= ExtraBytesIf.type_code type <= 10).
Proof.
  unfold ExtraBytesIf.decode.
  destruct (lastype =? 0) eqn:E0.
  { intros H; injection H as <- <-. left. repeat split. lia. }
  assert (Hcode : forall c, 1 <= c <= 10 ->
             ExtraBytesIf.type_code (ExtraBytesIf.base_type c) = c).
  { intros c Hc.
    assert (E : c = 1 \/ c = 2 \/ c = 3 \/ c = 4 \/ c = 5
                \/ c = 6 \/ c = 7 \/ c = 8 \/ c = 9 \/ c = 10) by lia.
    repeat (destruct E as [-> | E]; [reflexivity |]). subst; reflexivity. }
  destruct ((1 <=? lastype) && (lastype <=? 10)) eqn:E1.
  { apply andb_prop in E1 as [A B]. apply Z.leb_le in A, B.
    intros H; injection H as <- <-. right.
    rewrite Hcode by lia.
    repeat split; try lia. apply base_type_typed; lia. }
  destruct ((11 <=? lastype) && (lastype <=? 20)) eqn:E2.
  { apply andb_prop in E2 as [A B]. apply Z.leb_le in A, B.
    intros H; injection H as <- <-. right.
    rewrite Hcode by lia.
    repeat split; try lia. apply base_type_typed; lia. }
  destruct ((21 <=? lastype) && (lastype <=? 30)) eqn:E3.
  { apply andb_prop in E3 as [A B]. apply Z.leb_le in A, B.
    intros H; injection H as <- <-. right.
    rewrite Hcode by lia.
    repeat split; try lia. apply base_type_typed; lia. }
  discriminate.
Qed.

Lemma setType_fields (lastype : Z) (eb eb' : ExtraBytesIf.t) :
  ExtraBytesIf.setType lastype eb = Some eb' ->
  ExtraBytesIf.decode lastype
  = Some (ExtraBytesIf.m_type eb', ExtraBytesIf.m_fieldCnt eb').
Proof.
  unfold ExtraBytesIf.setType.
  destruct (ExtraBytesIf.decode lastype) as [[type cnt]|]; [|discriminate].
  intros H; injection H as <-. reflexivity.
Qed.

Lemma readFrom_fields (others : list Byte.byte -> ExtraBytesIf.t -> ExtraBytesIf.t)
    (buf : list Byte.byte) (eb eb' : ExtraBytesIf.t) :
  ExtraBytesIf.readFrom others buf eb = Some eb' ->
  ExtraBytesIf.decode (ExtraBytesIf.type_byte buf)
  = Some (ExtraBytesIf.m_type eb', ExtraBytesIf.m_fieldCnt eb').
Proof.
  unfold ExtraBytesIf.readFrom.
  destruct (Z.of_nat (List.length buf) <? ExtraBytesSpecSize); [discriminate|].
  destruct (ExtraBytesIf.setType (ExtraBytesIf.type_byte buf) eb)
    as [eb1|] eqn:E; [|discriminate].
  intros H; injection H as <-. simpl. exact (setType_fields _ _ _ E).
Qed.

(** The two mappings are inverse to each other on what [setType]
    accepts: [lasType] gives back the type byte that was set. *)
Lemma setType_lasType (lastype : Z) (eb eb' : ExtraBytesIf.t) :
  ExtraBytesIf.setType lastype eb = Some eb' ->
  ExtraBytesIf.lasType eb' = Some lastype.
Proof.
  intros H. apply setType_fields, decode_field_count in H.
  unfold ExtraBytesIf.lasType.
  destruct H as [(Ht & Hc & Hl) | (Ht & Hc & Hl & Hcode)].
  - rewrite Ht, Hc, Hl. reflexivity.
  - assert (E1 : ((ExtraBytesIf.m_fieldCnt eb' <? 0)
                  || (3 <? ExtraBytesIf.m_fieldCnt eb')) = false).
    { apply orb_false_iff. split; apply Z.ltb_ge; lia. }
    assert (E2 : Dimension.Type_eqb (ExtraBytesIf.m_type eb') Dimension.None
                 = false).
    { destruct (Dimension.Type_eqb _ _) eqn:E; [|reflexivity].
      apply Type_eqb_eq in E. contradiction. }
    assert (E3 : (ExtraBytesIf.m_fieldCnt eb' =? 0) = false)
      by (apply Z.eqb_neq; lia).
    rewrite E1, E2, E3. now rewrite Hl.
Qed.

Lemma constructed_field_count (eb : ExtraBytesIf.t) :
  ExtraBytesIf.constructed eb ->
  ExtraBytesIf.fieldCnt_ok eb /\ 0 <= ExtraBytesIf.m_fieldCnt eb <= 1.
Proof.
  intros [s0 o0 | s0 o0 name type description]; unfold ExtraBytesIf.fieldCnt_ok.
  - rewrite default_fields. simpl. repeat split; try lia. congruence.
  - rewrite make_fields. simpl.
    destruct (Dimension.Type_eqb type Dimension.None) eqn:E.
    + apply Type_eqb_eq in E. repeat split; try lia. congruence.
    + repeat split; try lia. intro H. apply Type_eqb_eq in H. congruence.
Qed.

Lemma decoded_field_count (lastype : Z) (eb : ExtraBytesIf.t) :
  ExtraBytesIf.decode lastype
  = Some (ExtraBytesIf.m_type eb, ExtraBytesIf.m_fieldCnt eb) ->
  ExtraBytesIf.fieldCnt_ok eb /\ 0 <= ExtraBytesIf.m_fieldCnt eb <= 3.
Proof.
  intros H. apply decode_field_count in H. unfold ExtraBytesIf.fieldCnt_ok.
  destruct H as [(Ht & Hc & _) | (Ht & Hc & _)].
  - repeat split; try lia. intros; contradiction.
  - repeat split; try lia. intros; contradiction.
Qed.

End ExtraBytesIfFacts.

(** C8. The default constructor gives type [None] with field count 0; the
    writer-side constructor gives field count 0 exactly when its type is
    [None] and 1 otherwise; and every descriptor, whether a constructor
    built it or [setType] or [readFrom] has since given it another type,
    has field count 0 for type [None] and at least 1, and at most 3, for
    any other type. *)
Theorem extra_bytes_field_count :
  (forall s0 o0,
      ExtraBytesIf.m_type (ExtraBytesIf.default s0 o0) = Dimension.None
      /\ ExtraBytesIf.m_fieldCnt (ExtraBytesIf.default s0 o0) = 0)
  /\ (forall s0 o0 name type description,
         let eb := ExtraBytesIf.make s0 o0 name type description in
         ExtraBytesIf.m_type eb = type
         /\ (ExtraBytesIf.m_fieldCnt eb = 0 <-> type = Dimension.None)
         /\ (type <> Dimension.None -> ExtraBytesIf.m_fieldCnt eb = 1))
  /\ (forall eb,
         ExtraBytesIf.reachable eb ->
         ExtraBytesIf.fieldCnt_ok eb
         /\ 0 <= ExtraBytesIf.m_fieldCnt eb <= 3).
Proof.
  split; [|split].
  - intros. rewrite default_fields. split; reflexivity.
  - intros s0 o0 name type description eb. subst eb.
    rewrite make_fields. simpl.
    destruct (Dimension.Type_eqb type Dimension.None) eqn:E.
    + apply Type_eqb_eq in E. repeat split; auto; congruence.
    + assert (type <> Dimension.None)
        by (intro H; apply Type_eqb_eq in H; congruence).
      repeat split; auto; intros; try lia; congruence.
  - intros eb Hreach.
    induction Hreach as [eb Hc | eb lastype eb' _ _ Hset
                         | eb others buf eb' _ _ Hread].
    + destruct (constructed_field_count eb Hc) as [Hok Hcnt].
      split; [exact Hok | lia].
    + exact (decoded_field_count _ _ (setType_fields _ _ _ Hset)).
    + exact (decoded_field_count _ _ (readFrom_fields _ _ _ _ Hread)).
Qed.

Lemma extra_bytes_field_count_witness :
  let z := ExtraBytesIf.mkDouble3 0 0 0 in
  let eb := ExtraBytesIf.make z z "Flags" Dimension.Unsigned16 "bit flags" in
  let record := (repeat Byte.x00 2 ++ [Byte.x19] ++ repeat Byte.x00 189)%list in
  exists eb2 eb3,
    ExtraBytesIf.setType 14 eb = Some eb2
    /\ ExtraBytesIf.readFrom (fun _ d => d) record eb2 = Some eb3
    /\ ExtraBytesIf.m_fieldCnt eb = 1
    /\ (ExtraBytesIf.fieldCnt_ok eb2 /\ ExtraBytesIf.m_fieldCnt eb2 = 2)
    /\ (ExtraBytesIf.fieldCnt_ok eb3 /\ ExtraBytesIf.m_fieldCnt eb3 = 3
        /\ ExtraBytesIf.m_type eb3 = Dimension.Unsigned32).
Proof.
  intros z eb record.
  assert (Hc : ExtraBytesIf.reachable eb)
    by apply ExtraBytesIf.reach_constructed, ExtraBytesIf.by_make.
  destruct (ExtraBytesIf.setType 14 eb) as [eb2|] eqn:E2;
    [|vm_compute in E2; discriminate].
  destruct (ExtraBytesIf.readFrom (fun _ d => d) record eb2) as [eb3|] eqn:E3;
    [|revert E3; vm_compute in E2; injection E2 as <-; vm_compute; discriminate].
  assert (H2 : ExtraBytesIf.reachable eb2)
    by exact (ExtraBytesIf.reach_setType _ _ _ Hc E2).
  assert (H3 : ExtraBytesIf.reachable eb3)
    by exact (ExtraBytesIf.reach_readFrom _ _ _ _ H2 E3).
  exists eb2, eb3. split; [reflexivity | split; [exact E3 |]].
  split; [|split].
  - apply (proj1 (proj2 extra_bytes_field_count)). discriminate.
  - split; [exact (proj1 (proj2 (proj2 extra_bytes_field_count) eb2 H2)) |].
    vm_compute in E2. injection E2 as <-. reflexivity.
  - split; [exact (proj1 (proj2 (proj2 extra_bytes_field_count) eb3 H3)) |].
    vm_compute in E2. injection E2 as <-.
    vm_compute in E3. injection E3 as <-. split; reflexivity.
Defined.

(** C4 as stated fails: after the default constructor, which is what the
    read path starts from, the scale components are not 0. *)
Lemma default_scale_not_zero :
  let z := ExtraBytesIf.mkDouble3 0 0 0 in
  ~ (ExtraBytesIf.all3 (ExtraBytesIf.m_scale (ExtraBytesIf.default z z)) 0%float
     /\ ExtraBytesIf.all3 (ExtraBytesIf.m_offset (ExtraBytesIf.default z z)) 0%float).
Proof.
  intros z [[H _] _]. rewrite default_fields in H. simpl in H.
  exact (float_one_not_zero H).
Qed.

(** C4, amended. A default-constructed descriptor has all three scale
    components 1.0 and all three offset components 0.0, whatever the
    arrays held before; it is the writer-side constructor that sets all
    three scale components, and all three offset components, to 0. *)
Theorem extra_bytes_default_scale_offset :
  (forall s0 o0,
      ExtraBytesIf.all3 (ExtraBytesIf.m_scale (ExtraBytesIf.default s0 o0)) 1%float
      /\ ExtraBytesIf.all3 (ExtraBytesIf.m_offset (ExtraBytesIf.default s0 o0)) 0%float)
  /\ (forall s0 o0 name type description,
         let eb := ExtraBytesIf.make s0 o0 name type description in
         ExtraBytesIf.all3 (ExtraBytesIf.m_scale eb) 0%float
         /\ ExtraBytesIf.all3 (ExtraBytesIf.m_offset eb) 0%float).
Proof.
  split.
  - intros. rewrite default_fields. simpl. split; apply all3_const.
  - intros s0 o0 name type description eb. subst eb.
    rewrite make_fields. simpl. split; apply all3_const.
Qed.

(* ----------------------------------------------------------------- *)
(** ** LoaderDriver: a PDRF without a base loader *)

Section DriverFacts.
Import Loader.
Variable PointRef : Type.
Variable loader_load : PointLoader -> buffer -> Z -> M PointRef unit.
Variable loader_pack : PointLoader -> PointRef -> Z -> M buffer unit.
Variable pdrf_table : Z -> option PdrfLayout.

Lemma init_unknown_chain d pdrf scaling dims :
  pdrf_table pdrf = Datatypes.None ->
  m_loaders (init pdrf_table d pdrf scaling dims) =
    match dims with [] => [] | _ :: _ => [ExtraDimLoader dims] end.
Proof. intros H. unfold init. now rewrite H. Qed.

Lemma init_unknown_no_base d pdrf scaling dims :
  pdrf_table pdrf = Datatypes.None ->
  has_base (init pdrf_table d pdrf scaling dims) = false.
Proof.
  intros H. unfold has_base.
  rewrite (init_unknown_chain d pdrf scaling dims H).
  now destruct dims.
Qed.

Lemma init_known_has_base d pdrf scaling dims row :
  pdrf_table pdrf = Some row ->
  has_base (init pdrf_table d pdrf scaling dims) = true.
Proof.
  intros H. unfold has_base, init. rewrite H. simpl.
  now destruct (family row).
Qed.

End DriverFacts.

(** C5. When the table has no row for the PDRF, the driver configured for
    it answers [false] from both [load] and [pack]: the call returns, it
    does not throw, no loader has run, and the point and the buffer are as
    they were. The same holds for a default-constructed driver. *)
Theorem driver_unknown_pdrf_returns_false :
  forall (PointRef : Type)
         (loader_load : Loader.PointLoader -> buffer -> Z -> M PointRef unit)
         (loader_pack : Loader.PointLoader -> PointRef -> Z -> M buffer unit)
         (pdrf_table : Z -> option Loader.PdrfLayout)
         (d : Loader.LoaderDriver) (pdrf : Z) (scaling : Scaling) (dims : ExtraDims),
    pdrf_table pdrf = Datatypes.None ->
    let drv := Loader.init pdrf_table d pdrf scaling dims in
    (forall (point : PointRef) (buf : buffer) (bufsize : Z),
        Loader.load loader_load drv buf bufsize point = (point, Ok false)
        /\ Loader.pack loader_pack drv point bufsize buf = (buf, Ok false)
        /\ Loader.load loader_load Loader.empty buf bufsize point = (point, Ok false)
        /\ Loader.pack loader_pack Loader.empty point bufsize buf = (buf, Ok false)).
Proof.
  intros PointRef ll lp table d pdrf scaling dims H drv point buf bufsize.
  subst drv. unfold Loader.load, Loader.pack.
  rewrite (init_unknown_no_base table d pdrf scaling dims H).
  repeat split.
Qed.

Lemma driver_unknown_pdrf_returns_false_witness :
  let throwing_load : Loader.PointLoader -> buffer -> Z -> M unit unit :=
    fun _ _ _ _ => (tt, Throw "loader ran") in
  let throwing_pack : Loader.PointLoader -> unit -> Z -> M buffer unit :=
    fun _ _ _ b => (b, Throw "loader ran") in
  let dims := [ExtraDim.of_size "raw" 2 34] in
  let drv := Loader.init pdrf3_only Loader.empty 11 unit_scaling dims in
  pdrf3_only 11 = Datatypes.None
  /\ Loader.load throwing_load drv [] 0 tt = (tt, Ok false)
  /\ Loader.pack throwing_pack drv tt 0 [] = ([], Ok false).
Proof.
  intros throwing_load throwing_pack dims drv.
  assert (H : pdrf3_only 11 = Datatypes.None) by reflexivity.
  split; [exact H |].
  pose proof (driver_unknown_pdrf_returns_false unit throwing_load throwing_pack
                pdrf3_only Loader.empty 11 unit_scaling dims H tt [] 0) as W.
  split; [exact (proj1 W) | exact (proj1 (proj2 W))].
Defined.

(* ----------------------------------------------------------------- *)
(** ** VlrCatalog: lookup and reload *)

Section CatalogFacts.
Import VlrCatalog.

Lemma matches_true uid rid e :
  matches uid rid e = true <-> userId e = uid /\ recordId e = rid.
Proof.
  unfold matches. now rewrite andb_true_iff, String.eqb_eq, Z.eqb_eq.
Qed.

Lemma lookup_none uid rid es :
  no_match uid rid es -> lookup uid rid es = Datatypes.None.
Proof.
  induction es as [|e es IH]; intros H; simpl; [reflexivity|].
  destruct (matches uid rid e) eqn:E.
  - apply matches_true in E. exfalso. exact (H e (or_introl eq_refl) E).
  - apply IH. intros e' Hin. apply H. now right.
Qed.

Lemma lookup_first uid rid es e :
  first_match uid rid es e -> lookup uid rid es = Some e.
Proof.
  intros (before & after & -> & Hu & Hr & Hb).
  induction before as [|b before IH]; simpl.
  - assert (E : matches uid rid e = true) by now apply matches_true.
    now rewrite E.
  - destruct (matches uid rid b) eqn:E.
    + apply matches_true in E. exfalso. exact (Hb b (or_introl eq_refl) E).
    + apply IH. intros e' Hin. apply Hb. now right.
Qed.

(** Inside the parameter ranges the conversions of a call do nothing. *)
Lemma call_in_range (f : ReadFunc) off len :
  0 <= off < 2 ^ 64 -> 0 <= len < 2 ^ 31 -> call f off len = f off len.
Proof.
  intros Ho Hl. unfold call, to_uint64, to_int32.
  rewrite (Z.mod_small off) by lia.
  rewrite (Z.mod_small (len + 2 ^ 31)) by lia.
  f_equal. lia.
Qed.

(** Computations that leave the range-read function of the catalog alone. *)
Definition keeps_fetch {A} (m : M t A) : Prop :=
  forall c, m_fetch (fst (m c)) = m_fetch c.

Lemma keeps_ret {A} (a : A) : keeps_fetch (ret a).
Proof. intros c. reflexivity. Qed.

Lemma keeps_lift {A} (r : result A) : keeps_fetch (lift r).
Proof. intros c. reflexivity. Qed.

Lemma keeps_get : keeps_fetch get_state.
Proof. intros c. reflexivity. Qed.

Lemma keeps_bind {A B} (m : M t A) (k : A -> M t B) :
  keeps_fetch m -> (forall a, keeps_fetch (k a)) -> keeps_fetch (bind m k).
Proof.
  intros Hm Hk c. unfold bind. specialize (Hm c).
  destruct (m c) as [c' [a|e]]; simpl in *.
  - now rewrite Hk.
  - exact Hm.
Qed.

Lemma keeps_insert e : keeps_fetch (insert e).
Proof. intros c. reflexivity. Qed.

Lemma keeps_clear : keeps_fetch clear.
Proof. intros c. reflexivity. Qed.

Variable user_id_of : list Byte.byte -> string.

Lemma keeps_walk_one hdr lenw at_ : keeps_fetch (walk_one user_id_of hdr lenw at_).
Proof.
  unfold walk_one.
  apply keeps_bind; [apply keeps_get | intros c].
  apply keeps_bind; [apply keeps_lift | intros buf].
  apply keeps_bind; [apply keeps_insert | intros _; apply keeps_ret].
Qed.

Lemma keeps_walk hdr lenw count : forall at_,
  keeps_fetch (walk user_id_of hdr lenw count at_).
Proof.
  induction count as [|n IH]; intros at_; simpl.
  - apply keeps_ret.
  - apply keeps_bind; [apply keeps_walk_one | intros next; apply IH].
Qed.

Lemma load_fetch vo vc eo ec c :
  m_fetch (fst (load user_id_of vo vc eo ec c)) = m_fetch c.
Proof.
  revert c. change (keeps_fetch (load user_id_of vo vc eo ec)).
  unfold load, walkVlrs, walkEvlrs.
  apply keeps_bind; [apply keeps_clear | intros _].
  apply keeps_bind; [apply keeps_walk | intros _; apply keeps_walk].
Qed.

(** [load] starts by dropping what the catalog held: its outcome is that
    of loading a catalog fresh from the constructor. *)
Lemma load_from_scratch vo vc eo ec c :
  load user_id_of vo vc eo ec c = load user_id_of vo vc eo ec (create (m_fetch c)).
Proof. reflexivity. Qed.

End CatalogFacts.

(** C2. [fetch] answers with the call of the catalog's range-read function
    on the stored offset and length of the first entry, in insertion order,
    whose user id and record id both equal the ones asked for; when no
    entry matches it returns the empty byte sequence, normally. *)
Theorem catalog_fetch_first_match :
  forall (c : VlrCatalog.t) (uid : string) (rid : Z),
    (forall e : VlrCatalog.Entry,
        VlrCatalog.first_match uid rid (VlrCatalog.m_entries c) e ->
        VlrCatalog.fetch c uid rid =
          VlrCatalog.call (VlrCatalog.m_fetch c)
            (VlrCatalog.offset e) (VlrCatalog.length e))
    /\ (VlrCatalog.no_match uid rid (VlrCatalog.m_entries c) ->
        VlrCatalog.fetch c uid rid = Ok []).
Proof.
  intros c uid rid. split.
  - intros e H. unfold VlrCatalog.fetch. now rewrite (lookup_first uid rid _ e H).
  - intros H. unfold VlrCatalog.fetch. now rewrite (lookup_none uid rid _ H).
Qed.

(** C3. After two loads in a row the catalog is the one a fresh catalog
    with the same range-read function becomes under the second load alone:
    the same entries, the same answers from [fetch]; a key the second load
    did not come across is absent, whatever the first load recorded. *)
Theorem catalog_reload_replaces :
  forall (user_id_of : list Byte.byte -> string) (c : VlrCatalog.t)
         (vo1 vc1 eo1 ec1 vo2 vc2 eo2 ec2 : Z),
    let c1 := fst (VlrCatalog.load user_id_of vo1 vc1 eo1 ec1 c) in
    let c2 := fst (VlrCatalog.load user_id_of vo2 vc2 eo2 ec2 c1) in
    let fresh :=
      fst (VlrCatalog.load user_id_of vo2 vc2 eo2 ec2
             (VlrCatalog.create (VlrCatalog.m_fetch c))) in
    VlrCatalog.m_entries c2 = VlrCatalog.m_entries fresh
    /\ (forall uid rid, VlrCatalog.fetch c2 uid rid = VlrCatalog.fetch fresh uid rid)
    /\ (forall uid rid,
           VlrCatalog.no_match uid rid (VlrCatalog.m_entries fresh) ->
           VlrCatalog.fetch c2 uid rid = Ok []).
Proof.
  intros uidf c vo1 vc1 eo1 ec1 vo2 vc2 eo2 ec2 c1 c2 fresh.
  assert (E : c2 = fresh).
  { subst c2 fresh. rewrite load_from_scratch.
    subst c1. now rewrite load_fetch. }
  rewrite E. repeat split.
  intros uid rid H. unfold VlrCatalog.fetch. now rewrite (lookup_none uid rid _ H).
Qed.

(* ----------------------------------------------------------------- *)
(** ** The catalog on the sample file *)

Example sample_entries :
  VlrCatalog.m_entries Sample.loaded =
    [ VlrCatalog.mkEntry "LASF_Spec" 4 54 3;
      VlrCatalog.mkEntry "copc" 1000 117 2 ].
Proof. vm_compute. reflexivity. Qed.

Example sample_fetch :
  VlrCatalog.fetch Sample.loaded "LASF_Spec" 4 = Ok (list_byte_of_string "abc")
  /\ VlrCatalog.fetch Sample.loaded "copc" 1000 = Ok (list_byte_of_string "hi")
  /\ VlrCatalog.fetch Sample.loaded "copc" 4 = Ok [].
Proof. vm_compute. repeat split. Qed.

Example sample_reload :
  VlrCatalog.m_entries Sample.reloaded = [ VlrCatalog.mkEntry "copc" 1000 117 2 ]
  /\ VlrCatalog.fetch Sample.reloaded "LASF_Spec" 4 = Ok [].
Proof. vm_compute. repeat split. Qed.

Lemma catalog_fetch_first_match_witness :
  let e1 := VlrCatalog.mkEntry "LASF_Spec" 4 54 3 in
  let e2 := VlrCatalog.mkEntry "copc" 1000 117 2 in
  let e3 := VlrCatalog.mkEntry "copc" 1000 54 3 in
  let c := VlrCatalog.mk Sample.read_range [e1; e2; e3] in
  VlrCatalog.first_match "copc" 1000 (VlrCatalog.m_entries c) e2
  /\ VlrCatalog.fetch c "copc" 1000 = Ok (list_byte_of_string "hi")
  /\ VlrCatalog.no_match "copc" 4 (VlrCatalog.m_entries c)
  /\ VlrCatalog.fetch c "copc" 4 = Ok [].
Proof.
  intros e1 e2 e3 c.
  assert (H1 : VlrCatalog.first_match "copc" 1000 (VlrCatalog.m_entries c) e2).
  { exists [e1], [e3]. repeat split.
    intros e' [<- | []] [H _]. discriminate H. }
  assert (H2 : VlrCatalog.no_match "copc" 4 (VlrCatalog.m_entries c)).
  { intros e' [<- | [<- | [<- | []]]] [Hu Hr]; discriminate. }
  split; [exact H1 | split; [| split; [exact H2 |]]].
  - rewrite (proj1 (catalog_fetch_first_match c "copc" 1000) e2 H1).
    vm_compute. reflexivity.
  - exact (proj2 (catalog_fetch_first_match c "copc" 4) H2).
Defined.

Lemma catalog_reload_replaces_witness :
  VlrCatalog.fetch Sample.loaded "LASF_Spec" 4 = Ok (list_byte_of_string "abc")
  /\ VlrCatalog.no_match "LASF_Spec" 4
       (VlrCatalog.m_entries
          (fst (VlrCatalog.load Sample.c_string 0 0 57 1
                  (VlrCatalog.create Sample.read_range))))
  /\ VlrCatalog.fetch Sample.reloaded "LASF_Spec" 4 = Ok [].
Proof.
  assert (H : VlrCatalog.no_match "LASF_Spec" 4
                (VlrCatalog.m_entries
                   (fst (VlrCatalog.load Sample.c_string 0 0 57 1
                           (VlrCatalog.create Sample.read_range))))).
  { intros e Hin [Hu _]. vm_compute in Hin.
    destruct Hin as [<- | []]. discriminate Hu. }
  split; [vm_compute; reflexivity | split; [exact H |]].
  exact (proj2 (proj2 (catalog_reload_replaces Sample.c_string
                         (VlrCatalog.create Sample.read_range)
                         0 1 57 1 0 0 57 1)) "LASF_Spec" 4 H).
Defined.

(* ================================================================= *)
(** * Further properties of the header *)

(* ----------------------------------------------------------------- *)
(** ** Compression: which words are accepted, and what an empty stream gives *)

Section CompressionMore.
Import Stream Compression CompressionIO.

Lemma skipws_all_space (ws s : string) :
  all_space ws = true -> skipws (ws ++ s)%string = skipws s.
Proof.
  induction ws as [|c ws IH]; simpl; intros H; [reflexivity|].
  apply andb_prop in H as [Hc Hws]. rewrite Hc. now apply IH.
Qed.

Lemma skipws_only_space (ws : string) :
  all_space ws = true -> skipws ws = EmptyString.
Proof.
  induction ws as [|c ws IH]; simpl; intros H; [reflexivity|].
  apply andb_prop in H as [Hc Hws]. rewrite Hc. now apply IH.
Qed.

Lemma extract_word_spaced (ws tok rest : string) :
  all_space ws = true -> is_token tok -> ends_word rest ->
  extract_word (from_string (ws ++ tok ++ rest)) = (tok, from_string rest).
Proof.
  intros Hws Htok Hrest.
  pose proof (extract_word_token tok rest Htok Hrest) as H.
  unfold extract_word, from_string in *; simpl in *.
  now rewrite (skipws_all_space ws _ Hws).
Qed.

Lemma read_spaced (ws tok rest : string) :
  all_space ws = true -> is_token tok -> ends_word rest ->
  read (from_string (ws ++ tok ++ rest)) =
    (if ((Utils.toupper tok =? "LASZIP")%string
         || (Utils.toupper tok =? "TRUE")%string)%bool then LasZip
     else if (Utils.toupper tok =? "LAZPERF")%string then LazPerf
     else None,
     from_string rest).
Proof.
  intros Hws Htok Hrest. unfold read.
  now rewrite (extract_word_spaced ws tok rest Hws Htok Hrest).
Qed.

Lemma written_is_token (c : Compression.t) :
  is_token (write EmptyString c).
Proof. destruct c; split; (discriminate || reflexivity). Qed.

Lemma write_appends (out : ostream) (c : Compression.t) :
  write out c = (out ++ write EmptyString c)%string.
Proof. destruct c; reflexivity. Qed.

Lemma read_written (ws rest : string) (c : Compression.t) :
  all_space ws = true -> ends_word rest ->
  read (from_string (ws ++ write EmptyString c ++ rest)) = (c, from_string rest).
Proof.
  intros Hws Hrest.
  rewrite (read_spaced ws _ rest Hws (written_is_token c) Hrest).
  now destruct c.
Qed.

Lemma append_assoc (a b c : string) :
  ((a ++ b) ++ c)%string = (a ++ (b ++ c))%string.
Proof. induction a as [|x a IH]; simpl; [reflexivity | now rewrite IH]. Qed.

Lemma append_empty_r (a : string) : (a ++ EmptyString)%string = a.
Proof. induction a as [|x a IH]; simpl; [reflexivity | now rewrite IH]. Qed.

Lemma write_all_appends (cs : list Compression.t) : forall out,
  write_all out cs = (out ++ write_all EmptyString cs)%string.
Proof.
  induction cs as [|c cs IH]; intros out; cbn [write_all].
  - now rewrite append_empty_r.
  - rewrite IH. rewrite (IH (write (insert_string EmptyString " ") c)).
    unfold insert_string. rewrite (write_appends (out ++ " ")).
    rewrite (write_appends (EmptyString ++ " ")).
    now rewrite !append_assoc.
Qed.

Lemma write_all_ends_word (cs : list Compression.t) (rest : string) :
  ends_word rest -> ends_word (write_all EmptyString cs ++ rest).
Proof.
  intros Hrest. destruct cs as [|c cs]; cbn [write_all]; [exact Hrest|].
  rewrite write_all_appends. unfold insert_string.
  rewrite (write_appends _ c). simpl. reflexivity.
Qed.

Lemma read_all_written (cs : list Compression.t) : forall rest,
  ends_word rest ->
  read_all (List.length cs) (from_string (write_all EmptyString cs ++ rest))
  = (cs, from_string rest).
Proof.
  induction cs as [|c cs IH]; intros rest Hrest;
    cbn [write_all List.length read_all]; [reflexivity|].
  rewrite write_all_appends. unfold insert_string.
  change (EmptyString ++ " ")%string with " ".
  rewrite (write_appends " " c). rewrite !append_assoc.
  rewrite (read_written " " _ c eq_refl (write_all_ends_word cs rest Hrest)).
  now rewrite (IH rest Hrest).
Qed.

Lemma read_all_snoc (n : nat) : forall i,
  read_all (S n) i =
    let (cs, i') := read_all n i in
    let (c, i'') := read i' in
    ((cs ++ [c])%list, i'').
Proof.
  induction n as [|n IH]; intros i.
  - simpl. now destruct (read i).
  - change (read_all (S (S n)) i)
      with (let (c, i') := read i in
            let (cs, i'') := read_all (S n) i' in (c :: cs, i'')).
    cbn [read_all]. destruct (read i) as [c i'].
    specialize (IH i'). cbn [read_all] in IH. rewrite IH.
    destruct (read_all n i') as [cs j]. now destruct (read j).
Qed.

Lemma read_only_space (ws : string) :
  all_space ws = true ->
  read (from_string ws) = (None, mkIstream EmptyString true).
Proof.
  intros Hws. unfold read, extract_word, from_string. simpl.
  now rewrite (skipws_only_space ws Hws).
Qed.

End CompressionMore.

(** X1. After any leading white space, a word reads as [LasZip] exactly
    when its upper-casing is "LASZIP" or "TRUE", as [LazPerf] exactly when
    it is "LAZPERF", and as [None] exactly when it is none of the three;
    the extraction consumes the white space and the word, nothing more,
    and leaves the fail bit clear. *)
Theorem compression_read_characterised :
  forall ws tok rest : string,
    CompressionIO.all_space ws = true ->
    Compression.is_token tok -> Compression.ends_word rest ->
    let r := Compression.read (Stream.from_string (ws ++ tok ++ rest)) in
    snd r = Stream.from_string rest
    /\ (fst r = Compression.LasZip <->
          Utils.toupper tok = "LASZIP" \/ Utils.toupper tok = "TRUE")
    /\ (fst r = Compression.LazPerf <-> Utils.toupper tok = "LAZPERF")
    /\ (fst r = Compression.None <->
          Utils.toupper tok <> "LASZIP" /\ Utils.toupper tok <> "TRUE"
          /\ Utils.toupper tok <> "LAZPERF").
Proof.
  intros ws tok rest Hws Htok Hrest r. subst r.
  rewrite (read_spaced ws tok rest Hws Htok Hrest). simpl.
  destruct (String.eqb_spec (Utils.toupper tok) "LASZIP") as [E1|N1];
    [| destruct (String.eqb_spec (Utils.toupper tok) "TRUE") as [E2|N2];
       [| destruct (String.eqb_spec (Utils.toupper tok) "LAZPERF") as [E3|N3]]];
    simpl; repeat split; intros; try discriminate; auto;
    try (rewrite E1 in *); try (rewrite E2 in *); try (rewrite E3 in *);
    try discriminate; try tauto;
    repeat match goal with
      | H : _ \/ _ |- _ => destruct H
      | H : _ /\ _ |- _ => destruct H
      end; try discriminate; try congruence.
Qed.

Lemma compression_read_characterised_witness :
  CompressionIO.all_space "  " = true
  /\ Compression.is_token "true" /\ Compression.ends_word " x"
  /\ Compression.read (Stream.from_string "  true x")
     = (Compression.LasZip, Stream.from_string " x").
Proof.
  assert (Hws : CompressionIO.all_space "  " = true) by reflexivity.
  assert (Htok : Compression.is_token "true")
    by (split; [discriminate | reflexivity]).
  assert (Hrest : Compression.ends_word " x") by reflexivity.
  split; [exact Hws | split; [exact Htok | split; [exact Hrest |]]].
  pose proof (compression_read_characterised "  " "true" " x" Hws Htok Hrest)
    as [Hs [Hl _]].
  apply injective_projections; [apply Hl; right; reflexivity | exact Hs].
Defined.

(** X2. A stream with nothing but white space left, or one whose fail bit
    is already set, reads as [None]; in the first case the fail bit is
    raised and the stream emptied, in the second the stream is untouched. *)
Theorem compression_read_nothing :
  (forall ws : string,
      CompressionIO.all_space ws = true ->
      Compression.read (Stream.from_string ws)
      = (Compression.None, Stream.mkIstream EmptyString true))
  /\ (forall i : Stream.istream,
         Stream.in_fail i = true ->
         Compression.read i = (Compression.None, i)).
Proof.
  split.
  - intros ws Hws. exact (read_only_space ws Hws).
  - intros i Hi. unfold Compression.read, Stream.extract_word. now rewrite Hi.
Qed.

Lemma compression_read_nothing_witness :
  Compression.read (Stream.from_string "   ")
  = (Compression.None, Stream.mkIstream EmptyString true)
  /\ Compression.read (Stream.mkIstream "LasZip" true)
     = (Compression.None, Stream.mkIstream "LasZip" true).
Proof.
  split.
  - apply (proj1 compression_read_nothing "   "). reflexivity.
  - apply (proj2 compression_read_nothing (Stream.mkIstream "LasZip" true)).
    reflexivity.
Defined.

(** X3. Values written one after another, each after a blank, are read
    back in the same order by as many extractions, which consume exactly
    what was written; one extraction more finds nothing, gives [None] and
    raises the fail bit. *)
Theorem compression_sequence_roundtrip :
  forall cs : list Compression.t,
    CompressionIO.read_all (List.length cs)
      (Stream.from_string (CompressionIO.write_all EmptyString cs))
    = (cs, Stream.from_string EmptyString)
    /\ CompressionIO.read_all (S (List.length cs))
         (Stream.from_string (CompressionIO.write_all EmptyString cs))
       = ((cs ++ [Compression.None])%list, Stream.mkIstream EmptyString true).
Proof.
  intros cs.
  pose proof (read_all_written cs EmptyString I) as H.
  rewrite append_empty_r in H. split; [exact H|].
  rewrite read_all_snoc, H.
  now rewrite (read_only_space EmptyString eq_refl).
Qed.

(* ----------------------------------------------------------------- *)
(** ** ExtraDim: the comparison as a relation, and on constructed values *)

Lemma extradim_eqb_true (a b : ExtraDim.t) :
  ExtraDim.eqb a b = true <->
    ExtraDim.m_name a = ExtraDim.m_name b
    /\ m_type (ExtraDim.m_dimType a) = m_type (ExtraDim.m_dimType b)
    /\ ExtraDim.m_size a = ExtraDim.m_size b.
Proof.
  unfold ExtraDim.eqb.
  rewrite !andb_true_iff, String.eqb_eq, Type_eqb_eq, Z.eqb_eq. tauto.
Qed.

Lemma extradim_eqb_false (a b : ExtraDim.t) :
  ExtraDim.eqb a b = false <->
    ~ (ExtraDim.m_name a = ExtraDim.m_name b
       /\ m_type (ExtraDim.m_dimType a) = m_type (ExtraDim.m_dimType b)
       /\ ExtraDim.m_size a = ExtraDim.m_size b).
Proof.
  rewrite <- extradim_eqb_true. now destruct (ExtraDim.eqb a b).
Qed.

(** X4. [operator==] on [ExtraDim] is an equivalence relation: reflexive,
    symmetric and transitive. *)
Theorem extradim_eq_equivalence :
  (forall a : ExtraDim.t, ExtraDim.eqb a a = true)
  /\ (forall a b : ExtraDim.t, ExtraDim.eqb a b = ExtraDim.eqb b a)
  /\ (forall a b c : ExtraDim.t,
         ExtraDim.eqb a b = true -> ExtraDim.eqb b c = true ->
         ExtraDim.eqb a c = true).
Proof.
  split; [|split].
  - intros a. now apply extradim_eqb_true.
  - intros a b. destruct (ExtraDim.eqb b a) eqn:E.
    + apply extradim_eqb_true in E. apply extradim_eqb_true.
      destruct E as (? & ? & ?). auto.
    + apply extradim_eqb_false in E. apply extradim_eqb_false.
      intros (? & ? & ?). apply E. auto.
  - intros a b c Hab Hbc.
    apply extradim_eqb_true in Hab, Hbc. apply extradim_eqb_true.
    destruct Hab as (? & ? & ?), Hbc as (? & ? & ?).
    repeat split; congruence.
Qed.

Lemma extradim_eq_equivalence_witness :
  let a := ExtraDim.of_type "Flags" Dimension.Unsigned16 34 1 0 in
  let b := ExtraDim.of_type "Flags" Dimension.Unsigned16 40 0.5 2 in
  let c := ExtraDim.of_size "Flags" 2 36 in
  let c' := ExtraDim.mk "Flags" (mkDimType (Dimension.Known 7)
                                   Dimension.Unsigned16 unit_xform) 2 0 in
  ExtraDim.eqb a b = true /\ ExtraDim.eqb b c' = true
  /\ ExtraDim.eqb a c' = true /\ ExtraDim.eqb a c = false.
Proof.
  intros a b c c'.
  assert (Hab : ExtraDim.eqb a b = true) by reflexivity.
  assert (Hbc : ExtraDim.eqb b c' = true) by reflexivity.
  split; [exact Hab | split; [exact Hbc | split; [| reflexivity]]].
  exact (proj2 (proj2 extradim_eq_equivalence) a b c' Hab Hbc).
Defined.

(** X5. On values built by the constructors: two typed extra dimensions
    compare equal exactly when their names and types agree (offsets, scale
    and offset of the transform do not matter, the size follows from the
    type); two raw ones exactly when their names and sizes agree; and a raw
    one never equals a typed one whose type is not [None]. *)
Theorem extradim_constructed_compare :
  forall (n1 n2 : string) (t1 t2 : Dimension.Type_) (o1 o2 : Z)
         (s1 s2 f1 f2 : float) (sz1 sz2 : Z),
    (ExtraDim.eqb (ExtraDim.of_type n1 t1 o1 s1 f1)
                  (ExtraDim.of_type n2 t2 o2 s2 f2) = true
     <-> n1 = n2 /\ t1 = t2)
    /\ (ExtraDim.eqb (ExtraDim.of_size n1 sz1 o1)
                     (ExtraDim.of_size n2 sz2 o2) = true
        <-> n1 = n2 /\ sz1 = sz2)
    /\ (t2 <> Dimension.None ->
        ExtraDim.eqb (ExtraDim.of_size n1 sz1 o1)
                     (ExtraDim.of_type n2 t2 o2 s2 f2) = false).
Proof.
  intros. split; [|split].
  - rewrite extradim_eqb_true. simpl. split.
    + intros (? & ? & _). auto.
    + intros [-> ->]. auto.
  - rewrite extradim_eqb_true. simpl. tauto.
  - intros Ht. apply extradim_eqb_false. simpl. intros (_ & H & _).
    apply Ht. now symmetry.
Qed.

Lemma extradim_constructed_compare_witness :
  Dimension.Double <> Dimension.None
  /\ ExtraDim.eqb (ExtraDim.of_size "Height" 8 30)
                  (ExtraDim.of_type "Height" Dimension.Double 30 1 0) = false.
Proof.
  assert (H : Dimension.Double <> Dimension.None) by discriminate.
  split; [exact H |].
  exact (proj2 (proj2 (extradim_constructed_compare
                         "Height" "Height" Dimension.None Dimension.Double
                         30 30 1 1 0 0 8 8)) H).
Defined.

(* ----------------------------------------------------------------- *)
(** ** ExtraBytesIf: nothing is left uninitialised *)

(** X6. Both constructors assign every element of [m_scale] and
    [m_offset]: the object built does not depend on what the arrays held
    before. Every object they build has a field count within 0..3, as the
    member's comment requires, and size 0. *)
Theorem extra_bytes_ctor_initialises :
  (forall s0 o0 s1 o1 : ExtraBytesIf.double3,
      ExtraBytesIf.default s0 o0 = ExtraBytesIf.default s1 o1)
  /\ (forall (s0 o0 s1 o1 : ExtraBytesIf.double3) name type description,
         ExtraBytesIf.make s0 o0 name type description
         = ExtraBytesIf.make s1 o1 name type description)
  /\ (forall eb : ExtraBytesIf.t,
         ExtraBytesIf.constructed eb ->
         0 <= ExtraBytesIf.m_fieldCnt eb <= 3 /\ ExtraBytesIf.m_size eb = 0).
Proof.
  split; [|split].
  - intros. now rewrite !default_fields.
  - intros. now rewrite !make_fields.
  - intros eb [s0 o0 | s0 o0 name type description].
    + rewrite default_fields. simpl. lia.
    + rewrite make_fields. simpl.
      destruct (Dimension.Type_eqb type Dimension.None); lia.
Qed.

Lemma extra_bytes_ctor_initialises_witness :
  let junk := ExtraBytesIf.mkDouble3 infinity nan (-1) in
  let eb := ExtraBytesIf.make junk junk "Flags" Dimension.Signed8 "" in
  ExtraBytesIf.constructed eb
  /\ 0 <= ExtraBytesIf.m_fieldCnt eb <= 3 /\ ExtraBytesIf.m_size eb = 0.
Proof.
  intros junk eb.
  assert (Hc : ExtraBytesIf.constructed eb) by apply ExtraBytesIf.by_make.
  split; [exact Hc |].
  exact (proj2 (proj2 extra_bytes_ctor_initialises) eb Hc).
Defined.

(* ================================================================= *)
(** * The TileDB writer's point cache *)

Section CacheFacts.
Import TileDB.

Variable Point : Type.
Variables getX getY getZ getGpsTime : Point -> float.
Variable everything : Dimension.Type_ -> Dimension.Id -> Point -> list Byte.byte.
Variable submit : nat -> Query -> Status.
Variable args : Args.

(** The union is eight bytes wide. *)
Hypothesis everything_size :
  forall type id point, List.length (everything type id point) = 8%nat.

(** The cache holds at least one point, and its buffers are addressable. *)
Hypothesis cache_positive : 0 < m_cache_size args.
Hypothesis cache_addressable : m_cache_size args * 8 < 2 ^ 64.

Lemma size_typed (type : Dimension.Type_) :
  type <> Dimension.None -> 0 < Dimension.size type <= 8.
Proof. destruct type; simpl; intros H; try lia. congruence. Qed.

Lemma size_bounds (type : Dimension.Type_) : 0 <= Dimension.size type <= 8.
Proof. destruct type; simpl; lia. Qed.

Lemma memcpy_inside (dst src : list Byte.byte) (off n : Z) :
  0 <= off -> 0 <= n -> off + n <= Z.of_nat (List.length dst) ->
  n <= Z.of_nat (List.length src) ->
  memcpy dst off src n =
    Some (firstn (Z.to_nat off) dst ++ firstn (Z.to_nat n) src
            ++ skipn (Z.to_nat (off + n)) dst)%list.
Proof.
  intros H1 H2 H3 H4. unfold memcpy.
  apply Z.leb_le in H1, H2, H3, H4. now rewrite H1, H2, H3, H4.
Qed.

Lemma memcpy_outside (dst src : list Byte.byte) (off n : Z) :
  Z.of_nat (List.length dst) < off + n -> memcpy dst off src n = Datatypes.None.
Proof.
  intros H. unfold memcpy. apply Z.leb_gt in H. rewrite H.
  now rewrite !andb_false_r.
Qed.

Lemma value_length type id point :
  List.length (value Point everything type id point)
  = Z.to_nat (Dimension.size type).
Proof.
  unfold value. rewrite length_firstn, everything_size.
  pose proof (size_bounds type). lia.
Qed.

(** The effect of one store on a buffer with room for the cache. *)
Lemma writeAttributeValue_sized (a : DimBuffer) (point : Point) (idx : Z) :
  sized args a -> m_type a <> Dimension.None ->
  0 <= idx < m_cache_size args ->
  exists buf,
    writeAttributeValue Point everything a point idx
    = Done (mkDimBuffer (m_name a) (m_id a) (m_type a) buf)
    /\ List.length buf = List.length (m_buffer a)
    /\ buf = (firstn (Z.to_nat (idx * Dimension.size (m_type a))) (m_buffer a)
              ++ value Point everything (m_type a) (m_id a) point
              ++ skipn (Z.to_nat ((idx + 1) * Dimension.size (m_type a)))
                   (m_buffer a))%list.
Proof.
  intros Hsized Htype Hidx. unfold sized in Hsized.
  pose proof (size_typed _ Htype) as Hs.
  set (s := Dimension.size (m_type a)) in *.
  assert (Hoff : to_size_t (idx * s) = idx * s).
  { unfold to_size_t. apply Z.mod_small. nia. }
  assert (Hcopy : memcpy (m_buffer a) (idx * s)
                    (everything (m_type a) (m_id a) point) s
                  = Some (firstn (Z.to_nat (idx * s)) (m_buffer a)
                          ++ firstn (Z.to_nat s)
                               (everything (m_type a) (m_id a) point)
                          ++ skipn (Z.to_nat (idx * s + s)) (m_buffer a))%list).
  { apply memcpy_inside; try nia. rewrite everything_size. lia. }
  exists (firstn (Z.to_nat (idx * s)) (m_buffer a)
          ++ firstn (Z.to_nat s) (everything (m_type a) (m_id a) point)
          ++ skipn (Z.to_nat (idx * s + s)) (m_buffer a))%list.
  repeat split.
  - unfold writeAttributeValue. subst s. revert Hoff Hcopy.
    destruct (m_type a) eqn:E; try congruence;
      intros Hoff Hcopy; now rewrite Hoff, Hcopy.
  - rewrite !length_app, length_firstn, length_firstn, length_skipn.
    rewrite everything_size. nia.
  - unfold value. fold s. do 3 f_equal. lia.
Qed.

Lemma writeAttributeValue_none (a : DimBuffer) (point : Point) (idx : Z) :
  m_type a = Dimension.None ->
  writeAttributeValue Point everything a point idx
  = Raise ("Unsupported attribute type for " ++ m_name a).
Proof. intros H. unfold writeAttributeValue. now rewrite H. Qed.

(** The attribute loop keeps every buffer's size and stays inside them. *)
Lemma write_attrs_sized (point : Point) (idx : Z) (attrs : list DimBuffer) :
  Forall (sized args) attrs -> 0 <= idx < m_cache_size args ->
  Forall (sized args) (fst (write_attrs Point everything attrs point idx))
  /\ snd (write_attrs Point everything attrs point idx) <> OutOfBounds.
Proof.
  intros Hall Hidx. induction Hall as [|a rest Ha Hrest IH]; simpl.
  - split; [constructor | discriminate].
  - destruct (Dimension.Type_eq_dec (m_type a) Dimension.None) as [E|N].
    + rewrite (writeAttributeValue_none a point idx E). simpl.
      split; [now constructor | discriminate].
    + destruct (writeAttributeValue_sized a point idx Ha N Hidx)
        as (buf & -> & Hlen & _).
      destruct (write_attrs Point everything rest point idx) as [rest' r].
      simpl in *. destruct IH as [IH1 IH2]. split; [|exact IH2].
      constructor; [|exact IH1].
      unfold sized in *. simpl. now rewrite Hlen.
Qed.

(** The attribute loop ends normally only when every buffer is typed; it
    changes no name, id or type. *)
Lemma write_attrs_done_typed (point : Point) (idx : Z) (attrs : list DimBuffer) :
  snd (write_attrs Point everything attrs point idx) = Done tt ->
  Forall typed attrs
  /\ Forall typed (fst (write_attrs Point everything attrs point idx)).
Proof.
  induction attrs as [|a rest IH]; simpl; intros H; [split; constructor|].
  unfold writeAttributeValue in *.
  destruct (m_type a) eqn:E; try discriminate;
    match goal with
    | H : context [memcpy ?d ?o ?e ?n] |- _ =>
        destruct (memcpy d o e n); try discriminate
    end;
    destruct (write_attrs Point everything rest point idx) as [rest' r];
    simpl in *; destruct (IH H) as [IH1 IH2];
    (split; constructor; try assumption; unfold typed; simpl; congruence).
Qed.

Lemma set_buffers_typed (size : Z) (attrs : list DimBuffer) :
  Forall typed attrs ->
  set_buffers attrs size
  = Done (map (fun a => mkBuffer (m_name a) (m_type a) (m_buffer a) size) attrs).
Proof.
  induction 1 as [|a rest Ha _ IH]; simpl; [reflexivity|].
  rewrite IH. unfold typed in Ha. destruct (m_type a); congruence.
Qed.

Lemma flushCache_outcome (size : Z) (w : t) :
  snd (flushCache submit args size w) <> OutOfBounds.
Proof.
  unfold flushCache.
  assert (H : forall attrs, set_buffers attrs size <> OutOfBounds).
  { induction attrs as [|a rest IH]; simpl; [discriminate|].
    destruct (m_type a); try discriminate;
      destruct (set_buffers rest size); congruence. }
  specialize (H (m_attrs w)).
  destruct (set_buffers (m_attrs w) size); simpl; congruence.
Qed.

Lemma flushCache_resets (size : Z) (w w' : t) (r : outcome bool) :
  flushCache submit args size w = (w', r) ->
  (exists b, r = Done b) ->
  m_current_idx w' = 0 /\ m_xs w' = [] /\ m_ys w' = [] /\ m_zs w' = []
  /\ m_tms w' = [] /\ m_attrs w' = m_attrs w /\ m_use_time w' = m_use_time w.
Proof.
  unfold flushCache. intros H [b ->].
  destruct (set_buffers (m_attrs w) size); try discriminate.
  injection H as <- _. simpl. repeat split.
Qed.

Lemma flushCache_keeps (size : Z) (w w' : t) (what : string) :
  flushCache submit args size w = (w', Raise what) -> w' = w.
Proof.
  unfold flushCache. intros H.
  destruct (set_buffers (m_attrs w) size); try discriminate.
  now injection H as <- _.
Qed.

Lemma processOne_cache_ok (point : Point) (w : t) :
  cache_ok args w ->
  cache_ok args (fst (processOne Point getX getY getZ getGpsTime everything
                        submit args point w))
  /\ snd (processOne Point getX getY getZ getGpsTime everything
            submit args point w) <> OutOfBounds.
Proof.
  intros (Hidx & Hx & Hy & Hz & Ht & Hattrs).
  unfold processOne.
  destruct (write_attrs_sized point (m_current_idx w) (m_attrs w) Hattrs Hidx)
    as [Hs Hr].
  pose proof (write_attrs_done_typed point (m_current_idx w) (m_attrs w)) as Hty.
  destruct (write_attrs Point everything (m_attrs w) point (m_current_idx w))
    as [attrs r]. simpl in Hs, Hr, Hty.
  destruct r as [[]|what|]; [| | congruence].
  2: { simpl. split; [|discriminate].
       unfold cache_ok; simpl. repeat split; try assumption; lia. }
  destruct (Hty eq_refl) as [_ Htyped].
  assert (Hnext : to_size_t (m_current_idx w + 1) = m_current_idx w + 1).
  { unfold to_size_t. apply Z.mod_small. lia. }
  rewrite Hnext.
  destruct (Z.eqb_spec (m_current_idx w + 1) (m_cache_size args)) as [E|N].
  - match goal with |- context [flushCache submit args ?s ?w1] =>
      pose proof (flushCache_outcome s w1) as Hout;
      pose proof (flushCache_resets s w1) as Hres;
      pose proof (flushCache_keeps s w1) as Hkeep;
      destruct (flushCache submit args s w1) as [w2 r2] eqn:Heqf
    end.
    simpl in Hout.
    destruct r2 as [[|]|what|]; [| | | congruence].
    + destruct (Hres w2 _ eq_refl (ex_intro _ true eq_refl))
        as (H0 & H1 & H2 & H3 & H4 & H5 & H6).
      simpl. split; [|discriminate].
      unfold cache_ok. rewrite H0, H1, H2, H3, H4, H5. simpl.
      repeat split; try lia; try assumption. now destruct (m_use_time w2).
    + destruct (Hres w2 _ eq_refl (ex_intro _ false eq_refl))
        as (H0 & H1 & H2 & H3 & H4 & H5 & H6).
      simpl. split; [|discriminate].
      unfold cache_ok. rewrite H0, H1, H2, H3, H4, H5. simpl.
      repeat split; try lia; try assumption. now destruct (m_use_time w2).
    + exfalso. clear Hkeep Hres Hout. revert Heqf.
      unfold flushCache. simpl.
      rewrite (set_buffers_typed _ attrs Htyped). discriminate.
  - simpl. split; [|discriminate].
    unfold cache_ok. simpl. rewrite !length_app. simpl.
    repeat split; try lia; try assumption.
    destruct (m_use_time w); [rewrite length_app; simpl|]; lia.
Qed.

(** X7. However many points are written, whatever their attribute types
    and whatever TileDB answers to a submission: no store leaves an
    attribute buffer, and between calls the index stays below the cache
    size and equals the number of cached X, Y and Z (and GpsTime, when
    time is a dimension) coordinates, each buffer keeping its size. *)
Theorem write_keeps_cache :
  forall (view : list Point) (w : t),
    cache_ok args w ->
    cache_ok args (fst (write Point getX getY getZ getGpsTime everything
                          submit args view w))
    /\ snd (write Point getX getY getZ getGpsTime everything
              submit args view w) <> OutOfBounds.
Proof.
  induction view as [|point rest IH]; intros w Hw; simpl.
  - split; [exact Hw | discriminate].
  - destruct (processOne_cache_ok point w Hw) as [Hok Hout].
    destruct (processOne Point getX getY getZ getGpsTime everything
                submit args point w) as [w' [b|what|]]; simpl in *.
    + now apply IH.
    + split; [exact Hok | discriminate].
    + congruence.
Qed.

Lemma write_attrs_typed (point : Point) (idx : Z) (attrs : list DimBuffer) :
  Forall (sized args) attrs -> Forall typed attrs ->
  0 <= idx < m_cache_size args ->
  snd (write_attrs Point everything attrs point idx) = Done tt
  /\ Forall typed (fst (write_attrs Point everything attrs point idx)).
Proof.
  intros Hsized Htyped Hidx. induction attrs as [|a rest IH]; simpl.
  - split; [reflexivity | constructor].
  - inversion Hsized as [|? ? Hs1 Hs2]; subst.
    inversion Htyped as [|? ? Ht1 Ht2]; subst.
    destruct (writeAttributeValue_sized a point idx Hs1 Ht1 Hidx)
      as (buf & -> & _ & _).
    destruct (IH Hs2 Ht2) as [IH1 IH2].
    destruct (write_attrs Point everything rest point idx) as [rest' r].
    simpl in *. split; [exact IH1 | constructor; [exact Ht1 | exact IH2]].
Qed.

(** X8. When the submission of the chunk that fills the cache fails,
    [processOne] throws and [write] stops there, leaving the rest of the
    view unread; the query has been submitted with the chunk, and the
    writer no longer caches any of its points. *)
Theorem failed_flush_drops_chunk :
  forall (w : t) (point : Point) (rest : list Point),
    cache_ok args w -> Forall typed (m_attrs w) ->
    m_current_idx w + 1 = m_cache_size args ->
    (forall q, submit (submissions (events w)) q = FAILED) ->
    exists (w' : t) (q : Query),
      processOne Point getX getY getZ getGpsTime everything submit args point w
      = (w', Raise flush_failed)
      /\ write Point getX getY getZ getGpsTime everything submit args
           (point :: rest) w
         = (w', Raise flush_failed)
      /\ events w' = (events w ++ Submit q
                        :: (if m_stats args then [StatsDump] else []))%list
      /\ q_xs q = (m_xs w ++ [getX point])%list
      /\ q_ys q = (m_ys w ++ [getY point])%list
      /\ q_zs q = (m_zs w ++ [getZ point])%list
      /\ m_current_idx w' = 0
      /\ m_xs w' = [] /\ m_ys w' = [] /\ m_zs w' = [] /\ m_tms w' = [].
Proof.
  intros w point rest (Hidx & _ & _ & _ & _ & Hsized) Htyped Hfull Hfail.
  destruct (write_attrs_typed point (m_current_idx w) (m_attrs w)
              Hsized Htyped Hidx) as [Hdone Htyped'].
  assert (Hp : exists w' q,
             processOne Point getX getY getZ getGpsTime everything submit args
               point w = (w', Raise flush_failed)
             /\ events w' = (events w ++ Submit q
                               :: (if m_stats args then [StatsDump] else []))%list
             /\ q_xs q = (m_xs w ++ [getX point])%list
             /\ q_ys q = (m_ys w ++ [getY point])%list
             /\ q_zs q = (m_zs w ++ [getZ point])%list
             /\ m_current_idx w' = 0
             /\ m_xs w' = [] /\ m_ys w' = [] /\ m_zs w' = [] /\ m_tms w' = []).
  { unfold processOne.
    destruct (write_attrs Point everything (m_attrs w) point (m_current_idx w))
      as [attrs r]. simpl in Hdone, Htyped'. subst r.
    assert (Hnext : to_size_t (m_current_idx w + 1) = m_cache_size args).
    { unfold to_size_t. rewrite Hfull. apply Z.mod_small. lia. }
    rewrite Hnext, Z.eqb_refl. unfold flushCache. simpl.
    rewrite (set_buffers_typed _ attrs Htyped').
    rewrite Hfail. simpl.
    eexists. eexists. split; [reflexivity|]. simpl. repeat split. }
  destruct Hp as (w' & q & Hp & Hrest).
  exists w', q. split; [exact Hp|]. split; [| exact Hrest].
  simpl. now rewrite Hp.
Qed.

Lemma write_attrs_stops (point : Point) (idx : Z) (a : DimBuffer)
    (after : list DimBuffer) :
  m_type a = Dimension.None -> 0 <= idx < m_cache_size args ->
  forall before,
    Forall (sized args) before -> Forall typed before ->
    exists before',
      write_attrs Point everything (before ++ a :: after) point idx
      = ((before' ++ a :: after)%list,
         Raise ("Unsupported attribute type for " ++ m_name a))
      /\ Forall2 (stored Point everything point idx) before before'.
Proof.
  intros Hnone Hidx. induction before as [|b before IH]; intros Hsized Htyped.
  - exists []. simpl. rewrite (writeAttributeValue_none a point idx Hnone).
    split; [reflexivity | constructor].
  - inversion Hsized as [|? ? Hs1 Hs2]; subst.
    inversion Htyped as [|? ? Ht1 Ht2]; subst.
    destruct (IH Hs2 Ht2) as (before' & Hw & Hsame).
    destruct (writeAttributeValue_sized b point idx Hs1 Ht1 Hidx)
      as (buf & Hv & _ & Hbuf).
    exists (mkDimBuffer (m_name b) (m_id b) (m_type b) buf :: before').
    simpl. rewrite Hv, Hw. split; [reflexivity|].
    constructor; [|exact Hsame].
    split; [repeat split | exact Hbuf].
Qed.

(** X21. An attribute without a type stops [processOne] with the error
    that names it. Each buffer before it has by then taken the point's
    value, stored at the index in the place of what was there, the other
    bytes untouched; the untyped buffer and those after it are as they
    were; no coordinate is cached, the index does not move and nothing is
    submitted. *)
Theorem untyped_attribute_stops :
  forall (w : t) (point : Point) (before after : list DimBuffer) (a : DimBuffer),
    m_attrs w = (before ++ a :: after)%list ->
    m_type a = Dimension.None ->
    Forall (sized args) before -> Forall typed before ->
    0 <= m_current_idx w < m_cache_size args ->
    exists (w' : t) (before' : list DimBuffer),
      processOne Point getX getY getZ getGpsTime everything submit args point w
      = (w', Raise ("Unsupported attribute type for " ++ m_name a))
      /\ m_attrs w' = (before' ++ a :: after)%list
      /\ Forall2 (stored Point everything point (m_current_idx w))
           before before'
      /\ m_current_idx w' = m_current_idx w
      /\ m_xs w' = m_xs w /\ m_ys w' = m_ys w /\ m_zs w' = m_zs w
      /\ m_tms w' = m_tms w
      /\ events w' = events w.
Proof.
  intros w point before after a Hattrs Hnone Hsized Htyped Hidx.
  destruct (write_attrs_stops point (m_current_idx w) a after Hnone Hidx
              before Hsized Htyped) as (before' & Hw & Hsame).
  unfold processOne. rewrite Hattrs, Hw.
  eexists. exists before'. split; [reflexivity|]. simpl. repeat split.
  exact Hsame.
Qed.

(** *** Following the points through the cache *)

Hypothesis submit_succeeds : forall n q, submit n q <> FAILED.

Lemma submitted_app (e1 e2 : list Event) :
  submitted (e1 ++ e2) = (submitted e1 ++ submitted e2)%list.
Proof.
  induction e1 as [|e e1 IH]; simpl; [reflexivity|].
  destruct e; simpl; now rewrite IH.
Qed.

Lemma submitted_flush (q : Query) :
  submitted (Submit q :: (if m_stats args then [StatsDump] else [])) = [q].
Proof. simpl. now destruct (m_stats args). Qed.

Lemma same_dim_typed (a0 a : DimBuffer) :
  same_dim a0 a -> typed a0 -> typed a.
Proof. intros (_ & _ & H) H0. unfold typed in *. congruence. Qed.

Lemma Forall2_same_dim_typed (l0 l : list DimBuffer) :
  Forall2 same_dim l0 l -> Forall typed l0 -> Forall typed l.
Proof.
  induction 1 as [|a0 a l0 l Ha _ IH]; intros H; [constructor|].
  inversion H; subst. constructor; [eapply same_dim_typed; eauto | auto].
Qed.

(** One store extends the filled front of the buffer by one value. *)
Lemma filled_step (cur : list Point) (point : Point) (a : DimBuffer)
    (buf : list Byte.byte) :
  sized args a -> typed a ->
  Z.of_nat (List.length cur) < m_cache_size args ->
  filled Point everything cur a ->
  buf = (firstn (Z.to_nat (Z.of_nat (List.length cur) * Dimension.size (m_type a)))
           (m_buffer a)
         ++ value Point everything (m_type a) (m_id a) point
         ++ skipn (Z.to_nat ((Z.of_nat (List.length cur) + 1)
                             * Dimension.size (m_type a))) (m_buffer a))%list ->
  filled Point everything (cur ++ [point])
    (mkDimBuffer (m_name a) (m_id a) (m_type a) buf).
Proof.
  intros Hsized Htyped Hlt Hfilled ->. unfold filled in *. simpl.
  unfold sized in Hsized. pose proof (size_typed _ Htyped) as Hs.
  set (s := Dimension.size (m_type a)) in *.
  set (k := List.length cur) in *.
  assert (Hk : Z.to_nat (Z.of_nat k * s) = (k * Z.to_nat s)%nat) by nia.
  rewrite Hk, Hfilled.
  rewrite length_app, map_app, concat_app. simpl. rewrite app_nil_r.
  assert (Hlen : List.length (List.concat (map (value Point everything (m_type a) (m_id a)) cur))
                 = (k * Z.to_nat s)%nat).
  { rewrite <- Hfilled. rewrite length_firstn. nia. }
  rewrite firstn_app, Hlen.
  rewrite firstn_all2 by (rewrite Hlen; nia).
  f_equal.
  rewrite firstn_app, value_length.
  rewrite firstn_all2 by (rewrite value_length; subst k s; nia).
  match goal with
  | |- (_ ++ firstn ?n _)%list = _ =>
      replace n with 0%nat by (subst k s; nia)
  end.
  simpl. now rewrite app_nil_r.
Qed.

(** The attribute loop on typed, sized buffers stores the point's value
    in each of them. *)
Lemma write_attrs_filled (cur : list Point) (point : Point)
    (attrs : list DimBuffer) :
  Forall (sized args) attrs -> Forall typed attrs ->
  Forall (filled Point everything cur) attrs ->
  Z.of_nat (List.length cur) < m_cache_size args ->
  exists attrs',
    write_attrs Point everything attrs point (Z.of_nat (List.length cur))
    = (attrs', Done tt)
    /\ Forall2 same_dim attrs attrs'
    /\ Forall (sized args) attrs'
    /\ Forall (filled Point everything (cur ++ [point])) attrs'.
Proof.
  intros Hsized Htyped Hfilled Hlt.
  induction attrs as [|a rest IH].
  - exists []. simpl. repeat split; constructor.
  - inversion Hsized as [|? ? Hs1 Hs2]; subst.
    inversion Htyped as [|? ? Ht1 Ht2]; subst.
    inversion Hfilled as [|? ? Hf1 Hf2]; subst.
    destruct (IH Hs2 Ht2 Hf2) as (rest' & Hw & Hsame & Hsz & Hfl).
    destruct (writeAttributeValue_sized a point (Z.of_nat (List.length cur))
                Hs1 Ht1 ltac:(lia)) as (buf & Hv & Hlen & Hbuf).
    exists (mkDimBuffer (m_name a) (m_id a) (m_type a) buf :: rest').
    simpl. rewrite Hv, Hw. repeat split.
    + constructor; [repeat split | exact Hsame].
    + constructor; [| exact Hsz]. unfold sized in *. simpl. now rewrite Hlen.
    + constructor; [| exact Hfl].
      now apply (filled_step cur point a buf Hs1 Ht1 Hlt Hf1).
Qed.

Lemma Forall2_same_dim_trans (l0 l1 l2 : list DimBuffer) :
  Forall2 same_dim l0 l1 -> Forall2 same_dim l1 l2 -> Forall2 same_dim l0 l2.
Proof.
  intros H. revert l2. induction H as [|a0 a1 l0 l1 Ha _ IH]; intros l2 H2;
    inversion H2; subst; constructor; [|now apply IH].
  destruct Ha as (? & ? & ?).
  match goal with H : same_dim a1 _ |- _ => destruct H as (? & ? & ?) end.
  repeat split; congruence.
Qed.

(** The buffers handed to a query hold a chunk once they are filled with
    it. *)
Lemma buffers_hold (chunk : list Point) (size : Z) (attrs0 attrs : list DimBuffer) :
  Forall2 same_dim attrs0 attrs ->
  Forall (filled Point everything chunk) attrs ->
  size = Z.of_nat (List.length chunk) ->
  Forall2
    (fun a b =>
       b_name b = m_name a /\ b_type b = m_type a
       /\ b_nelements b = Z.of_nat (List.length chunk)
       /\ firstn (List.length chunk * Z.to_nat (Dimension.size (m_type a)))
            (b_data b)
          = List.concat (map (value Point everything (m_type a) (m_id a)) chunk))
    attrs0
    (map (fun a => mkBuffer (m_name a) (m_type a) (m_buffer a) size) attrs).
Proof.
  intros Hsame Hfilled ->.
  induction Hsame as [|a0 a l0 l (Hn & Hi & Ht) _ IH]; simpl; [constructor|].
  inversion Hfilled as [|? ? Hf1 Hf2]; subst.
  constructor; [|now apply IH]. simpl.
  unfold filled in Hf1. rewrite Ht, Hi in Hf1.
  repeat split; auto.
Qed.

Lemma filled_nil (attrs : list DimBuffer) :
  Forall (filled Point everything []) attrs.
Proof. induction attrs; constructor; auto. reflexivity. Qed.

(** One point through [processOne]: it joins the cached points, and when
    that fills the cache the chunk goes out in one query. *)
Lemma processOne_cached (w0 w : t) (chunks : list (list Point))
    (cur : list Point) (point : Point) :
  Forall typed (m_attrs w0) ->
  cached Point getX getY getZ getGpsTime everything args w0 w chunks cur ->
  exists w' chunks' cur',
    processOne Point getX getY getZ getGpsTime everything submit args point w
    = (w', Done true)
    /\ cached Point getX getY getZ getGpsTime everything args w0 w' chunks' cur'
    /\ (List.concat chunks' ++ cur' = List.concat chunks ++ cur ++ [point])%list.
Proof.
  intros Htyped0
    (Hidx & Hlt & Huse & Hxs & Hys & Hzs & Htms & Hsame & Hsized & Hfilled
     & Hfull & qs & Hsub & Hholds).
  pose proof (Forall2_same_dim_typed _ _ Hsame Htyped0) as Htyped.
  destruct (write_attrs_filled cur point (m_attrs w) Hsized Htyped Hfilled Hlt)
    as (attrs' & Hw & Hsame' & Hsized' & Hfilled').
  pose proof (Forall2_same_dim_trans _ _ _ Hsame Hsame') as Hsame0.
  pose proof (Forall2_same_dim_typed _ _ Hsame0 Htyped0) as Htyped'.
  unfold processOne. rewrite Hidx, Hw.
  assert (Hnext : to_size_t (Z.of_nat (List.length cur) + 1)
                  = Z.of_nat (List.length cur) + 1).
  { unfold to_size_t. apply Z.mod_small. lia. }
  rewrite Hnext.
  destruct (Z.eqb_spec (Z.of_nat (List.length cur) + 1) (m_cache_size args))
    as [E|N].
  - unfold flushCache. simpl.
    rewrite (set_buffers_typed _ attrs' Htyped').
    match goal with
    | |- context [submit ?n ?q] =>
        set (query := q);
        assert (Hok : is_failed (submit n query) = false)
          by (pose proof (submit_succeeds n query);
              destruct (submit n query); simpl; congruence)
    end.
    rewrite Hok. simpl.
    eexists. exists (chunks ++ [cur ++ [point]])%list, [].
    split; [reflexivity | split].
    2: { rewrite concat_app. simpl. now rewrite !app_nil_r. }
    assert (Hlen : Z.of_nat (List.length (cur ++ [point])) = m_cache_size args)
      by (rewrite length_app; simpl; lia).
    unfold cached; simpl.
    split; [reflexivity|]. split; [lia|]. split; [exact Huse|].
    split; [reflexivity|]. split; [reflexivity|]. split; [reflexivity|].
    split; [now destruct (m_use_time w0)|].
    split; [exact Hsame0|]. split; [exact Hsized'|].
    split; [apply filled_nil|].
    split; [apply Forall_app; split; [exact Hfull | now repeat constructor]|].
    exists (qs ++ [query])%list. split.
    + rewrite submitted_app, submitted_flush, Hsub. now rewrite app_assoc.
    + apply Forall2_app; [exact Hholds | constructor; [|constructor]].
      unfold holds, query; simpl.
      rewrite Hxs, Hys, Hzs, Htms, Huse, !map_app. simpl.
      split; [reflexivity|]. split; [reflexivity|]. split; [reflexivity|].
      split; [now destruct (m_use_time w0)|].
      apply buffers_hold; [exact Hsame0 | exact Hfilled' | lia].
  - exists {| m_current_idx := Z.of_nat (List.length cur) + 1;
              m_use_time := m_use_time w;
              m_attrs := attrs';
              m_xs := m_xs w ++ [getX point];
              m_ys := m_ys w ++ [getY point];
              m_zs := m_zs w ++ [getZ point];
              m_tms := if m_use_time w
                       then m_tms w ++ [if m_use_time w then getGpsTime point
                                        else 0%float]
                       else m_tms w;
              events := events w |}, chunks, (cur ++ [point])%list.
    split; [reflexivity | split; [| now rewrite app_assoc]].
    unfold cached; simpl. rewrite Hxs, Hys, Hzs, Htms, Huse, !map_app, length_app.
    simpl. repeat split; try assumption; try lia.
    + now destruct (m_use_time w0).
    + exists qs. split; assumption.
Qed.

Lemma write_cached (w0 : t) (view : list Point) :
  Forall typed (m_attrs w0) ->
  forall (w : t) (chunks : list (list Point)) (cur : list Point),
    cached Point getX getY getZ getGpsTime everything args w0 w chunks cur ->
    exists w' chunks' cur',
      write Point getX getY getZ getGpsTime everything submit args view w
      = (w', Done tt)
      /\ cached Point getX getY getZ getGpsTime everything args w0 w' chunks' cur'
      /\ (List.concat chunks' ++ cur' = List.concat chunks ++ cur ++ view)%list.
Proof.
  intros Htyped0. induction view as [|point rest IH]; intros w chunks cur Hc.
  - exists w, chunks, cur. simpl. now rewrite app_nil_r.
  - destruct (processOne_cached w0 w chunks cur point Htyped0 Hc)
      as (w1 & chunks1 & cur1 & Hp & Hc1 & Heq1).
    destruct (IH w1 chunks1 cur1 Hc1) as (w' & chunks' & cur' & Hw & Hc' & Heq).
    exists w', chunks', cur'. simpl. rewrite Hp.
    split; [exact Hw | split; [exact Hc' |]].
    rewrite Heq, app_assoc, Heq1. now rewrite <- !app_assoc.
Qed.

Lemma empty_cache_cached (w0 : t) :
  empty_cache args w0 ->
  cached Point getX getY getZ getGpsTime everything args w0 w0 [] [].
Proof.
  intros (Hidx & Hxs & Hys & Hzs & Htms & Hsized & Htyped).
  unfold cached. rewrite Hidx, Hxs, Hys, Hzs, Htms. simpl.
  repeat split; try assumption; try lia.
  - now destruct (m_use_time w0).
  - clear. induction (m_attrs w0); constructor; auto. repeat split.
  - apply filled_nil.
  - constructor.
  - exists []. split; [now rewrite app_nil_r | constructor].
Qed.

(** X9. Starting with an empty cache and typed buffers of the right
    size, and as long as no submission fails, [write] goes through the whole
    view: the points leave in chunks of exactly [m_cache_size] points, in
    order, one query per chunk, each query holding the coordinates and, at
    the front of each buffer, the attribute values of the points of its
    chunk; what is left, fewer than [m_cache_size] points, is cached. *)
Theorem write_submits_full_chunks :
  forall (w0 : t) (view : list Point),
    empty_cache args w0 ->
    exists (w : t) (chunks : list (list Point)) (cur : list Point),
      write Point getX getY getZ getGpsTime everything submit args view w0
      = (w, Done tt)
      /\ view = (List.concat chunks ++ cur)%list
      /\ cached Point getX getY getZ getGpsTime everything args w0 w chunks cur.
Proof.
  intros w0 view Hempty.
  destruct (write_cached w0 view (proj2 (proj2 (proj2 (proj2 (proj2 (proj2 Hempty))))))
              w0 [] [] (empty_cache_cached w0 Hempty))
    as (w & chunks & cur & Hw & Hc & Heq).
  exists w, chunks, cur. split; [exact Hw | split; [| exact Hc]].
  now rewrite Heq.
Qed.

(** What [done] does to a writer that caches [cur]. *)
Lemma done_cached (w0 w : t) (chunks : list (list Point)) (cur : list Point) :
  Forall typed (m_attrs w0) ->
  cached Point getX getY getZ getGpsTime everything args w0 w chunks cur ->
  exists (w' : t) (q : Query),
    done submit args w = (w', Done tt)
    /\ events w' = (events w ++ Submit q
                      :: (if m_stats args then [StatsDump] else [])
                      ++ (if m_append args then [] else [PutMetadata])
                      ++ [Close])%list
    /\ holds Point getX getY getZ getGpsTime everything
         (m_use_time w0) (m_attrs w0) cur q
    /\ m_current_idx w' = 0 /\ m_xs w' = [] /\ m_ys w' = [] /\ m_zs w' = []
    /\ m_tms w' = [].
Proof.
  intros Htyped0
    (Hidx & Hlt & Huse & Hxs & Hys & Hzs & Htms & Hsame & Hsized & Hfilled
     & Hfull & qs & Hsub & Hholds).
  pose proof (Forall2_same_dim_typed _ _ Hsame Htyped0) as Htyped.
  unfold done, flushCache.
  rewrite (set_buffers_typed _ (m_attrs w) Htyped).
  match goal with
  | |- context [submit ?n ?q] =>
      set (query := q);
      assert (Hok : is_failed (submit n query) = false)
        by (pose proof (submit_succeeds n query);
            destruct (submit n query); simpl; congruence)
  end.
  rewrite Hok. simpl.
  eexists. exists query. split; [reflexivity|]. simpl.
  split; [now rewrite <- app_assoc|].
  split; [| repeat split].
  unfold holds, query; simpl. rewrite Hxs, Hys, Hzs, Htms, Huse.
  split; [reflexivity|]. split; [reflexivity|]. split; [reflexivity|].
  split; [now destruct (m_use_time w0)|].
  apply buffers_hold; [exact Hsame | exact Hfilled | exact Hidx].
Qed.

(** X10. [write] followed by [done], from an empty cache and with no
    failing submission: every point of the view is submitted exactly once,
    in the order of the view, the last query taking what was still cached
    (it is submitted even when that is nothing); then the metadata are put
    unless the array is appended to, the array is closed, and the cache is
    empty again. *)
Theorem write_done_submits_every_point :
  forall (w0 : t) (view : list Point),
    empty_cache args w0 ->
    exists (w w' : t) (chunks : list (list Point)) (last : list Point)
           (qs : list Query) (q : Query),
      write Point getX getY getZ getGpsTime everything submit args view w0
      = (w, Done tt)
      /\ done submit args w = (w', Done tt)
      /\ view = (List.concat chunks ++ last)%list
      /\ Forall (fun c => Z.of_nat (List.length c) = m_cache_size args) chunks
      /\ Z.of_nat (List.length last) < m_cache_size args
      /\ submitted (events w') = (submitted (events w0) ++ qs ++ [q])%list
      /\ Forall2 (holds Point getX getY getZ getGpsTime everything
                    (m_use_time w0) (m_attrs w0)) chunks qs
      /\ holds Point getX getY getZ getGpsTime everything
           (m_use_time w0) (m_attrs w0) last q
      /\ (exists evs,
            events w' = (evs ++ (if m_append args then [] else [PutMetadata])
                             ++ [Close])%list)
      /\ m_current_idx w' = 0 /\ m_xs w' = [] /\ m_ys w' = [] /\ m_zs w' = []
      /\ m_tms w' = [].
Proof.
  intros w0 view Hempty.
  pose proof (proj2 (proj2 (proj2 (proj2 (proj2 (proj2 Hempty)))))) as Htyped0.
  destruct (write_cached w0 view Htyped0 w0 [] [] (empty_cache_cached w0 Hempty))
    as (w & chunks & cur & Hw & Hc & Heq).
  destruct (done_cached w0 w chunks cur Htyped0 Hc)
    as (w' & q & Hd & Hev & Hq & Hrest).
  destruct Hc as (_ & Hlt & _ & _ & _ & _ & _ & _ & _ & _ & Hfull & qs & Hsub & Hholds).
  exists w, w', chunks, cur, qs, q.
  split; [exact Hw|]. split; [exact Hd|]. split; [now rewrite Heq|].
  split; [exact Hfull|]. split; [exact Hlt|].
  split.
  { rewrite Hev, submitted_app, Hsub. simpl.
    rewrite submitted_app. destruct (m_stats args), (m_append args); simpl;
      now rewrite <- app_assoc. }
  split; [exact Hholds|]. split; [exact Hq|].
  split; [| exact Hrest].
  exists (events w ++ Submit q :: (if m_stats args then [StatsDump] else []))%list.
  rewrite Hev, <- app_assoc. reflexivity.
Qed.

End CacheFacts.

Section CacheEdges.
Import TileDB.

Variable Point : Type.
Variables getX getY getZ getGpsTime : Point -> float.
Variable everything : Dimension.Type_ -> Dimension.Id -> Point -> list Byte.byte.
Variable submit : nat -> Query -> Status.
Variable args : Args.

(** X11. With a cache size of 0 the buffers are empty, and the first
    point processed is stored past the end of the first attribute buffer;
    when there is no attribute at all, the point is cached and nothing is
    submitted, the index moving past the cache size. *)
Theorem zero_cache_size :
  m_cache_size args = 0 ->
  (forall (w : t) (point : Point) (a : DimBuffer) (rest : list DimBuffer),
      m_attrs w = a :: rest -> typed a -> sized args a ->
      snd (processOne Point getX getY getZ getGpsTime everything submit args
             point w) = OutOfBounds)
  /\ (forall (w : t) (point : Point),
         m_attrs w = [] -> 0 <= m_current_idx w -> m_current_idx w + 1 < 2 ^ 64 ->
         exists w',
           processOne Point getX getY getZ getGpsTime everything submit args
             point w = (w', Done true)
           /\ events w' = events w
           /\ m_current_idx w' = m_current_idx w + 1
           /\ m_xs w' = (m_xs w ++ [getX point])%list).
Proof.
  intros Hzero. split.
  - intros w point a rest Hattrs Htyped Hsized.
    unfold processOne. rewrite Hattrs. simpl.
    assert (Hv : writeAttributeValue Point everything a point (m_current_idx w)
                 = OutOfBounds).
    { unfold sized in Hsized. rewrite Hzero in Hsized.
      assert (Hs : 0 < Dimension.size (m_type a))
        by (unfold typed in Htyped; destruct (m_type a); simpl; try lia; congruence).
      assert (Hm : memcpy (m_buffer a)
                     (to_size_t (m_current_idx w * Dimension.size (m_type a)))
                     (everything (m_type a) (m_id a) point)
                     (Dimension.size (m_type a)) = Datatypes.None).
      { unfold memcpy.
        assert (Hoff : 0 <= to_size_t (m_current_idx w * Dimension.size (m_type a)))
          by (unfold to_size_t; apply Z.mod_pos_bound; lia).
        assert (Hle : (to_size_t (m_current_idx w * Dimension.size (m_type a))
                       + Dimension.size (m_type a)
                       <=? Z.of_nat (List.length (m_buffer a))) = false)
          by (apply Z.leb_gt; lia).
        rewrite Hle. now rewrite andb_false_r. }
      unfold writeAttributeValue. unfold typed in Htyped. revert Hm.
      destruct (m_type a); try congruence; intros Hm; now rewrite Hm. }
    now rewrite Hv.
  - intros w point Hattrs Hidx Hnext.
    unfold processOne. rewrite Hattrs. simpl.
    assert (Hn : to_size_t (m_current_idx w + 1) = m_current_idx w + 1)
      by (unfold to_size_t; apply Z.mod_small; lia).
    rewrite Hn, Hzero.
    destruct (Z.eqb_spec (m_current_idx w + 1) 0) as [E|N]; [lia|].
    eexists. split; [reflexivity|]. simpl. repeat split.
Qed.

End CacheEdges.

(* ----------------------------------------------------------------- *)
(** ** The cache on the sample points *)

Section CacheSample.
Import TileDB TileDBSample.

Lemma sample_everything_size :
  forall type id p, List.length (everything type id p) = 8%nat.
Proof.
  intros type id p. unfold everything.
  rewrite length_firstn, length_app, repeat_length. lia.
Qed.

Lemma sample_submit_succeeds : forall n q, submit n q <> FAILED.
Proof. intros n q. discriminate. Qed.

Lemma sample_cache_addressable : m_cache_size args * 8 < 2 ^ 64.
Proof. simpl. lia. Qed.

Lemma sample_empty_cache : empty_cache args w0.
Proof.
  unfold empty_cache. simpl.
  repeat split; repeat constructor; discriminate.
Qed.

Lemma sample_cache_ok : cache_ok args w0.
Proof.
  unfold cache_ok. simpl. repeat split; try lia; repeat constructor.
Qed.

(** Two points go out in one query, the third stays cached; its values
    overwrite the front of the buffers. *)
Example sample_write_runs :
  let w := fst (write_sample submit view w0) in
  snd (write_sample submit view w0) = Done tt
  /\ submitted (events w) =
       [ {| q_xs := [1; 4]%float; q_ys := [2; 5]%float; q_zs := [3; 6]%float;
            q_tms := Some [10; 11]%float;
            q_attrs :=
              [ mkBuffer "Intensity" Dimension.Unsigned16
                  [Byte.x11; Byte.x00; Byte.x22; Byte.x00] 2;
                mkBuffer "Classification" Dimension.Unsigned8
                  [Byte.x02; Byte.x05] 2 ] |} ]
  /\ m_current_idx w = 1
  /\ m_xs w = [7]%float
  /\ map m_buffer (m_attrs w) =
       [ [Byte.x33; Byte.x00; Byte.x22; Byte.x00]; [Byte.x06; Byte.x05] ].
Proof. vm_compute. repeat split. Qed.

End CacheSample.

Lemma write_keeps_cache_witness :
  TileDB.cache_ok TileDBSample.args TileDBSample.w0
  /\ TileDB.cache_ok TileDBSample.args
       (fst (TileDBSample.write_sample TileDBSample.submit_failing
               TileDBSample.view TileDBSample.w0))
  /\ snd (TileDBSample.write_sample TileDBSample.submit_failing
            TileDBSample.view TileDBSample.w0) <> TileDB.OutOfBounds.
Proof.
  split; [exact sample_cache_ok |].
  exact (write_keeps_cache TileDBSample.point TileDBSample.px TileDBSample.py
           TileDBSample.pz TileDBSample.ptime TileDBSample.everything
           TileDBSample.submit_failing TileDBSample.args
           sample_everything_size ltac:(simpl; lia) sample_cache_addressable
           TileDBSample.view TileDBSample.w0 sample_cache_ok).
Defined.

Lemma sample_w1_cache_ok : TileDB.cache_ok TileDBSample.args TileDBSample.w1.
Proof.
  unfold TileDB.cache_ok. vm_compute.
  repeat split; try discriminate; repeat constructor.
Qed.

Lemma sample_w1_typed :
  Forall TileDB.typed (TileDB.m_attrs TileDBSample.w1).
Proof. vm_compute. repeat constructor; discriminate. Qed.

Lemma failed_flush_drops_chunk_witness :
  TileDB.cache_ok TileDBSample.args TileDBSample.w1
  /\ TileDB.m_current_idx TileDBSample.w1 + 1
     = TileDB.m_cache_size TileDBSample.args
  /\ exists w',
       TileDBSample.write_sample TileDBSample.submit_failing
         [TileDBSample.p2; TileDBSample.p3] TileDBSample.w1
       = (w', TileDB.Raise TileDB.flush_failed)
       /\ TileDB.m_current_idx w' = 0 /\ TileDB.m_xs w' = [].
Proof.
  split; [exact sample_w1_cache_ok | split; [reflexivity |]].
  destruct (failed_flush_drops_chunk TileDBSample.point TileDBSample.px
              TileDBSample.py TileDBSample.pz TileDBSample.ptime
              TileDBSample.everything TileDBSample.submit_failing
              TileDBSample.args sample_everything_size ltac:(simpl; lia)
              sample_cache_addressable
              TileDBSample.w1 TileDBSample.p2 [TileDBSample.p3]
              sample_w1_cache_ok sample_w1_typed eq_refl
              (fun q => eq_refl))
    as (w' & q & _ & Hw & _ & _ & _ & _ & Hidx & Hxs & _).
  exists w'. split; [exact Hw | split; [exact Hidx | exact Hxs]].
Defined.

Lemma write_submits_full_chunks_witness :
  TileDB.empty_cache TileDBSample.args TileDBSample.w0
  /\ exists w chunks cur,
       TileDBSample.write_sample TileDBSample.submit TileDBSample.view
         TileDBSample.w0 = (w, TileDB.Done tt)
       /\ TileDBSample.view = (List.concat chunks ++ cur)%list
       /\ TileDB.cached TileDBSample.point TileDBSample.px TileDBSample.py
            TileDBSample.pz TileDBSample.ptime TileDBSample.everything
            TileDBSample.args TileDBSample.w0 w chunks cur.
Proof.
  split; [exact sample_empty_cache |].
  exact (write_submits_full_chunks TileDBSample.point TileDBSample.px
           TileDBSample.py TileDBSample.pz TileDBSample.ptime
           TileDBSample.everything TileDBSample.submit TileDBSample.args
           sample_everything_size ltac:(simpl; lia) sample_cache_addressable
           sample_submit_succeeds TileDBSample.w0 TileDBSample.view
           sample_empty_cache).
Defined.

Lemma write_done_submits_every_point_witness :
  TileDB.empty_cache TileDBSample.args TileDBSample.w0
  /\ exists w w' chunks last,
       TileDBSample.write_sample TileDBSample.submit TileDBSample.view
         TileDBSample.w0 = (w, TileDB.Done tt)
       /\ TileDB.done TileDBSample.submit TileDBSample.args w
          = (w', TileDB.Done tt)
       /\ TileDBSample.view = (List.concat chunks ++ last)%list
       /\ List.length (TileDB.submitted (TileDB.events w'))
          = S (List.length chunks).
Proof.
  split; [exact sample_empty_cache |].
  destruct (write_done_submits_every_point TileDBSample.point TileDBSample.px
              TileDBSample.py TileDBSample.pz TileDBSample.ptime
              TileDBSample.everything TileDBSample.submit TileDBSample.args
              sample_everything_size ltac:(simpl; lia) sample_cache_addressable
              sample_submit_succeeds TileDBSample.w0 TileDBSample.view
              sample_empty_cache)
    as (w & w' & chunks & last & qs & q & Hw & Hd & Hv & _ & _ & Hs & Hh & _).
  exists w, w', chunks, last.
  split; [exact Hw | split; [exact Hd | split; [exact Hv |]]].
  rewrite Hs. simpl. rewrite length_app. simpl.
  rewrite (Forall2_length Hh). lia.
Defined.

Lemma zero_cache_size_witness :
  TileDB.m_cache_size TileDBSample.args_zero = 0
  /\ snd (TileDB.processOne TileDBSample.point TileDBSample.px TileDBSample.py
            TileDBSample.pz TileDBSample.ptime TileDBSample.everything
            TileDBSample.submit TileDBSample.args_zero TileDBSample.p1
            TileDBSample.w_zero) = TileDB.OutOfBounds.
Proof.
  split; [reflexivity |].
  apply (proj1 (zero_cache_size TileDBSample.point TileDBSample.px
                  TileDBSample.py TileDBSample.pz TileDBSample.ptime
                  TileDBSample.everything TileDBSample.submit
                  TileDBSample.args_zero eq_refl)
           TileDBSample.w_zero TileDBSample.p1
           (TileDB.mkDimBuffer "Classification" (Dimension.Known 2)
              Dimension.Unsigned8 []) []).
  - reflexivity.
  - discriminate.
  - reflexivity.
Defined.

Lemma untyped_attribute_stops_witness :
  let a := TileDB.mkDimBuffer "Raw" (Dimension.Known 9) Dimension.None [] in
  let w := {| TileDB.m_current_idx := 1;
              TileDB.m_use_time := false;
              TileDB.m_attrs := (TileDBSample.attrs ++ [a])%list;
              TileDB.m_xs := [1%float]; TileDB.m_ys := [2%float];
              TileDB.m_zs := [3%float];
              TileDB.m_tms := [];
              TileDB.events := [] |} in
  exists w',
    TileDB.processOne TileDBSample.point TileDBSample.px TileDBSample.py
      TileDBSample.pz TileDBSample.ptime TileDBSample.everything
      TileDBSample.submit TileDBSample.args TileDBSample.p2 w
    = (w', TileDB.Raise "Unsupported attribute type for Raw")
    /\ map TileDB.m_buffer (TileDB.m_attrs w')
       = [ [Byte.x00; Byte.x00; Byte.x22; Byte.x00];
           [Byte.x00; Byte.x05];
           [] ]
    /\ TileDB.m_xs w' = [1%float]
    /\ TileDB.m_current_idx w' = 1.
Proof.
  intros a w.
  destruct (untyped_attribute_stops TileDBSample.point TileDBSample.px
              TileDBSample.py TileDBSample.pz TileDBSample.ptime
              TileDBSample.everything TileDBSample.submit TileDBSample.args
              sample_everything_size ltac:(simpl; lia)
              sample_cache_addressable
              w TileDBSample.p2 TileDBSample.attrs [] a eq_refl eq_refl)
    as (w' & before' & Hp & Hattrs & Hst & Hidx & Hxs & _).
  - unfold TileDB.sized. repeat constructor.
  - repeat constructor; discriminate.
  - simpl. lia.
  - exists w'. split; [exact Hp |]. split; [| split; [exact Hxs | exact Hidx]].
    rewrite Hattrs.
    inversion Hst as [|a1 b1 l1 l1' [_ Hb1] Hrest]; subst.
    inversion Hrest as [|a2 b2 l2 l2' [_ Hb2] Hrest2]; subst.
    inversion Hrest2; subst.
    simpl. rewrite Hb1, Hb2. reflexivity.
Defined.

(* ================================================================= *)
(** * The TileDB writer's filters and set-up *)

Section FilterFacts.
Import TileDB TileDBSetup.

Variable set_option : Filter -> FilterOption -> Z -> res Filter.
Variable get_int : Json.t -> res Z.

Lemma filter_type_of_name (name : string) (type : FilterType) :
  filter_type_of name = Some type -> name = name_of_type type.
Proof.
  unfold filter_type_of.
  repeat match goal with
    | |- context [(name =? ?lit)%string] =>
        destruct (String.eqb_spec name lit) as [->|_];
        [intros H; injection H as <-; reflexivity|]
    end.
  discriminate.
Qed.

Lemma filter_type_of_type (type : FilterType) :
  filter_type_of (name_of_type type) = Some type.
Proof. now destruct type. Qed.

Lemma name_of_type_known (type : FilterType) :
  In (name_of_type type) compression_names.
Proof. destruct type; simpl; tauto. Qed.

Lemma filter_type_of_known (name : string) :
  In name compression_names <-> exists type, filter_type_of name = Some type.
Proof.
  split.
  - intros H. simpl in H.
    repeat (destruct H as [<- | H]; [eexists; reflexivity|]). destruct H.
  - intros [type H]. rewrite (filter_type_of_name name type H).
    apply name_of_type_known.
Qed.

(** Options that name a compression and nothing else. *)
Lemma createFilter_name_only (name : string) :
  createFilter set_option get_int
    (Json.Object [("compression", Json.Str name)])
  = match filter_type_of name with
    | Some type => Ret (mkFilter type [])
    | Datatypes.None => Throw (unparsed name)
    end.
Proof.
  unfold createFilter. simpl.
  destruct (filter_type_of name); reflexivity.
Qed.

Lemma filters_of_spec (items : list Json.t) (fs : list Filter) :
  filters_of set_option get_int items = Ret fs
  <-> Forall2 (fun v f => createFilter set_option get_int v = Ret f) items fs.
Proof.
  revert fs. induction items as [|v rest IH]; intros fs; simpl.
  - split.
    + intros H. injection H as <-. constructor.
    + intros H. inversion H. reflexivity.
  - destruct (createFilter set_option get_int v) as [f| |] eqn:Ev; simpl.
    + destruct (filters_of set_option get_int rest) as [fs'| |] eqn:Er; simpl.
      * split.
        -- intros H. injection H as <-. constructor; [exact Ev|].
           now apply IH.
        -- intros H. inversion H as [|? f' ? fs'' Hf Hrest]; subst.
           rewrite Ev in Hf. injection Hf as <-.
           apply IH in Hrest. now injection Hrest as <-.
      * split; [discriminate|].
        intros H. inversion H as [|? f' ? fs'' Hf Hrest]; subst.
        apply IH in Hrest. discriminate.
      * split; [discriminate|].
        intros H. inversion H as [|? f' ? fs'' Hf Hrest]; subst.
        apply IH in Hrest. discriminate.
    + split; [discriminate|]. intros H. inversion H; subst. congruence.
    + split; [discriminate|]. intros H. inversion H; subst. congruence.
Qed.

Lemma filters_of_first_failure (good : list Json.t) (fs : list Filter)
    (bad : Json.t) (rest : list Json.t) :
  Forall2 (fun v f => createFilter set_option get_int v = Ret f) good fs ->
  (forall f, createFilter set_option get_int bad <> Ret f) ->
  filters_of set_option get_int (good ++ bad :: rest)
  = res_bind (createFilter set_option get_int bad) (fun _ => Ret []).
Proof.
  intros Hgood Hbad. induction Hgood as [|v f good fs Hv _ IH]; simpl.
  - destruct (createFilter set_option get_int bad) as [f| |]; simpl;
      [now destruct (Hbad f) | reflexivity | reflexivity].
  - rewrite Hv, IH. simpl.
    destruct (createFilter set_option get_int bad) as [f'| |]; simpl;
      [now destruct (Hbad f') | reflexivity | reflexivity].
Qed.

(** X12. Options that only name a compression: the eleven spellings of
    the chain, matched exactly, give a filter of the type they name and no
    option set, the empty name giving the type NONE and nothing else
    doing so; two names never give the same filter; any other name throws
    the TileDB error that quotes it. *)
Theorem createFilter_by_name :
  forall name : string,
    let make n := createFilter set_option get_int
                    (Json.Object [("compression", Json.Str n)]) in
    (In name compression_names ->
       exists type, make name = Ret (mkFilter type [])
                    /\ name = name_of_type type
                    /\ (type = FILTER_NONE <-> name = ""))
    /\ (~ In name compression_names -> make name = Throw (unparsed name))
    /\ (forall (other : string) (f : Filter),
           make name = Ret f -> make other = Ret f -> other = name).
Proof.
  intros name make. subst make. cbv beta. split; [|split].
  - intros Hin. apply filter_type_of_known in Hin as [type Ht].
    exists type. rewrite createFilter_name_only, Ht.
    pose proof (filter_type_of_name name type Ht) as Hn.
    split; [reflexivity | split; [exact Hn |]].
    subst name. destruct type; simpl; split; congruence.
  - intros Hout. rewrite createFilter_name_only.
    destruct (filter_type_of name) as [type|] eqn:Ht; [|reflexivity].
    exfalso. apply Hout. apply filter_type_of_known. now exists type.
  - intros other f. rewrite !createFilter_name_only.
    destruct (filter_type_of name) as [t1|] eqn:H1; [|discriminate].
    destruct (filter_type_of other) as [t2|] eqn:H2; [|discriminate].
    intros E1 E2. injection E1 as <-. injection E2 as E2.
    rewrite (filter_type_of_name _ _ H1), (filter_type_of_name _ _ H2).
    now rewrite E2.
Qed.

(** X13. What is not a usable options object. Null, the empty object
    and the empty array make the filter NONE; but as a filter list the
    empty array makes no filter at all, where null and the empty object
    make the one filter NONE. A boolean, a number or a string throws the
    JSON library's type error, and so does a compression that is not a
    string; a non-empty object without the member "compression" is read
    outside its members. *)
Theorem createFilter_malformed :
  let none := mkFilter FILTER_NONE [] in
  let make := createFilter set_option get_int in
  let list_ := createFilterList set_option get_int in
  make Json.Null = Ret none /\ make (Json.Object []) = Ret none
  /\ make (Json.Array []) = Ret none
  /\ list_ Json.Null = Ret [none] /\ list_ (Json.Object []) = Ret [none]
  /\ list_ (Json.Array []) = Ret []
  /\ (forall j, (exists b, j = Json.Bool b) \/ (exists z, j = Json.Int z)
                \/ (exists f, j = Json.Real f) \/ (exists s, j = Json.Str s) ->
                exists what, make j = Throw (JsonError what)
                             /\ list_ j = Throw (JsonError what))
  /\ (forall members v,
         Json.find "compression" members = Some v ->
         (forall s, v <> Json.Str s) ->
         exists what, make (Json.Object members) = Throw (JsonError what))
  /\ (forall members,
         members <> [] -> Json.find "compression" members = Datatypes.None ->
         make (Json.Object members) = Undefined).
Proof.
  cbv zeta. repeat split.
  - intros j [[b ->] | [[z ->] | [[f ->] | [s ->]]]];
      eexists; split; reflexivity.
  - intros members v Hfind Hstr.
    destruct members as [|m members]; [discriminate|].
    unfold createFilter. simpl Json.empty. cbv iota. simpl negb. cbv iota.
    unfold const_at. rewrite Hfind. simpl.
    destruct v; try (eexists; reflexivity).
    now destruct (Hstr s).
  - intros members Hne Hfind.
    destruct members as [|m members]; [congruence|].
    unfold createFilter. simpl Json.empty. cbv iota. simpl negb. cbv iota.
    unfold const_at. now rewrite Hfind.
Qed.

(** X14. A filter list from an array is all or nothing and keeps the
    order: it is made exactly when every element makes a filter, and then
    holds these filters, one per element, in the order of the array; when
    an element fails after good ones, what it throws (or its undefined
    read) is the outcome, and the elements after it are not looked at. *)
Theorem createFilterList_of_array :
  forall (items : list Json.t),
    (forall fs : list Filter,
        createFilterList set_option get_int (Json.Array items) = Ret fs
        <-> Forall2 (fun v f => createFilter set_option get_int v = Ret f)
              items fs)
    /\ (forall good fs bad rest,
           items = (good ++ bad :: rest)%list ->
           Forall2 (fun v f => createFilter set_option get_int v = Ret f)
             good fs ->
           (forall f, createFilter set_option get_int bad <> Ret f) ->
           createFilterList set_option get_int (Json.Array items)
           = res_bind (createFilter set_option get_int bad) (fun _ => Ret [])).
Proof.
  intros items. split.
  - intros fs. apply filters_of_spec.
  - intros good fs bad rest -> Hgood Hbad. simpl.
    now apply (filters_of_first_failure good fs bad rest).
Qed.

End FilterFacts.

Section SetupFacts.
Import TileDB TileDBSetup.

Variable set_option : Filter -> FilterOption -> Z -> res Filter.
Variable get_int : Json.t -> res Z.
Variable make_context : string -> res unit.
Variable new_schema : Schema.

Local Arguments new_buffer : simpl never.

Lemma createAttribute_ret (name : string) (type : Dimension.Type_)
    (att : Attribute) :
  createAttribute name type = Ret att ->
  type <> Dimension.None /\ att_name att = name
  /\ att_filters att = Datatypes.None.
Proof.
  destruct type; simpl; intros H; try discriminate;
    injection H as <-; repeat split; discriminate.
Qed.


(** The loop of [ready] when the array is created. *)
Lemma ready_dims_create (args : Args) (use_time : bool) (existing : list string)
    (all : list LayoutDim) :
  m_append args = false ->
  forall attrs atts attrs' atts',
    ready_dims set_option get_int args use_time existing all attrs atts
    = Ret (attrs', atts') ->
    attrs' = (attrs ++ map (new_buffer args) (selected use_time all))%list
    /\ Forall (fun d => snd d <> Dimension.None) (selected use_time all)
    /\ map att_name atts'
       = (map att_name atts
          ++ map (fun d => snd (fst d)) (selected use_time all))%list.
Proof.
  intros Happ. unfold selected.
  induction all as [|[[id dimName] type] rest IH]; intros attrs atts attrs' atts';
    simpl.
  - intros H. injection H as <- <-. rewrite !app_nil_r. repeat split. constructor.
  - rewrite Happ. simpl.
    destruct (is_attribute use_time dimName) eqn:Esel; [|apply IH].
    destruct (createAttribute dimName type) as [att| |] eqn:Eatt; simpl;
      try discriminate.
    destruct (createAttribute_ret _ _ _ Eatt) as (Htype & Hname & _).
    match goal with
    | |- context [if ?c then ?a else ?b] =>
        destruct (if c then a else b) as [att'| |] eqn:Eopt; simpl;
          try discriminate
    end.
    assert (Hname' : att_name att' = dimName).
    { destruct (negb (Json.empty (attribute_opts args dimName))).
      - destruct (createFilterList set_option get_int
                    (attribute_opts args dimName)); simpl in Eopt;
          try discriminate.
        injection Eopt as <-. exact Hname.
      - injection Eopt as <-. exact Hname. }
    intros H. apply IH in H as (H1 & H2 & H3).
    rewrite H1, H3. rewrite map_app, <- !app_assoc. simpl. rewrite Hname'.
    repeat split. constructor; [exact Htype | exact H2].
Qed.


Lemma new_buffer_sized (args : Args) (d : LayoutDim) :
  0 <= m_cache_size args -> m_cache_size args * 8 < 2 ^ 64 ->
  sized args (new_buffer args d).
Proof.
  intros H0 H8. destruct d as [[id dimName] type].
  unfold sized, new_buffer. simpl. rewrite repeat_length.
  assert (Hs : 0 <= Dimension.size type <= 8) by (destruct type; simpl; lia).
  unfold to_size_t. rewrite Z.mod_small by nia. nia.
Qed.

Lemma new_buffer_parts (args : Args) (d : LayoutDim) :
  (m_id (new_buffer args d), m_name (new_buffer args d),
   m_type (new_buffer args d)) = d.
Proof. now destruct d as [[id dimName] type]. Qed.

(** X15. When the array is created and [ready] returns for a writer
    without buffers or cached coordinates: the attributes are the
    dimensions of the layout other than X, Y, Z (and GpsTime when time is a
    dimension), in layout order, in the writer as in the schema; every
    buffer is typed and has room for [m_cache_size] values; the index is 0:
    the writer has the empty cache that [write] starts from. *)
Theorem ready_prepares_cache :
  forall (args : Args) (all : list LayoutDim)
         (stats : option (string -> float)) (existing : Existing)
         (time_first : bool) (schema schema' : Schema) (w w' : t),
    m_append args = false ->
    m_attrs w = [] ->
    m_xs w = [] -> m_ys w = [] -> m_zs w = [] -> m_tms w = [] ->
    0 <= m_cache_size args -> m_cache_size args * 8 < 2 ^ 64 ->
    ready set_option get_int args all stats existing time_first schema w
    = Ret (w', schema') ->
    empty_cache args w'
    /\ m_use_time w' = m_use_time w
    /\ map (fun a => (m_id a, m_name a, m_type a)) (m_attrs w')
       = selected (m_use_time w) all
    /\ map att_name (s_attributes schema')
       = (map att_name (s_attributes schema)
          ++ map m_name (m_attrs w'))%list.
Proof.
  intros args all stats existing time_first schema schema' w w'
    Happ Hattrs Hxs Hys Hzs Htms H0 H8.
  unfold ready. rewrite Happ. simpl.
  destruct (ready_domain args (m_use_time w) time_first stats)
    as [dom| |]; simpl; try discriminate.
  match goal with
  | |- context [ready_dims ?so ?gi ?a ?u ?e ?l ?at0 ?sc] =>
      destruct (ready_dims so gi a u e l at0 sc) as [[attrs atts]| |] eqn:Ed
  end; simpl; try discriminate.
  intros H. injection H as <- <-.
  destruct (ready_dims_create args _ _ all Happ _ _ _ _ Ed) as (H1 & H2 & H3).
  rewrite Hattrs in H1. simpl in H1, H3. subst attrs.
  unfold empty_cache. simpl. rewrite Hxs, Hys, Hzs, Htms.
  split; [| split; [reflexivity | split]].
  - repeat split.
    + apply Forall_map. apply Forall_forall. intros d _.
      now apply new_buffer_sized.
    + apply Forall_map. revert H2. apply Forall_impl.
      intros [[id dimName] type] Ht. exact Ht.
  - rewrite map_map. erewrite map_ext; [apply map_id|].
    intros d. apply new_buffer_parts.
  - rewrite H3. f_equal. rewrite map_map. apply map_ext.
    now intros [[id dimName] type].
Qed.


(** X17. The domain [ready] builds for a new array. It throws, the
    message about Hilbert ordering, exactly when some tile size is 0 (the
    time tile size counting only when time is a dimension), the domain
    options are not valid and there are no statistics; it throws nothing
    else. Otherwise the dimensions are X, Y, Z in this order, with GpsTime
    before or after them when time is a dimension; they have extents
    exactly when all tile sizes are positive, and the cell order is set to
    Hilbert exactly when they are not. *)
Theorem ready_domain_shape :
  forall (args : Args) (use_time time_first : bool)
         (stats : option (string -> float)),
    let tiled :=
      ((m_x_tile_size args >? 0) && (m_y_tile_size args >? 0)
       && (m_z_tile_size args >? 0)
       && (negb use_time || (m_time_tile_size args >? 0)))%bool in
    let r := ready_domain args use_time time_first stats in
    (r = Throw (PdalError hilbert_needs_domain)
     <-> tiled = false /\ isValidDomain args = false
         /\ stats = Datatypes.None)
    /\ (forall e, r = Throw e -> e = PdalError hilbert_needs_domain)
    /\ r <> Undefined
    /\ (forall dims hilbert,
           r = Ret (dims, hilbert) ->
           hilbert = negb tiled
           /\ map dim_name dims
              = ((if (use_time && time_first)%bool then ["GpsTime"] else [])
                 ++ ["X"; "Y"; "Z"]
                 ++ (if (use_time && negb time_first)%bool
                     then ["GpsTime"] else []))%list
           /\ Forall (fun d => dim_extent d <> Datatypes.None <-> tiled = true)
                dims).
Proof.
  intros args use_time time_first stats tiled r. subst r.
  unfold ready_domain. fold tiled.
  assert (Hnames : forall ext b,
             map dim_name (domain_dims args use_time time_first ext b)
             = ((if (use_time && time_first)%bool then ["GpsTime"] else [])
                ++ ["X"; "Y"; "Z"]
                ++ (if (use_time && negb time_first)%bool
                    then ["GpsTime"] else []))%list).
  { intros ext b. unfold domain_dims.
    destruct (use_time && time_first)%bool, (use_time && negb time_first)%bool;
      reflexivity. }
  assert (Hext : forall ext b,
             Forall (fun d => dim_extent d <> Datatypes.None <-> ext = true)
               (domain_dims args use_time time_first ext b)).
  { intros ext b. unfold domain_dims.
    destruct (use_time && time_first)%bool, (use_time && negb time_first)%bool,
      ext; simpl; repeat constructor; simpl; congruence. }
  clearbody tiled.
  split; [|split; [|split]].
  - destruct tiled, (isValidDomain args), stats; split;
      try discriminate; try tauto;
      intros (? & ? & ?); try discriminate; reflexivity.
  - intros e. destruct tiled, (isValidDomain args), stats; intros H;
      try discriminate; now injection H as <-.
  - destruct tiled, (isValidDomain args), stats; discriminate.
  - intros dims hilbert.
    destruct tiled, (isValidDomain args), stats; intros H;
      try discriminate; injection H as <- <-;
      (split; [reflexivity | split; [apply Hnames | apply Hext]]).
Qed.

Lemma rethrow_never_tiledb {A} (r : res A) (what : string) :
  rethrow r <> Throw (TileDBError what).
Proof. destruct r as [a|[w|w|w]|]; simpl; discriminate. Qed.

(** X18. [initialize] never lets a TileDB error out: it throws it again
    as a pdal error whose text starts "TileDB Error: ". When the array is
    appended to, the options for the filters are not read at all. For a
    new array without an entry "coords" in [filters], a compression name
    outside the known ones is reported in this form, naming it; and a
    known one gives the coordinates one filter of that type on which the
    compression level has been set, to the option's value, -1 included. *)
Theorem initialize_compression :
  forall args : Args,
    (forall what,
        initialize set_option get_int make_context new_schema args
        <> Throw (TileDBError what))
    /\ (forall what,
           make_context (m_cfgFileName args) = Throw (TileDBError what) ->
           initialize set_option get_int make_context new_schema args
           = Throw (PdalError ("TileDB Error: " ++ what)))
    /\ (make_context (m_cfgFileName args) = Ret tt ->
        m_append args = true ->
        initialize set_option get_int make_context new_schema args
        = Ret Datatypes.None)
    /\ (make_context (m_cfgFileName args) = Ret tt ->
        m_append args = false ->
        Json.count (m_filters args) "coords" = 0 ->
        m_compressor args <> "" ->
        (filter_type_of (m_compressor args) = Datatypes.None ->
         initialize set_option get_int make_context new_schema args
         = Throw (PdalError ("TileDB Error: Unable to parse compression type: "
                             ++ m_compressor args)))
        /\ (forall type,
               filter_type_of (m_compressor args) = Some type ->
               initialize set_option get_int make_context new_schema args
               = rethrow
                   (n <-- get_int (Json.Int (m_compressionLevel args)) ;;
                    f <-- set_option (mkFilter type []) COMPRESSION_LEVEL n ;;
                    Ret (Some (set_coords new_schema [f]))))).
Proof.
  intros args. split; [|split; [|split]].
  - intros what. apply rethrow_never_tiledb.
  - intros what H. unfold initialize. now rewrite H.
  - intros Hctx Happ. unfold initialize. now rewrite Hctx, Happ.
  - intros Hctx Happ Hcoords Hname.
    assert (Hne : (m_compressor args =? "")%string = false)
      by now apply String.eqb_neq.
    assert (Hinit :
              initialize set_option get_int make_context new_schema args
              = rethrow
                  (fl <-- createFilterList set_option get_int
                            (compressor_opts args) ;;
                   Ret (Some (set_coords new_schema fl)))).
    { unfold initialize. rewrite Hctx, Happ, Hcoords, Hne. reflexivity. }
    assert (Hmake :
              createFilter set_option get_int (compressor_opts args)
              = (f <-- match filter_type_of (m_compressor args) with
                       | Some type => Ret (mkFilter type [])
                       | Datatypes.None => Throw (unparsed (m_compressor args))
                       end ;;
                 n <-- get_int (Json.Int (m_compressionLevel args)) ;;
                 set_option f COMPRESSION_LEVEL n)).
    { unfold createFilter, compressor_opts. simpl.
      destruct (filter_type_of (m_compressor args)); simpl; [|reflexivity].
      unfold with_option. simpl.
      destruct (get_int (Json.Int (m_compressionLevel args))); simpl;
        try reflexivity.
      now destruct (set_option _ COMPRESSION_LEVEL _). }
    assert (Hlist :
              createFilterList set_option get_int (compressor_opts args)
              = (f <-- createFilter set_option get_int (compressor_opts args) ;;
                 Ret [f])) by reflexivity.
    rewrite Hinit, Hlist, Hmake.
    split.
    + intros Hnone. rewrite Hnone. reflexivity.
    + intros type Hsome. rewrite Hsome. simpl.
      destruct (get_int (Json.Int (m_compressionLevel args))); simpl;
        try reflexivity.
      now destruct (set_option _ COMPRESSION_LEVEL _).
Qed.

Lemma createAttribute_shape (name : string) (type : Dimension.Type_)
    (att : Attribute) :
  createAttribute name type = Ret att ->
  att = mkAttribute name (att_type att) Datatypes.None.
Proof.
  destruct type; simpl; intros H; try discriminate; now injection H as <-.
Qed.

Lemma ready_dims_attributes (args : Args) (use_time : bool)
    (existing : list string) (all : list LayoutDim) :
  m_append args = false ->
  forall attrs atts attrs' atts',
    ready_dims set_option get_int args use_time existing all attrs atts
    = Ret (attrs', atts') ->
    exists new,
      atts' = (atts ++ new)%list
      /\ Forall2 (attribute_of set_option get_int args)
           (selected use_time all) new.
Proof.
  intros Happ. unfold selected.
  induction all as [|[[id dimName] type] rest IH]; intros attrs atts attrs' atts';
    simpl.
  - intros H. injection H as <- <-. exists []. rewrite app_nil_r.
    split; [reflexivity | constructor].
  - rewrite Happ. simpl.
    destruct (is_attribute use_time dimName) eqn:Esel; [|apply IH].
    destruct (createAttribute dimName type) as [att| |] eqn:Eatt; simpl;
      try discriminate.
    pose proof (createAttribute_shape _ _ _ Eatt) as Hshape.
    destruct (Json.empty (attribute_opts args dimName)) eqn:Eempty; simpl.
    + intros H. apply IH in H as (new & -> & Hnew).
      exists (att :: new). rewrite <- app_assoc. split; [reflexivity|].
      constructor; [|exact Hnew].
      unfold attribute_of. simpl. rewrite Eempty, Eatt.
      rewrite Hshape at 1. rewrite Hshape. simpl. repeat split.
    + destruct (createFilterList set_option get_int
                  (attribute_opts args dimName)) as [fl| |] eqn:Efl; simpl;
        try discriminate.
      intros H. apply IH in H as (new & -> & Hnew).
      exists (mkAttribute (att_name att) (att_type att) (Some fl) :: new).
      rewrite <- app_assoc. split; [reflexivity|].
      constructor; [|exact Hnew].
      unfold attribute_of. simpl. rewrite Eempty, Eatt.
      split; [now rewrite Hshape at 1|].
      split; [now rewrite Hshape|].
      exists fl. split; [exact Efl | reflexivity].
Qed.

Lemma attribute_opts_source (args : Args) (dimName : string) :
  let opts := attribute_opts args dimName in
  (Json.count (m_filters args) dimName > 0 ->
   opts = Json.member (m_filters args) dimName)
  /\ (~ Json.count (m_filters args) dimName > 0 ->
      m_compressor args <> "" ->
      opts = Json.Object
               [("compression", Json.Str (m_compressor args));
                ("compression_level", Json.Int (m_compressionLevel args))])
  /\ (~ Json.count (m_filters args) dimName > 0 ->
      m_compressor args = "" ->
      Json.count (m_defaults args) dimName > 0 ->
      opts = Json.member (m_defaults args) dimName)
  /\ (~ Json.count (m_filters args) dimName > 0 ->
      m_compressor args = "" ->
      ~ Json.count (m_defaults args) dimName > 0 ->
      opts = Json.Null).
Proof.
  cbv zeta. unfold attribute_opts.
  destruct (Json.count (m_filters args) dimName >? 0) eqn:Ef.
  { apply Z.gtb_lt, Z.lt_gt in Ef.
    repeat split; intros; try contradiction; reflexivity. }
  assert (Hf : ~ Json.count (m_filters args) dimName > 0).
  { intros H. apply Z.gt_lt, Z.gtb_lt in H. congruence. }
  destruct (m_compressor args =? "")%string eqn:En; simpl.
  - apply String.eqb_eq in En.
    destruct (Json.count (m_defaults args) dimName >? 0) eqn:Ed.
    + apply Z.gtb_lt, Z.lt_gt in Ed.
      repeat split; intros; try contradiction; try reflexivity.
    + assert (Hd : ~ Json.count (m_defaults args) dimName > 0).
      { intros H. apply Z.gt_lt, Z.gtb_lt in H. congruence. }
      repeat split; intros; try contradiction; try reflexivity.
  - apply String.eqb_neq in En.
    repeat split; intros; try contradiction; try congruence; reflexivity.
Qed.

Lemma attribute_of_made (args : Args) (d : LayoutDim) (att : Attribute) :
  attribute_of set_option get_int args d att ->
  attribute_made set_option get_int args d att.
Proof.
  intros (Hcreate & Hname & Hfilters). unfold attribute_made. cbv zeta.
  split; [exact Hname | split; [exact Hcreate |]].
  exists (attribute_opts args (snd (fst d))).
  destruct (attribute_opts_source args (snd (fst d))) as (H1 & H2 & H3 & H4).
  split; [exact H1 | split; [exact H2 | split; [exact H3 | split; [exact H4 |]]]].
  destruct (Json.empty (attribute_opts args (snd (fst d)))).
  - split; [intros _; exact Hfilters | discriminate].
  - split; [discriminate | intros _; exact Hfilters].
Qed.

(** X19. In the schema of a new array [ready] adds one attribute per
    dimension that becomes one, in layout order, after those the schema
    had: named like the dimension, with the element type [createAttribute]
    gives its type, and with the filter list made from its options, which
    are its entry in [filters] if there is one, else the [compression]
    argument with its level if a compression is named, else its entry in
    the defaults if there is one; without any of these, or when the
    options are empty, the attribute gets no filter list. *)
Theorem ready_adds_attributes :
  forall (args : Args) (all : list LayoutDim)
         (stats : option (string -> float)) (existing : Existing)
         (time_first : bool) (schema schema' : Schema) (w w' : t),
    m_append args = false ->
    ready set_option get_int args all stats existing time_first schema w
    = Ret (w', schema') ->
    exists new,
      s_attributes schema' = (s_attributes schema ++ new)%list
      /\ Forall2 (attribute_made set_option get_int args)
           (selected (m_use_time w) all) new.
Proof.
  intros args all stats existing time_first schema schema' w w' Happ.
  unfold ready. rewrite Happ. simpl.
  destruct (ready_domain args (m_use_time w) time_first stats)
    as [dom| |]; simpl; try discriminate.
  match goal with
  | |- context [ready_dims ?so ?gi ?a ?u ?e ?l ?at0 ?sc] =>
      destruct (ready_dims so gi a u e l at0 sc) as [[attrs atts]| |] eqn:Ed
  end; simpl; try discriminate.
  intros H. injection H as <- <-. simpl.
  destruct (ready_dims_attributes args _ _ all Happ _ _ _ _ Ed)
    as (new & Hnew & Hall).
  exists new. split; [exact Hnew |].
  clear - Hall. induction Hall as [|d att l l' Hd _ IH]; constructor.
  - exact (attribute_of_made args d att Hd).
  - exact IH.
Qed.

(** X20. The defaults of the constructor are all usable. With no
    [filters] and no [compression] argument, and a TileDB that takes the
    compression levels: [initialize] makes the schema with one filter on
    the coordinates, and for every dimension name the options of the
    attribute are either empty or make a filter list of one filter. *)
Theorem defaults_make_filters :
  forall args : Args,
    (forall z, get_int (Json.Int z) = Ret z) ->
    (forall f v, exists f', set_option f COMPRESSION_LEVEL v = Ret f') ->
    defaults_only args ->
    make_context (m_cfgFileName args) = Ret tt ->
    m_append args = false ->
    (exists f,
        initialize set_option get_int make_context new_schema args
        = Ret (Some (set_coords new_schema [f])))
    /\ (forall dimName,
           Json.empty (attribute_opts args dimName) = true
           \/ exists f,
                createFilterList set_option get_int
                  (attribute_opts args dimName) = Ret [f]).
Proof.
  intros args Hint Hset (Hcoords & Hfilters & Hcomp & Hdef) Hctx Happ.
  assert (Hspec : forall name type level,
             filter_type_of name = Some type ->
             exists f,
               createFilter set_option get_int
                 (Json.Object [("compression", Json.Str name);
                               ("compression_level", Json.Int level)])
               = Ret f).
  { intros name type level Ht. unfold createFilter. simpl. rewrite Ht. simpl.
    unfold with_option. simpl. rewrite Hint. simpl.
    destruct (Hset (mkFilter type []) level) as [f ->]. simpl.
    now exists f. }
  split.
  - unfold initialize. rewrite Hctx, Happ, Hcoords, Hcomp, Hdef. simpl.
    destruct (Hspec "zstd" FILTER_ZSTD 7 eq_refl) as [f Hf].
    rewrite Hf. simpl. now exists f.
  - intros dimName.
    assert (E : attribute_opts args dimName
                = if Json.count attributeDefaults dimName >? 0
                  then Json.member attributeDefaults dimName
                  else Json.Null).
    { unfold attribute_opts. rewrite (Hfilters dimName), Hcomp, Hdef.
      reflexivity. }
    rewrite E. clear E.
    unfold attributeDefaults, Json.count, Json.member.
    match goal with
    | |- context [Json.find dimName ?members] =>
        destruct (Json.find dimName members) as [v|] eqn:Ef
    end; [right | left; reflexivity].
    change (1 >? 0) with true. cbv iota.
    cbn [Json.find] in Ef.
    repeat match type of Ef with
      | context [(?lit =? dimName)%string] =>
          destruct (lit =? dimName)%string
      end;
      try discriminate; injection Ef as <-;
      cbn [createFilterList filters_of];
      first
        [ rewrite createFilter_name_only; simpl; eexists; reflexivity
        | match goal with
          | |- context [createFilter set_option get_int
                          (Json.Object [("compression", Json.Str ?n);
                                        ("compression_level", Json.Int ?l)])] =>
              let H := fresh in
              destruct (Hspec n _ l eq_refl) as [f H]; rewrite H; simpl;
              now exists f
          end ].
Qed.

End SetupFacts.

(* ----------------------------------------------------------------- *)
(** ** The set-up on the sample layout *)

Example sample_initialize :
  TileDBSetup.initialize SetupSample.set_option SetupSample.get_int
    SetupSample.make_context SetupSample.new_schema SetupSample.args
  = TileDB.Ret
      (Some (TileDB.mkSchema true
               [TileDB.mkFilter TileDB.FILTER_ZSTD
                  [(TileDB.COMPRESSION_LEVEL, 7)]]
               [] 10000 false []))
  /\ TileDBSetup.initialize SetupSample.set_option SetupSample.get_int
       SetupSample.make_context SetupSample.new_schema SetupSample.args_brotli
     = TileDB.Throw
         (TileDB.PdalError
            "TileDB Error: Unable to parse compression type: brotli")
  /\ TileDBSetup.initialize SetupSample.set_option SetupSample.get_int
       SetupSample.make_context SetupSample.new_schema SetupSample.args_append
     = TileDB.Ret Datatypes.None.
Proof. vm_compute. repeat split. Qed.

Example sample_ready :
  exists w' schema',
    SetupSample.ready_sample SetupSample.args SetupSample.no_array
    = TileDB.Ret (w', schema')
    /\ map (fun a => (TileDB.m_name a, List.length (TileDB.m_buffer a)))
         (TileDB.m_attrs w')
       = [("Intensity", 4%nat); ("Classification", 2%nat); ("GpsTime", 16%nat)]
    /\ map TileDB.dim_name (TileDB.s_domain schema') = ["X"; "Y"; "Z"]
    /\ TileDB.s_hilbert schema' = true
    /\ map (fun a => (TileDB.att_name a, TileDB.att_type a,
                      option_map (map TileDB.f_type) (TileDB.att_filters a)))
         (TileDB.s_attributes schema')
       = [ ("Intensity", TileDB.c_ushort, Some [TileDB.FILTER_BZIP2]);
           ("Classification", TileDB.c_uchar, Some [TileDB.FILTER_GZIP]);
           ("GpsTime", TileDB.c_double, Some [TileDB.FILTER_ZSTD]) ].
Proof. eexists. eexists. vm_compute. repeat split. Qed.

Example sample_ready_append :
  (exists w' schema',
      SetupSample.ready_sample SetupSample.args_append SetupSample.array_with_time
      = TileDB.Ret (w', schema')
      /\ map TileDB.m_name (TileDB.m_attrs w') = ["Intensity"; "Classification"]
      /\ TileDB.m_use_time w' = true)
  /\ SetupSample.ready_sample SetupSample.args_append SetupSample.array_short
     = TileDB.Throw
         (TileDB.PdalError
            "Attribute Classification does not exist in original array.").
Proof. split; [eexists; eexists|]; vm_compute; repeat split. Qed.

Lemma createFilter_by_name_witness :
  In "zstd" TileDBSetup.compression_names
  /\ TileDBSetup.createFilter SetupSample.set_option SetupSample.get_int
       (Json.Object [("compression", Json.Str "zstd")])
     = TileDB.Ret (TileDB.mkFilter TileDB.FILTER_ZSTD []).
Proof.
  assert (Hin : In "zstd" TileDBSetup.compression_names)
    by (simpl; tauto).
  split; [exact Hin |].
  destruct (proj1 (createFilter_by_name SetupSample.set_option
                     SetupSample.get_int "zstd") Hin)
    as (type & Hmake & Hname & _).
  rewrite Hmake. destruct type; try discriminate Hname. reflexivity.
Defined.

Lemma createFilter_malformed_witness :
  Json.find "compression" [("compression_level", Json.Int 5)] = Datatypes.None
  /\ TileDBSetup.createFilter SetupSample.set_option SetupSample.get_int
       (Json.Object [("compression_level", Json.Int 5)])
     = TileDB.Undefined.
Proof.
  split; [reflexivity |].
  apply (proj2 (proj2 (proj2 (proj2 (proj2 (proj2 (proj2 (proj2
           (createFilter_malformed SetupSample.set_option
              SetupSample.get_int))))))))).
  - discriminate.
  - reflexivity.
Defined.

Lemma createFilterList_of_array_witness :
  let gzip := Json.Object [("compression", Json.Str "gzip")] in
  let bad := Json.Object [("compression", Json.Str "GZIP")] in
  TileDBSetup.createFilterList SetupSample.set_option SetupSample.get_int
    (Json.Array [gzip; bad; Json.Str "zstd"])
  = TileDB.Throw (TileDBSetup.unparsed "GZIP").
Proof.
  intros gzip bad.
  rewrite (proj2 (createFilterList_of_array SetupSample.set_option
                    SetupSample.get_int [gzip; bad; Json.Str "zstd"])
             [gzip] [TileDB.mkFilter TileDB.FILTER_GZIP []] bad
             [Json.Str "zstd"] eq_refl).
  - reflexivity.
  - repeat constructor.
  - intros f. discriminate.
Defined.

Lemma ready_prepares_cache_witness :
  exists w' schema',
    SetupSample.ready_sample SetupSample.args SetupSample.no_array
    = TileDB.Ret (w', schema')
    /\ TileDB.empty_cache SetupSample.args w'.
Proof.
  assert (H : exists ws,
             SetupSample.ready_sample SetupSample.args SetupSample.no_array
             = TileDB.Ret ws)
    by (eexists; vm_compute; reflexivity).
  destruct H as [[w' schema'] H].
  exists w', schema'. split; [exact H |].
  exact (proj1 (ready_prepares_cache SetupSample.set_option SetupSample.get_int
                  SetupSample.args SetupSample.layout Datatypes.None
                  SetupSample.no_array false SetupSample.new_schema schema'
                  SetupSample.w_new w' eq_refl eq_refl eq_refl eq_refl eq_refl
                  eq_refl ltac:(simpl; lia) ltac:(simpl; lia) H)).
Defined.


Lemma ready_domain_shape_witness :
  TileDBSetup.isValidDomain SetupSample.args_append = false
  /\ TileDBSetup.ready_domain SetupSample.args_append false false Datatypes.None
     = TileDB.Throw (TileDB.PdalError TileDBSetup.hilbert_needs_domain).
Proof.
  assert (H : TileDBSetup.isValidDomain SetupSample.args_append = false)
    by (vm_compute; reflexivity).
  split; [exact H |].
  apply (proj2 (proj1 (ready_domain_shape SetupSample.args_append false false
                         Datatypes.None))).
  split; [reflexivity | split; [exact H | reflexivity]].
Defined.

Lemma initialize_compression_witness :
  TileDBSetup.filter_type_of (TileDB.m_compressor SetupSample.args_brotli)
  = Datatypes.None
  /\ TileDBSetup.initialize SetupSample.set_option SetupSample.get_int
       SetupSample.make_context SetupSample.new_schema SetupSample.args_brotli
     = TileDB.Throw
         (TileDB.PdalError
            ("TileDB Error: Unable to parse compression type: "
             ++ TileDB.m_compressor SetupSample.args_brotli)).
Proof.
  split; [reflexivity |].
  refine (proj1 (proj2 (proj2 (proj2
            (initialize_compression SetupSample.set_option SetupSample.get_int
               SetupSample.make_context SetupSample.new_schema
               SetupSample.args_brotli)))
            eq_refl eq_refl eq_refl _) eq_refl).
  discriminate.
Defined.

Lemma ready_adds_attributes_witness :
  exists w' schema' new,
    SetupSample.ready_sample SetupSample.args SetupSample.no_array
    = TileDB.Ret (w', schema')
    /\ TileDB.s_attributes schema' = new
    /\ Forall2 (TileDBSetup.attribute_made SetupSample.set_option
                  SetupSample.get_int SetupSample.args)
         (TileDBSetup.selected false SetupSample.layout) new.
Proof.
  assert (H : exists ws,
             SetupSample.ready_sample SetupSample.args SetupSample.no_array
             = TileDB.Ret ws)
    by (eexists; vm_compute; reflexivity).
  destruct H as [[w' schema'] H].
  destruct (ready_adds_attributes SetupSample.set_option
              SetupSample.get_int SetupSample.args SetupSample.layout
              Datatypes.None SetupSample.no_array false
              SetupSample.new_schema schema' SetupSample.w_new w'
              eq_refl H) as (new & Hnew & Hall).
  exists w', schema', new. split; [exact H | split; [exact Hnew | exact Hall]].
Defined.

Lemma sample_defaults_only : TileDBSetup.defaults_only SetupSample.args.
Proof. repeat split. Qed.

Lemma defaults_make_filters_witness :
  TileDBSetup.defaults_only SetupSample.args
  /\ exists f,
       TileDBSetup.initialize SetupSample.set_option SetupSample.get_int
         SetupSample.make_context SetupSample.new_schema SetupSample.args
       = TileDB.Ret (Some (TileDBSetup.set_coords SetupSample.new_schema [f])).
Proof.
  split; [exact sample_defaults_only |].
  exact (proj1 (defaults_make_filters SetupSample.set_option SetupSample.get_int
                  SetupSample.make_context SetupSample.new_schema
                  SetupSample.args (fun z => eq_refl)
                  (fun f v => ex_intro _ _ eq_refl)
                  sample_defaults_only eq_refl eq_refl)).
Defined.
